(** * Tiki product crawler: a shallow embedding and its verified properties

    The development follows the Python sources
    [src/tiki_crawler.py], [src/crawl_stats.py], [src/deduplication.py] and
    [src/file_handler.py].

    Modelling conventions.
    - A Python [str] is a [string] of the Standard Library; its characters
      are read as the code points 0..255.  [clean_description], whose
      result depends on which characters are whitespace, is also given over
      the lists of arbitrary Unicode code points.
    - JSON documents (API payloads, the records kept in the output files)
      are values of the type [json]; JSON numbers are integers.
    - A Python exception is a value of [exn]; code that may raise returns
      [res A], and [try]/[except] is a [match] on that result.
    - The remote API and the wall clock form the environment [env]: the
      answer to a request may depend on the identifier and on everything
      that happened before (the number of events logged so far).
    - The output directory is an association list from file names to
      parsed contents; its order is the order of [os.listdir].  Writing a
      file never fails: the errors of the file system are not modelled.
    - [asyncio.gather] over a window of workers is modelled by running the
      workers one after the other, in the order in which they were created.
      The properties of batches and runs are stated without reference to
      the order of the workers inside a window.
    - Printing, progress bars and the time measurements that are only
      printed are left out.  The duplicate audit at the end of [crawl] only
      prints: it is modelled on its own, as the dict that it reports. *)

From Stdlib Require Import String Ascii List Arith ZArith Lia Bool.
From Stdlib Require Import DecimalString DecimalNat DecimalFacts.
From stdpp Require Import gmap strings.

Import ListNotations.
Local Open Scope string_scope.
Local Open Scope list_scope.
Local Open Scope nat_scope.

#[local] Arguments String.append !s1 s2 : simpl nomatch.

(** ** Python strings *)

Module PyStr.

(** [str.isspace] on the code points 0..255; the same class is used by
    [\s] in [re], by [str.strip()] and by [str.split()]. *)
Definition is_space (c : ascii) : bool :=
  let n := nat_of_ascii c in
  ((9 <=? n) && (n <=? 13)) || ((28 <=? n) && (n <=? 32))
  || (n =? 133) || (n =? 160).

(** [str.lower] on the code points 0..255. *)
Definition lower_char (c : ascii) : ascii :=
  let n := nat_of_ascii c in
  if ((65 <=? n) && (n <=? 90))
     || ((192 <=? n) && (n <=? 222) && negb (n =? 215))
  then ascii_of_nat (n + 32) else c.

Fixpoint lower (s : string) : string :=
  match s with
  | EmptyString => EmptyString
  | String c r => String (lower_char c) (lower r)
  end.

(** [sub in s] *)
Fixpoint contains (sub s : string) : bool :=
  String.prefix sub s
  || match s with
     | EmptyString => false
     | String _ r => contains sub r
     end.

Definition startswith (s pre : string) : bool := String.prefix pre s.

Fixpoint rev (s : string) : string :=
  match s with
  | EmptyString => EmptyString
  | String c r => rev r ++ String c EmptyString
  end.

Definition endswith (s suf : string) : bool := String.prefix (rev suf) (rev s).

(** [s[:n]] *)
Fixpoint take (n : nat) (s : string) : string :=
  match n, s with
  | S k, String c r => String c (take k r)
  | _, _ => EmptyString
  end.

Fixpoint lstrip (s : string) : string :=
  match s with
  | String c r => if is_space c then lstrip r else s
  | EmptyString => EmptyString
  end.

Definition rstrip (s : string) : string := rev (lstrip (rev s)).

(** [s.strip()] *)
Definition strip (s : string) : string := rstrip (lstrip s).

(** [s.split()]: the maximal runs of non-whitespace characters.  [cur] is
    the token being read, kept in reverse. *)
Fixpoint split_from (cur : string) (s : string) : list string :=
  match s with
  | EmptyString =>
      match cur with EmptyString => [] | _ => [rev cur] end
  | String c r =>
      if is_space c
      then match cur with
           | EmptyString => split_from EmptyString r
           | _ => rev cur :: split_from EmptyString r
           end
      else split_from (String c cur) r
  end.

Definition split (s : string) : list string := split_from EmptyString s.

(** [str(n)] for a natural number, as in an f-string. *)
Definition of_nat (n : nat) : string := NilEmpty.string_of_uint (Nat.to_uint n).

(** [str(z)] for an integer. *)
Definition of_Z (z : Z) : string :=
  match z with
  | Zneg p => String "-"%char (of_nat (Pos.to_nat p))
  | _ => of_nat (Z.to_nat z)
  end.

(** [re.sub(r"<[^>]+>", "", s)].  [tag_len r] is the number of characters
    of [r] that a match opened by a ["<"] just before [r] consumes: one or
    more characters different from [">"], then [">"]. *)
Fixpoint until_gt (r : string) : option nat :=
  match r with
  | EmptyString => None
  | String c r' =>
      if Ascii.eqb c ">"%char then Some 0
      else match until_gt r' with Some n => Some (S n) | None => None end
  end.

Definition tag_len (r : string) : option nat :=
  match until_gt r with
  | Some (S n) => Some (S (S n))
  | _ => None
  end.

(** [skip] characters are still part of the match being deleted. *)
Fixpoint sub_tags (skip : nat) (s : string) : string :=
  match s with
  | EmptyString => EmptyString
  | String c r =>
      match skip with
      | S k => sub_tags k r
      | O =>
          if Ascii.eqb c "<"%char
          then match tag_len r with
               | Some m => sub_tags m r
               | None => String c (sub_tags 0 r)
               end
          else String c (sub_tags 0 r)
      end
  end.

(** [re.sub(r"\s+", " ", s)]; [in_run] tells that the previous character
    was whitespace, already replaced. *)
Fixpoint sub_spaces (in_run : bool) (s : string) : string :=
  match s with
  | EmptyString => EmptyString
  | String c r =>
      if is_space c
      then if in_run then sub_spaces true r
           else String " "%char (sub_spaces true r)
      else String c (sub_spaces false r)
  end.

End PyStr.


(** ** Python strings over any alphabet

    [clean_description] reads its text through three tests on characters
    only (is it whitespace, is it ["<"], is it [">"]) and writes one
    character of its own, [" "].  The functions below are those of [PyStr]
    for a text given as the list of its characters, whatever the
    characters are. *)

Module PyText.

Section Alphabet.

Context {char : Type}.
Variable is_space : char -> bool.     (* str.isspace, and \s in re *)
Variable is_lt is_gt : char -> bool.  (* the characters "<" and ">" *)
Variable space : char.                (* the character " " *)

Fixpoint until_gt (r : list char) : option nat :=
  match r with
  | [] => None
  | c :: r' =>
      if is_gt c then Some 0
      else match until_gt r' with Some n => Some (S n) | None => None end
  end.

Definition tag_len (r : list char) : option nat :=
  match until_gt r with
  | Some (S n) => Some (S (S n))
  | _ => None
  end.

(** [re.sub(r"<[^>]+>", "", s)] *)
Fixpoint sub_tags (skip : nat) (s : list char) : list char :=
  match s with
  | [] => []
  | c :: r =>
      match skip with
      | S k => sub_tags k r
      | O =>
          if is_lt c
          then match tag_len r with
               | Some m => sub_tags m r
               | None => c :: sub_tags 0 r
               end
          else c :: sub_tags 0 r
      end
  end.

(** [re.sub(r"\s+", " ", s)] *)
Fixpoint sub_spaces (in_run : bool) (s : list char) : list char :=
  match s with
  | [] => []
  | c :: r =>
      if is_space c
      then if in_run then sub_spaces true r
           else space :: sub_spaces true r
      else c :: sub_spaces false r
  end.

Fixpoint lstrip (s : list char) : list char :=
  match s with
  | c :: r => if is_space c then lstrip r else s
  | [] => []
  end.

Definition rstrip (s : list char) : list char := List.rev (lstrip (List.rev s)).

(** [s.strip()] *)
Definition strip (s : list char) : list char := rstrip (lstrip s).

(** Lines 62-66 of [tiki_crawler.py] on a [str]. *)
Definition clean_description (text : list char) : list char :=
  match text with
  | [] => []
  | _ => strip (sub_spaces false (sub_tags 0 text))
  end.

(** The first character is whitespace. *)
Definition leading_space (s : list char) : bool :=
  match s with
  | c :: _ => is_space c
  | [] => false
  end.

(** The last character is whitespace. *)
Definition trailing_space (s : list char) : bool := leading_space (List.rev s).

(** Two whitespace characters stand next to each other somewhere. *)
Fixpoint double_space (s : list char) : bool :=
  match s with
  | c :: r => (is_space c && leading_space r) || double_space r
  | [] => false
  end.

End Alphabet.

End PyText.

(** A Python [str] as the list of its Unicode code points. *)
Module Unicode.

Definition text : Type := list N.

(** [str.isspace] of one character (CPython's [_PyUnicode_IsWhitespace]),
    the class that [\s] of [re] and [str.strip()] use on a [str]. *)
Definition is_space (c : N) : bool :=
  (((9 <=? c) && (c <=? 13)) || ((28 <=? c) && (c <=? 32))
   || (c =? 133) || (c =? 160) || (c =? 5760)
   || ((8192 <=? c) && (c <=? 8202))
   || (c =? 8232) || (c =? 8233) || (c =? 8239) || (c =? 8287)
   || (c =? 12288))%N.

Definition clean_description : text -> text :=
  PyText.clean_description is_space (N.eqb 60) (N.eqb 62) 32%N.

Definition leading_space : text -> bool := PyText.leading_space is_space.
Definition trailing_space : text -> bool := PyText.trailing_space is_space.
Definition double_space : text -> bool := PyText.double_space is_space.

(** The code points of a string of the model, whose characters are the
    code points 0..255. *)
Definition codes (s : string) : text :=
  map N_of_ascii (list_ascii_of_string s).

End Unicode.

(** ** Python values, exceptions and the environment *)

#[local] Set Warnings "-register-all".

(** A JSON document as [json.load] returns it.  An object is a [dict]: a
    key is looked up at its first occurrence. *)
Inductive json : Type :=
| JNull
| JBool (b : bool)
| JNum (n : Z)
| JStr (s : string)
| JArr (items : list json)
| JObj (fields : list (string * json)).

Inductive exn_class : Type :=
| TimeoutError        (* asyncio.TimeoutError *)
| AttributeError
| TypeError
| ValueError
| ZeroDivisionError
| OtherException.     (* any other subclass of Exception *)

(** An exception: its class and [str(e)]. *)
Record exn : Type := Exn { exn_kind : exn_class; exn_str : string }.

Inductive res (A : Type) : Type :=
| Ok (a : A)
| Raise (e : exn).
Arguments Ok {A} a.
Arguments Raise {A} e.

Definition bind {A B : Type} (c : res A) (k : A -> res B) : res B :=
  match c with
  | Ok a => k a
  | Raise e => Raise e
  end.

Notation "'let*' x ':=' c 'in' k" := (bind c (fun x => k))
  (at level 10, x name, c at level 100, k at level 200).

Fixpoint mapM {A B : Type} (f : A -> res B) (l : list A) : res (list B) :=
  match l with
  | [] => Ok []
  | x :: r =>
      let* y := f x in
      let* ys := mapM f r in
      Ok (y :: ys)
  end.

(** What one [session.get(url, timeout=20)] gives: an exception, or a
    response with its status and the result of [await resp.json()]. *)
Inductive outcome : Type :=
| Raises (e : exn)
| Response (status : nat) (body : res json).

(** The environment of a run.  [server t product_id] answers the request
    issued when [t] events have happened; [now t] is
    [datetime.now().isoformat()] read at that moment; [repr j] is [str(j)]
    for a list or a dict. *)
Record env : Type := Env {
  server : nat -> string -> outcome;
  now : nat -> string;
  repr : json -> string
}.

Module Py.

Definition type_name (v : json) : string :=
  match v with
  | JNull => "NoneType"
  | JBool _ => "bool"
  | JNum _ => "int"
  | JStr _ => "str"
  | JArr _ => "list"
  | JObj _ => "dict"
  end.

(** [bool(v)] *)
Definition truthy (v : json) : bool :=
  match v with
  | JNull => false
  | JBool b => b
  | JNum n => negb (Z.eqb n 0)
  | JStr s => negb (String.eqb s "")
  | JArr l => match l with [] => false | _ => true end
  | JObj f => match f with [] => false | _ => true end
  end.

Fixpoint lookup_key (k : string) (fields : list (string * json)) : option json :=
  match fields with
  | [] => None
  | (k', v) :: r => if String.eqb k' k then Some v else lookup_key k r
  end.

(** [v.get(k, default)] *)
Definition get_default (v : json) (k : string) (default : json) : res json :=
  match v with
  | JObj fields =>
      Ok (match lookup_key k fields with Some x => x | None => default end)
  | _ => Raise (Exn AttributeError
                  ("'" ++ type_name v ++ "' object has no attribute 'get'"))
  end.

(** [v.get(k)] *)
Definition get (v : json) (k : string) : res json := get_default v k JNull.

Fixpoint chars (s : string) : list json :=
  match s with
  | EmptyString => []
  | String c r => JStr (String c EmptyString) :: chars r
  end.

(** The items that [for x in v] goes through. *)
Definition iter (v : json) : res (list json) :=
  match v with
  | JArr l => Ok l
  | JObj fields => Ok (map (fun kv => JStr (fst kv)) fields)
  | JStr s => Ok (chars s)
  | _ => Raise (Exn TypeError ("'" ++ type_name v ++ "' object is not iterable"))
  end.

(** [str(v)] *)
Definition str (E : env) (v : json) : string :=
  match v with
  | JNull => "None"
  | JBool true => "True"
  | JBool false => "False"
  | JNum n => PyStr.of_Z n
  | JStr s => s
  | _ => repr E v
  end.

(** Keys of a [dict] or members of a [set]: lists and dicts are not
    hashable; [True == 1] and [False == 0]. *)
Definition hashable (v : json) : bool :=
  match v with
  | JArr _ | JObj _ => false
  | _ => true
  end.

Definition key_eqb (a b : json) : bool :=
  match a, b with
  | JNull, JNull => true
  | JStr s, JStr t => String.eqb s t
  | JNum n, JNum m => Z.eqb n m
  | JBool x, JBool y => Bool.eqb x y
  | JBool x, JNum m => Z.eqb (if x then 1 else 0) m
  | JNum n, JBool y => Z.eqb n (if y then 1 else 0)
  | _, _ => false
  end.

Definition unhashable (v : json) : exn :=
  Exn TypeError ("unhashable type: '" ++ type_name v ++ "'").

End Py.

(** ** crawl_stats.py *)

Record CrawlStats : Type := mkStats {
  total_products : nat;
  completed : nat;
  failed : nat;
  error_codes : list (json * nat);       (* defaultdict(int), in insertion order *)
  products_with_missing_fields : nat;
  failed_products : list json
}.
(* start_time and end_time are only read by print_summary and are left out *)

Module CrawlStats.

Definition init : CrawlStats :=
  {| total_products := 0; completed := 0; failed := 0; error_codes := [];
     products_with_missing_fields := 0; failed_products := [] |}.

(** [codes[key] += 1] on a [defaultdict(int)]; [key] is hashable. *)
Fixpoint incr (key : json) (codes : list (json * nat)) : list (json * nat) :=
  match codes with
  | [] => [(key, 1)]
  | (k, n) :: r =>
      if Py.key_eqb k key then (k, S n) :: r else (k, n) :: incr key r
  end.

(** [codes[key]] read without inserting; 0 when the key is absent. *)
Fixpoint count (key : json) (codes : list (json * nat)) : nat :=
  match codes with
  | [] => 0
  | (k, n) :: r => if Py.key_eqb k key then n else count key r
  end.

Definition add_success (st : CrawlStats) : CrawlStats :=
  {| total_products := total_products st;
     completed := completed st + 1;
     failed := failed st;
     error_codes := error_codes st;
     products_with_missing_fields := products_with_missing_fields st;
     failed_products := failed_products st |}.

Definition add_missing_fields (st : CrawlStats) : CrawlStats :=
  {| total_products := total_products st;
     completed := completed st;
     failed := failed st;
     error_codes := error_codes st;
     products_with_missing_fields := products_with_missing_fields st + 1;
     failed_products := failed_products st |}.

(** [x or d] on an optional string *)
Definition or_else (x : option string) (d : string) : string :=
  match x with
  | Some (String c r) => String c r
  | _ => d
  end.

Definition nonempty (x : option string) : bool :=
  match x with
  | Some (String _ _) => true
  | _ => false
  end.

Definition failure_record (status_code product_id error_message : option string)
    (timestamp : string) : json :=
  JObj [ ("product_id", JStr (or_else product_id ""));
         ("error_code", JStr (or_else status_code "UNKNOWN"));
         ("error_message", JStr (or_else error_message ""));
         ("timestamp", JStr timestamp) ].

(** [add_failure(status_code, product_id, error_message)]; [timestamp] is
    the value of [datetime.now().isoformat()] at the call. *)
Definition add_failure (status_code product_id error_message : option string)
    (timestamp : string) (st : CrawlStats) : CrawlStats :=
  {| total_products := total_products st;
     completed := completed st;
     failed := failed st + 1;
     error_codes :=
       if nonempty status_code
       then incr (JStr (or_else status_code "")) (error_codes st)
       else error_codes st;
     products_with_missing_fields := products_with_missing_fields st;
     failed_products :=
       if nonempty product_id
       then failed_products st
              ++ [failure_record status_code product_id error_message timestamp]
       else failed_products st |}.

End CrawlStats.

(** ** The state of a run *)

(** The content of a file of the output folder, as [json.load] sees it. *)
Inductive file : Type :=
| Parsed (j : json)
| Unreadable.            (* [json.load] raises *)

Definition dir : Type := list (string * file).

Inductive event : Type :=
| Get (product_id : string)     (* session.get on the product's URL *)
| Sleep (seconds : nat).        (* asyncio.sleep *)

Record state : Type := mkState {
  stats : CrawlStats;
  files : dir;
  log : list event
}.

Definition set_stats (f : CrawlStats -> CrawlStats) (s : state) : state :=
  {| stats := f (stats s); files := files s; log := log s |}.

Definition emit (e : event) (s : state) : state :=
  {| stats := stats s; files := files s; log := log s ++ [e] |}.

Definition set_files (f : dir -> dir) (s : state) : state :=
  {| stats := stats s; files := f (files s); log := log s |}.

Record config : Type := mkConfig {
  batch_size : nat;
  concurrent_requests : nat;
  max_retries : nat
}.


(** ** The output folder *)

Module Dir.

Fixpoint lookup (name : string) (d : dir) : option file :=
  match d with
  | [] => None
  | (n, f) :: r => if String.eqb n name then Some f else lookup name r
  end.

(** [os.path.exists] *)
Definition exists_ (name : string) (d : dir) : bool :=
  match lookup name d with Some _ => true | None => false end.

(** [open(name, 'w')] followed by [write(json.dumps(content))]: the file is
    replaced, or created at the end of the listing. *)
Fixpoint write (name : string) (content : json) (d : dir) : dir :=
  match d with
  | [] => [(name, Parsed content)]
  | (n, f) :: r =>
      if String.eqb n name then (n, Parsed content) :: r
      else (n, f) :: write name content r
  end.

Definition is_products_file (name : string) : bool :=
  PyStr.startswith name "products_" && PyStr.endswith name ".json".

Definition is_failed_file (name : string) : bool :=
  PyStr.startswith name "failed_" && PyStr.endswith name ".json".

End Dir.

(** [range(0, stop, step)] for a positive [step] *)
Definition py_range (stop step : nat) : list nat :=
  map (fun k => k * step) (seq 0 ((stop + step - 1) / step)).

(** [l[i:j]] *)
Definition slice {A : Type} (l : list A) (i j : nat) : list A :=
  firstn (j - i) (skipn i l).

(** ** deduplication.py *)

Module DeduplicationUtils.

(** [list(dict.fromkeys(items))] *)
Definition deduplicate_list (items : list string) : list string :=
  fold_left (fun keys x => if existsb (String.eqb x) keys then keys
                           else keys ++ [x])
            items [].

(** The loop over the products of one file; an exception ends it and is
    caught by the [except] around it. *)
Fixpoint scan_ids (E : env) (data : list json) (crawled_ids : gset string)
    : gset string :=
  match data with
  | [] => crawled_ids
  | product :: rest =>
      match Py.get product "id" with
      | Ok id =>
          if Py.truthy id
          then scan_ids E rest (crawled_ids ∪ {[ Py.str E id ]})
          else scan_ids E rest crawled_ids
      | Raise _ => crawled_ids
      end
  end.

Definition scan_file (E : env) (crawled_ids : gset string)
    (entry : string * file) : gset string :=
  if Dir.is_products_file (fst entry)
  then match snd entry with
       | Parsed data =>
           match Py.iter data with
           | Ok items => scan_ids E items crawled_ids
           | Raise _ => crawled_ids
           end
       | Unreadable => crawled_ids
       end
  else crawled_ids.

Definition get_already_crawled_ids (E : env) (output_folder : dir)
    : gset string :=
  fold_left (scan_file E) output_folder ∅.

(** [product_ids_seen]: for each key, the files in which it was met.
    [note] is lines 51-54: append to the entry of the key, or start one. *)
Fixpoint note (product_id filename : string)
    (product_ids_seen : list (string * list string))
    : list (string * list string) :=
  match product_ids_seen with
  | [] => [(product_id, [filename])]
  | (k, seen_in) :: r =>
      if String.eqb k product_id then (k, seen_in ++ [filename]) :: r
      else (k, seen_in) :: note product_id filename r
  end.

(** The loop of line 49 over the products of one file; an exception ends
    it and is caught by the [except] around it. *)
Fixpoint check_products (E : env) (filename : string) (data : list json)
    (product_ids_seen : list (string * list string))
    : list (string * list string) :=
  match data with
  | [] => product_ids_seen
  | product :: rest =>
      match Py.get_default product "id" (JStr "unknown") with
      | Ok id =>
          check_products E filename rest
            (note (Py.str E id) filename product_ids_seen)
      | Raise _ => product_ids_seen
      end
  end.

Definition check_file (E : env) (product_ids_seen : list (string * list string))
    (entry : string * file) : list (string * list string) :=
  if Dir.is_products_file (fst entry)
  then match snd entry with
       | Parsed data =>
           match Py.iter data with
           | Ok items => check_products E (fst entry) items product_ids_seen
           | Raise _ => product_ids_seen
           end
       | Unreadable => product_ids_seen
       end
  else product_ids_seen.

(** [check_duplicate_products_in_output]: the dict [duplicates] of line 58,
    which decides what the function prints. *)
Definition check_duplicate_products_in_output (E : env) (output_folder : dir)
    : list (string * list string) :=
  List.filter (fun entry => 1 <? length (snd entry))
    (fold_left (check_file E) output_folder []).

End DeduplicationUtils.

(** ** file_handler.py *)

Module FileHandler.

Definition batch_file (batch_index : nat) : string :=
  "products_" ++ PyStr.of_nat (batch_index + 1) ++ ".json".

Definition save_batch (products : list json) (batch_index : nat) (d : dir) : dir :=
  Dir.write (batch_file batch_index) (JArr products) d.

(** [groups[key].append(item)] on a [defaultdict(list)] *)
Fixpoint append_to (key : json) (item : json) (groups : list (json * list json))
    : list (json * list json) :=
  match groups with
  | [] => [(key, [item])]
  | (k, items) :: r =>
      if Py.key_eqb k key then (k, items ++ [item]) :: r
      else (k, items) :: append_to key item r
  end.

(** Lines 25-28 *)
Fixpoint group_by_error (failed_products : list json)
    (failed_by_error : list (json * list json))
    : res (list (json * list json)) :=
  match failed_products with
  | [] => Ok failed_by_error
  | failed_product :: rest =>
      let* error_code := Py.get_default failed_product "error_code" (JStr "UNKNOWN") in
      if Py.hashable error_code
      then group_by_error rest (append_to error_code failed_product failed_by_error)
      else Raise (Py.unhashable error_code)
  end.

(** [error_code.lower()] *)
Definition lower_of (error_code : json) : res string :=
  match error_code with
  | JStr s => Ok (PyStr.lower s)
  | _ => Raise (Exn AttributeError
                  ("'" ++ Py.type_name error_code
                   ++ "' object has no attribute 'lower'"))
  end.

Definition failed_file (lowered : string) : string :=
  "failed_" ++ lowered ++ ".json".

(** The key [item.get("product_id")] as a member of a set. *)
Definition product_key (item : json) : res json :=
  let* product_id := Py.get item "product_id" in
  if Py.hashable product_id then Ok product_id
  else Raise (Py.unhashable product_id).

Fixpoint new_among (existing_ids : list json) (products : list json)
    : res (list json) :=
  match products with
  | [] => Ok []
  | p :: rest =>
      let* product_id := product_key p in
      let* others := new_among existing_ids rest in
      Ok (if existsb (Py.key_eqb product_id) existing_ids
          then others else p :: others)
  end.

(** [existing_failed + new_failed]; the character 34 is the double
    quote of Python's message for a [str] on the left. *)
Definition concat_lists (existing_failed : json) (new_failed : list json)
    : res (list json) :=
  match existing_failed with
  | JArr l => Ok (l ++ new_failed)
  | JStr _ =>
      Raise (Exn TypeError
               ("can only concatenate str (not "
                ++ String "034"%char ("list" ++ String "034"%char ") to str")))
  | _ => Raise (Exn TypeError
                  ("unsupported operand type(s) for +: '"
                   ++ Py.type_name existing_failed ++ "' and 'list'"))
  end.

(** Lines 32-50: one error code and its products. *)
Definition save_group (error_code : json) (products : list json) (d : dir)
    : res dir :=
  let* lowered := lower_of error_code in
  let filename := failed_file lowered in
  let existing_failed :=
    match Dir.lookup filename d with
    | Some (Parsed j) => j
    | Some Unreadable => JArr []     (* the error is printed, the list stays empty *)
    | None => JArr []
    end in
  let* items := Py.iter existing_failed in
  let* existing_ids := mapM product_key items in
  let* new_failed := new_among existing_ids products in
  let* all_failed := concat_lists existing_failed new_failed in
  Ok (Dir.write filename (JArr all_failed) d).

(** The loop of line 31; an exception leaves the files written so far. *)
Fixpoint save_groups (groups : list (json * list json)) (d : dir)
    : dir * option exn :=
  match groups with
  | [] => (d, None)
  | (error_code, products) :: rest =>
      match save_group error_code products d with
      | Ok d' => save_groups rest d'
      | Raise e => (d, Some e)
      end
  end.

Definition all_failed_path : string := "all_failed_products.json".

Definition save_failed_products_by_error (failed_products : list json) (d : dir)
    : dir * option exn :=
  match failed_products with
  | [] => (d, None)
  | _ =>
      match group_by_error failed_products [] with
      | Raise e => (d, Some e)
      | Ok failed_by_error =>
          match save_groups failed_by_error d with
          | (d', Some e) => (d', Some e)
          | (d', None) =>
              (Dir.write all_failed_path (JArr failed_products) d', None)
          end
      end
  end.

(** Lines 82-85, for the products of one file. *)
Fixpoint replay_products (has_missing_fields_func : json -> res bool)
    (data : list json) (st : CrawlStats) : CrawlStats :=
  match data with
  | [] => st
  | product :: rest =>
      let st := CrawlStats.add_success st in
      match has_missing_fields_func product with
      | Ok true =>
          replay_products has_missing_fields_func rest
            (CrawlStats.add_missing_fields st)
      | Ok false => replay_products has_missing_fields_func rest st
      | Raise _ => st
      end
  end.

Definition count_failed (st : CrawlStats) : CrawlStats :=
  {| total_products := total_products st;
     completed := completed st;
     failed := failed st + 1;
     error_codes := error_codes st;
     products_with_missing_fields := products_with_missing_fields st;
     failed_products := failed_products st |}.

Definition record_failed (error_code failed_item : json) (st : CrawlStats)
    : CrawlStats :=
  {| total_products := total_products st;
     completed := completed st;
     failed := failed st;
     error_codes := CrawlStats.incr error_code (error_codes st);
     products_with_missing_fields := products_with_missing_fields st;
     failed_products := failed_products st ++ [failed_item] |}.

(** Lines 96-100, for the records of one file. *)
Fixpoint replay_failures (failed_data : list json) (st : CrawlStats) : CrawlStats :=
  match failed_data with
  | [] => st
  | failed_item :: rest =>
      match Py.get_default failed_item "error_code" (JStr "UNKNOWN") with
      | Ok error_code =>
          let st := count_failed st in
          if Py.hashable error_code
          then replay_failures rest (record_failed error_code failed_item st)
          else st
      | Raise _ => st
      end
  end.

Definition load_file (select : string -> bool)
    (replay : list json -> CrawlStats -> CrawlStats)
    (st : CrawlStats) (entry : string * file) : CrawlStats :=
  if select (fst entry)
  then match snd entry with
       | Parsed data =>
           match Py.iter data with
           | Ok items => replay items st
           | Raise _ => st
           end
       | Unreadable => st
       end
  else st.

Definition load_existing_results (d : dir) (st : CrawlStats)
    (has_missing_fields_func : json -> res bool) : CrawlStats :=
  let st := fold_left (load_file Dir.is_products_file
                         (replay_products has_missing_fields_func)) d st in
  fold_left (load_file Dir.is_failed_file replay_failures) d st.

End FileHandler.

(** ** tiki_crawler.py *)

Module TikiCrawler.

Definition clean_description (text : json) : res string :=
  if negb (Py.truthy text) then Ok ""
  else match text with
       | JStr s =>
           Ok (PyStr.strip (PyStr.sub_spaces false (PyStr.sub_tags 0 s)))
       | _ => Raise (Exn TypeError
                       ("expected string or bytes-like object, got '"
                        ++ Py.type_name text ++ "'"))
       end.

Definition required_fields : list string :=
  ["id"; "name"; "url_key"; "price"; "description"; "images"].

Definition is_list (v : json) : bool :=
  match v with JArr _ => true | _ => false end.

Definition len0 (v : json) : bool :=
  match v with JArr [] => true | _ => false end.

Fixpoint missing_among (fields : list string) (product_data : json) : res bool :=
  match fields with
  | [] => Ok false
  | field :: rest =>
      let* v := Py.get product_data field in
      if String.eqb field "images"
      then if negb (is_list v) || len0 v then Ok true
           else missing_among rest product_data
      else if negb (Py.truthy v) then Ok true
           else missing_among rest product_data
  end.

Definition has_missing_fields (product_data : json) : res bool :=
  missing_among required_fields product_data.

(** Lines 89-96: the normalised record built from the payload. *)
Definition product_data_of (data : json) : res json :=
  let* id := Py.get data "id" in
  let* name := Py.get data "name" in
  let* url_key := Py.get data "url_key" in
  let* price := Py.get data "price" in
  let* raw := Py.get data "description" in
  let* description := clean_description raw in
  let* images := Py.get_default data "images" (JArr []) in
  let* imgs := Py.iter images in
  let* urls := mapM (fun img => Py.get img "base_url") imgs in
  Ok (JObj [ ("id", id); ("name", name); ("url_key", url_key);
             ("price", price); ("description", JStr description);
             ("images", JArr urls) ]).

(** Lines 121-123.  [str(None)] is ["None"]. *)
Definition error_code_of (last_error : option string) : res string :=
  let shown := match last_error with Some m => m | None => "None" end in
  let error_code :=
    if PyStr.contains "timeout" (PyStr.lower shown) then "TIMEOUT" else "ERROR" in
  if PyStr.contains "HTTP" shown
  then match last_error with
       | Some m =>
           Ok (if 1 <? length (PyStr.split m)
               then nth 1 (PyStr.split m) "" else "HTTP_ERROR")
       | None => Raise (Exn AttributeError
                          "'NoneType' object has no attribute 'split'")
       end
  else Ok error_code.

(** One pass through the body of the retry loop, up to line 115. *)
Inductive attempt_result : Type :=
| Fetched (product_data : json) (missing : bool)
| Failed (last_error : string).

Definition handler (e : exn) : attempt_result :=
  match exn_kind e with
  | TimeoutError => Failed "Request timeout"
  | _ => Failed (PyStr.take 100 (exn_str e))
  end.

Definition attempt_once (o : outcome) : attempt_result :=
  match o with
  | Raises e => handler e
  | Response status body =>
      if status =? 200
      then match (let* data := body in
                  let* product_data := product_data_of data in
                  let* missing := has_missing_fields product_data in
                  Ok (product_data, missing)) with
           | Ok (product_data, missing) => Fetched product_data missing
           | Raise e => handler e
           end
      else Failed ("HTTP " ++ PyStr.of_nat status)
  end.

(** The loop [for attempt in range(max_retries)]: [todo] iterations are
    left, the next one has index [attempt]. *)
Fixpoint attempts (E : env) (max_retries : nat) (product_id : string)
    (todo attempt : nat) (last_error : option string) (s : state)
    : res (option json * state) :=
  match todo with
  | O =>
      let* error_code := error_code_of last_error in
      Ok (None,
          set_stats (CrawlStats.add_failure (Some error_code) (Some product_id)
                       last_error (now E (length (log s)))) s)
  | S todo' =>
      let o := server E (length (log s)) product_id in
      let s := emit (Get product_id) s in
      match attempt_once o with
      | Fetched product_data missing =>
          let s := if missing
                   then set_stats CrawlStats.add_missing_fields s else s in
          Ok (Some product_data, set_stats CrawlStats.add_success s)
      | Failed err =>
          let s := if attempt <? max_retries - 1
                   then emit (Sleep (1 * (attempt + 1))) s else s in
          attempts E max_retries product_id todo' (attempt + 1) (Some err) s
      end
  end.

Definition fetch_product (E : env) (cfg : config) (product_id : string)
    (s : state) : res (option json * state) :=
  attempts E (max_retries cfg) product_id (max_retries cfg) 0 None s.

(** The scheduler *)

Definition set_total (n : nat) (st : CrawlStats) : CrawlStats :=
  {| total_products := n;
     completed := completed st;
     failed := failed st;
     error_codes := error_codes st;
     products_with_missing_fields := products_with_missing_fields st;
     failed_products := failed_products st |}.

Definition filter_uncrawled_products (E : env) (d : dir)
    (product_ids : list string) : list string :=
  let already_crawled := DeduplicationUtils.get_already_crawled_ids E d in
  if decide (already_crawled = ∅) then product_ids
  else filter (fun pid => pid ∉ already_crawled) product_ids.

(** [tqdm_asyncio.gather] over the workers of one window. *)
Fixpoint gather (E : env) (cfg : config) (chunk_ids : list string) (s : state)
    : res (list (option json) * state) :=
  match chunk_ids with
  | [] => Ok ([], s)
  | pid :: rest =>
      match fetch_product E cfg pid s with
      | Ok (r, s) =>
          match gather E cfg rest s with
          | Ok (rs, s) => Ok (r :: rs, s)
          | Raise e => Raise e
          end
      | Raise e => Raise e
      end
  end.

(** [[r for r in chunk_results if r is not None]] *)
Fixpoint not_none (chunk_results : list (option json)) : list json :=
  match chunk_results with
  | [] => []
  | Some r :: rest => r :: not_none rest
  | None :: rest => not_none rest
  end.

(** The loop of line 135 over the window starts. *)
Fixpoint fetch_windows (E : env) (cfg : config) (product_ids : list string)
    (starts : list nat) (results : list json) (s : state)
    : res (list json * state) :=
  match starts with
  | [] => Ok (results, s)
  | i :: rest =>
      let chunk_ids := slice product_ids i (i + concurrent_requests cfg) in
      match gather E cfg chunk_ids s with
      | Ok (chunk_results, s) =>
          fetch_windows E cfg product_ids rest
            (results ++ not_none chunk_results) s
      | Raise e => Raise e
      end
  end.

Definition fetch_batch (E : env) (cfg : config) (product_ids : list string)
    (s : state) : res (list json * state) :=
  if concurrent_requests cfg =? 0
  then Raise (Exn ValueError "range() arg 3 must not be zero")
  else fetch_windows E cfg product_ids
         (py_range (length product_ids) (concurrent_requests cfg)) [] s.

(** [product_ids[start:end]] of line 172 *)
Definition batch_ids (cfg : config) (product_ids : list string) (start : nat)
    : list string :=
  slice product_ids start (Nat.min (start + batch_size cfg) (length product_ids)).

(** The loop of line 170 over the batch starts. *)
Fixpoint run_batches (E : env) (cfg : config) (product_ids : list string)
    (starts : list nat) (s : state) : res state :=
  match starts with
  | [] => Ok s
  | start :: rest =>
      let batch_index := start / batch_size cfg in
      let filename := FileHandler.batch_file batch_index in
      if Dir.exists_ filename (files s)
      then run_batches E cfg product_ids rest s
      else match fetch_batch E cfg (batch_ids cfg product_ids start) s with
           | Ok (products, s) =>
               let s := set_files (FileHandler.save_batch products batch_index) s in
               let s := emit (Sleep 2) s in
               run_batches E cfg product_ids rest s
           | Raise e => Raise e
           end
  end.

(** The identifiers that [crawl] schedules: lines 154-156. *)
Definition pending (E : env) (d : dir) (product_ids : list string) : list string :=
  filter_uncrawled_products E d (DeduplicationUtils.deduplicate_list product_ids).

(** [crawl]: the state at the end of the run and the exception that ended
    it, if any.  An exception raised by the batch loop comes from the first
    window of the first batch that is not skipped, before any effect. *)
Definition crawl (E : env) (cfg : config) (product_ids : list string) (s : state)
    : state * option exn :=
  let deduplicated := DeduplicationUtils.deduplicate_list product_ids in
  let s := set_stats (set_total (length deduplicated)) s in
  let s := set_stats (fun st => FileHandler.load_existing_results (files s) st
                                has_missing_fields) s in
  let product_ids := filter_uncrawled_products E (files s) deduplicated in
  match product_ids with
  | [] => (s, None)
  | _ =>
      if batch_size cfg =? 0
      then (s, Some (Exn ZeroDivisionError "integer division or modulo by zero"))
      else
        match run_batches E cfg product_ids
                (py_range (length product_ids) (batch_size cfg)) s with
        | Raise e => (s, Some e)
        | Ok s =>
            match FileHandler.save_failed_products_by_error
                    (failed_products (stats s)) (files s) with
            | (d, raised) => (set_files (fun _ => d) s, raised)
            end
        end
  end.

End TikiCrawler.

(** ** Vocabulary of the properties *)

Module Spec.

(** The first character is whitespace. *)
Definition leading_space (s : string) : bool :=
  match s with
  | String c _ => PyStr.is_space c
  | EmptyString => false
  end.

(** The last character is whitespace. *)
Definition trailing_space (s : string) : bool := leading_space (PyStr.rev s).

(** Two whitespace characters stand next to each other somewhere. *)
Fixpoint double_space (s : string) : bool :=
  match s with
  | String c r => (PyStr.is_space c && leading_space r) || double_space r
  | EmptyString => false
  end.

(** What a worker that fails at every one of its [n] attempts does on the
    network and the timer: attempt [a] sends a request and, unless it is the
    last one, waits [a + 1] seconds. *)
Definition backoff_step (product_id : string) (n a : nat) : list event :=
  Get product_id :: (if a <? n - 1 then [Sleep (a + 1)] else []).

Definition backoff_trace (product_id : string) (n : nat) : list event :=
  flat_map (backoff_step product_id n) (seq 0 n).

(** The identifiers requested, in the order of the requests. *)
Fixpoint requested (l : list event) : list string :=
  match l with
  | [] => []
  | Get p :: r => p :: requested r
  | Sleep _ :: r => requested r
  end.

(** The delays slept, in order. *)
Fixpoint delays (l : list event) : list nat :=
  match l with
  | [] => []
  | Sleep d :: r => d :: delays r
  | Get _ :: r => delays r
  end.

(** A token that looks like an HTTP status: digits only. *)
Definition is_digit (c : ascii) : bool :=
  let n := nat_of_ascii c in (48 <=? n) && (n <=? 57).

Fixpoint all_digits (s : string) : bool :=
  match s with
  | EmptyString => true
  | String c r => is_digit c && all_digits r
  end.

Definition status_like (tok : string) : bool :=
  negb (String.eqb tok "") && all_digits tok.

(** The classification in the words of the specification: the status-like
    token of the message when there is one, else TIMEOUT for a timeout,
    else ERROR. *)
Definition claimed_error_kind (message : string) : string :=
  match find status_like (PyStr.split message) with
  | Some tok => tok
  | None =>
      if PyStr.contains "timeout" (PyStr.lower message)
      then "TIMEOUT" else "ERROR"
  end.

(** The value stored under [field] in a normalised record. *)
Definition field (product_data : json) (k : string) : json :=
  match product_data with
  | JObj fields =>
      match Py.lookup_key k fields with Some v => v | None => JNull end
  | _ => JNull
  end.

Definition scalar_fields : list string :=
  ["id"; "name"; "url_key"; "price"; "description"].

(** Empty or absent, in the plain sense: no value, or a value without
    content. *)
Definition empty_or_absent (v : json) : bool :=
  match v with
  | JNull | JStr EmptyString | JArr [] | JObj [] => true
  | _ => false
  end.

(** Incomplete, in the words of the specification. *)
Definition claimed_incomplete (product_data : json) : bool :=
  existsb (fun k => empty_or_absent (field product_data k)) scalar_fields
  || TikiCrawler.len0 (field product_data "images").

(** Incomplete, as the crawler decides it: a field is also missing when it
    is the number 0 or [false]; [images] must be a list with an element. *)
Definition incomplete (product_data : json) : bool :=
  existsb (fun k => negb (Py.truthy (field product_data k))) scalar_fields
  || negb (TikiCrawler.is_list (field product_data "images"))
  || TikiCrawler.len0 (field product_data "images").

End Spec.

(** ** Vocabulary of the run-level properties *)

Module Inv.

(** The identifier and the error kind that the persistence code reads in a
    failure record. *)
Definition pid_of (r : json) : string :=
  match Py.get r "product_id" with
  | Ok (JStr s) => s
  | _ => ""
  end.

Definition code_of (r : json) : string :=
  match Py.get_default r "error_code" (JStr "UNKNOWN") with
  | Ok (JStr s) => s
  | _ => ""
  end.

(** A failure record whose identifier and error kind are strings. *)
Definition shaped (r : json) : Prop :=
  exists pid code,
    Py.get r "product_id" = Ok (JStr pid)
    /\ Py.get_default r "error_code" (JStr "UNKNOWN") = Ok (JStr code).

(** A failure record as [add_failure] builds it. *)
Definition fresh (r : json) : Prop :=
  exists pid code msg ts,
    pid <> "" /\ code <> ""
    /\ r = JObj [ ("product_id", JStr pid); ("error_code", JStr code);
                  ("error_message", JStr msg); ("timestamp", JStr ts) ].

(** What workers run for the identifiers [ids] do to the state: the files
    stay, requests go to identifiers of [ids] only, and the failure list
    grows by fresh records, at most one per identifier, in the order of
    [ids]. *)
Definition worked (ids : list string) (s s' : state) : Prop :=
  files s' = files s
  /\ (exists ev, log s' = log s ++ ev
                 /\ forall p, In p (Spec.requested ev) -> In p ids)
  /\ (exists new, failed_products (stats s') = failed_products (stats s) ++ new
                  /\ Forall fresh new
                  /\ map pid_of new `sublist_of` ids).

(** The records that lines 96-100 append for the content of one file. *)
Fixpoint replayed (failed_data : list json) : list json :=
  match failed_data with
  | [] => []
  | failed_item :: rest =>
      match Py.get_default failed_item "error_code" (JStr "UNKNOWN") with
      | Ok error_code =>
          if Py.hashable error_code then failed_item :: replayed rest else []
      | Raise _ => []
      end
  end.

Definition replayed_file (entry : string * file) : list json :=
  if Dir.is_failed_file (fst entry)
  then match snd entry with
       | Parsed data =>
           match Py.iter data with
           | Ok items => replayed items
           | Raise _ => []
           end
       | Unreadable => []
       end
  else [].

(** The failure history that a run replays from the partitions present
    at its start. *)
Definition history (d : dir) : list json := flat_map replayed_file d.

(** A well-formed partition for the kind [kind]: shaped records whose error
    kind is [kind] up to letter case, at most one per identifier. *)
Definition partition_ok (kind : string) (records : list json) : Prop :=
  Forall (fun r => shaped r /\ PyStr.lower (code_of r) = kind) records
  /\ NoDup (map pid_of records).

(** Every file of the folder has its own name, and every partition file is
    well formed. *)
Definition partitions_ok (d : dir) : Prop :=
  NoDup (map fst d)
  /\ forall name f,
       In (name, f) d -> Dir.is_failed_file name = true ->
       exists kind records,
         name = FileHandler.failed_file kind
         /\ f = Parsed (JArr records)
         /\ partition_ok kind records.

(** The folder after some batches were saved, each under a name that was
    free when it was written. *)
Inductive batch_writes : dir -> dir -> Prop :=
| bw_done (d : dir) : batch_writes d d
| bw_save (d d' : dir) (batch_index : nat) (products : list json) :
    Dir.lookup (FileHandler.batch_file batch_index) d = None ->
    batch_writes (FileHandler.save_batch products batch_index d) d' ->
    batch_writes d d'.

(** The state in which the batch loop of [crawl] starts. *)
Definition loaded (product_ids : list string) (s : state) : state :=
  set_stats (fun st => FileHandler.load_existing_results (files s) st
                         TikiCrawler.has_missing_fields)
    (set_stats (TikiCrawler.set_total
                  (length (DeduplicationUtils.deduplicate_list product_ids))) s).

(** The groups of lines 25-28 for the failure list [l]: each holds, in the
    order of [l], records of one error kind. *)
Definition grouped (l : list json) (groups : list (json * list json)) : Prop :=
  Forall (fun g =>
            exists code,
              fst g = JStr code
              /\ Forall (fun r => shaped r /\ code_of r = code) (snd g)
              /\ snd g `sublist_of` l)
         groups.

(** Every record of [records] is kept in the partition of its kind. *)
Definition holds (records : list json) (d : dir) : Prop :=
  forall r, In r records ->
    exists kept,
      Dir.lookup (FileHandler.failed_file (PyStr.lower (code_of r))) d
      = Some (Parsed (JArr kept))
      /\ In r kept.

(** The lists kept in [d] are kept in [d'], with records added at the end. *)
Definition extends (d d' : dir) : Prop :=
  forall name records,
    Dir.lookup name d = Some (Parsed (JArr records)) ->
    exists extra, Dir.lookup name d' = Some (Parsed (JArr (records ++ extra))).

(** A run of a fresh crawler over the folder [d], and the folder it
    leaves. *)
Definition run_once (d : dir) (r : env * config * list string) : dir :=
  files (fst (TikiCrawler.crawl (fst (fst r)) (snd (fst r)) (snd r)
                {| stats := CrawlStats.init; files := d; log := [] |})).

(** A sequence of runs over the same folder. *)
Definition run_all (runs : list (env * config * list string)) (d : dir) : dir :=
  fold_left run_once runs d.

(** Every request is answered with a well-formed OK response. *)
Definition all_ok (E : env) : Prop :=
  forall t product_id,
    exists data product_data,
      server E t product_id = Response 200 (Ok data)
      /\ TikiCrawler.product_data_of data = Ok product_data.

End Inv.

(** ** Vocabulary of the further properties *)

Module Ext.

Definition is_dict (v : json) : bool :=
  match v with JObj _ => true | _ => false end.

(** The identifier under which a persisted record counts as crawled:
    [str(product['id'])] when [product.get('id')] is truthy. *)
Definition crawled_id (E : env) (product : json) : option string :=
  match Py.get product "id" with
  | Ok id => if Py.truthy id then Some (Py.str E id) else None
  | Raise _ => None
  end.

(** The record [product] of [items] is reached by a loop that stops at the
    first item that is not a dict. *)
Definition reached (items : list json) (product : json) : Prop :=
  exists before after,
    items = before ++ product :: after /\ forallb is_dict before = true.

(** An attempt whose outcome is a timeout, of the request or of the reading
    of the body. *)
Definition times_out (o : outcome) : Prop :=
  match o with
  | Raises e => exn_kind e = TimeoutError
  | Response status (Raise e) => status = 200 /\ exn_kind e = TimeoutError
  | Response _ (Ok _) => False
  end.

(** A well-formed OK response: status 200 and a payload that is normalised
    into [product_data]. *)
Definition answers (o : outcome) (product_data : json) : Prop :=
  exists data,
    o = Response 200 (Ok data)
    /\ TikiCrawler.product_data_of data = Ok product_data.

(** An OK response whose payload cannot be normalised. *)
Definition malformed (o : outcome) : Prop :=
  exists data e,
    o = Response 200 (Ok data) /\ TikiCrawler.product_data_of data = Raise e.

(** The requests and sleeps of a worker that fails [k] times and then gets
    its record. *)
Definition retry_trace (product_id : string) (k : nat) : list event :=
  flat_map (fun a => [Get product_id; Sleep (a + 1)]) (seq 0 k)
  ++ [Get product_id].

(** The number of records classified incomplete. *)
Definition count_incomplete (products : list json) : nat :=
  length (List.filter Spec.incomplete products).

(** The batch starts of a run whose file is absent from the folder [d]. *)
Definition absent_starts (cfg : config) (d : dir) (starts : list nat) : list nat :=
  List.filter
    (fun start =>
       negb (Dir.exists_ (FileHandler.batch_file (start / batch_size cfg)) d))
    starts.

(** The tracker after [n] more successes, [m] of them incomplete. *)
Definition bump (n m : nat) (st : CrawlStats) : CrawlStats :=
  {| total_products := total_products st;
     completed := completed st + n;
     failed := failed st;
     error_codes := error_codes st;
     products_with_missing_fields := products_with_missing_fields st + m;
     failed_products := failed_products st |}.

(** The tracker [st'] counts, beyond [st], [n] more successes, [k] more
    failures and [m] more incomplete records, for the same total. *)
Definition counted (n k m : nat) (st st' : CrawlStats) : Prop :=
  completed st' = completed st + n
  /\ failed st' = failed st + k
  /\ products_with_missing_fields st' = products_with_missing_fields st + m
  /\ total_products st' = total_products st.

(** The server knows the products [ids]: every request for one of them is
    answered with a well-formed payload whose record counts as crawled
    under the identifier requested. *)
Definition echoes (E : env) (ids : list string) : Prop :=
  forall t product_id,
    In product_id ids ->
    exists data product_data,
      server E t product_id = Response 200 (Ok data)
      /\ TikiCrawler.product_data_of data = Ok product_data
      /\ crawled_id E product_data = Some product_id.

(** The replay of the batch files of a folder, lines 76-87. *)
Definition replay_batches (d : dir) (st : CrawlStats) : CrawlStats :=
  fold_left (FileHandler.load_file Dir.is_products_file
               (FileHandler.replay_products TikiCrawler.has_missing_fields))
            d st.

(** The exceptions that the normalisation of a payload raises: a value
    without [get], a description that is no string, images that cannot be
    iterated. *)
Definition payload_error (e : exn) : Prop :=
  exists v,
    e = Exn AttributeError
          ("'" ++ Py.type_name v ++ "' object has no attribute 'get'")
    \/ e = Exn TypeError
             ("expected string or bytes-like object, got '"
              ++ Py.type_name v ++ "'")
    \/ e = Exn TypeError ("'" ++ Py.type_name v ++ "' object is not iterable").

(** The key under which the audit files a record: [str] of its [id], or
    of ['unknown'] when it has none. *)
Definition audit_key (E : env) (product : json) : option string :=
  match Py.get_default product "id" (JStr "unknown") with
  | Ok id => Some (Py.str E id)
  | Raise _ => None
  end.

(** The keys of the records of a file that the audit reads: those before
    the first item that is not a dict. *)
Fixpoint audit_keys (E : env) (items : list json) : list string :=
  match items with
  | [] => []
  | product :: rest =>
      match audit_key E product with
      | Some key => key :: audit_keys E rest
      | None => []
      end
  end.

(** The records that the audit reads in a folder, each as its key and the
    name of its file, in the order of the reading. *)
Definition audited (E : env) (d : dir) : list (string * string) :=
  flat_map
    (fun entry : string * file =>
       if Dir.is_products_file (fst entry)
       then match snd entry with
            | Parsed data =>
                match Py.iter data with
                | Ok items =>
                    map (fun key => (key, fst entry)) (audit_keys E items)
                | Raise _ => []
                end
            | Unreadable => []
            end
       else [])
    d.

(** The files of the records read under [key], one per record. *)
Definition files_of (key : string) (read : list (string * string))
    : list string :=
  map snd (List.filter (fun r => String.eqb (fst r) key) read).

(** The files noted for [key] in [product_ids_seen]. *)
Definition seen_in (key : string)
    (product_ids_seen : list (string * list string)) : list string :=
  match find (fun e => String.eqb (fst e) key) product_ids_seen with
  | Some e => snd e
  | None => []
  end.

(** What the dict [product_ids_seen] holds once the records [read] are
    filed. *)
Definition filed (read : list (string * string))
    (product_ids_seen : list (string * list string)) : Prop :=
  NoDup (map fst product_ids_seen)
  /\ (forall e, In e product_ids_seen -> snd e <> [])
  /\ forall key, seen_in key product_ids_seen = files_of key read.

(** The record [product_data] is the normalisation of a payload that the
    server gave, at some time, for the identifier [product_id]. *)
Definition answered (E : env) (product_id : string) (product_data : json)
    : Prop :=
  exists t, answers (server E t product_id) product_data.

(** The identifiers whose worker returned a record, and those whose worker
    returned none; [chunk_results] holds the results of the workers of
    [ids], one for each identifier. *)
Fixpoint got_ids (ids : list string) (chunk_results : list (option json))
    : list string :=
  match ids, chunk_results with
  | p :: ids', Some _ :: rs => p :: got_ids ids' rs
  | _ :: ids', None :: rs => got_ids ids' rs
  | _, _ => []
  end.

Fixpoint lost_ids (ids : list string) (chunk_results : list (option json))
    : list string :=
  match ids, chunk_results with
  | _ :: ids', Some _ :: rs => lost_ids ids' rs
  | p :: ids', None :: rs => p :: lost_ids ids' rs
  | _, _ => []
  end.

(** [add_failure] keeps a record for an identifier that is not empty. *)
Definition recorded (product_id : string) : bool :=
  negb (String.eqb product_id "").

End Ext.

(** ** Concrete environments and inputs used as instances *)

Module Sample.

Definition clock (t : nat) : string := ("T" ++ PyStr.of_nat t)%string.

Definition no_repr (_ : json) : string := "?".

(** A server that answers every request with HTTP 500. *)
Definition env_500 : env :=
  {| server := fun _ _ => Response 500 (Raise (Exn OtherException "no body"));
     now := clock; repr := no_repr |}.

Definition product (id : json) (price : json) : json :=
  JObj [ ("id", id); ("name", JStr "Ao thun"); ("url_key", JStr "ao-thun");
         ("price", price); ("description", JStr "<p>Ao  thun</p>");
         ("images", JArr [JObj [("base_url", JStr "https://img/1.jpg")]]) ].

(** A server that knows every product; product 7 is free of charge and
    product 8 has no price. *)
Definition payload (product_id : string) : json :=
  if String.eqb product_id "7" then product (JNum 7) (JNum 0)
  else if String.eqb product_id "8" then product (JNum 8) JNull
  else product (JStr product_id) (JNum 120000).

Definition env_ok : env :=
  {| server := fun _ product_id => Response 200 (Ok (payload product_id));
     now := clock; repr := no_repr |}.

Definition cfg3 : config :=
  {| batch_size := 2; concurrent_requests := 1; max_retries := 3 |}.

Definition start : state :=
  {| stats := CrawlStats.init; files := []; log := [] |}.

(** A folder left by an earlier run that fetched the products 1 and 2. *)
Definition done_12 : dir :=
  [ ("products_1.json",
     Parsed (JArr [product (JStr "1") (JNum 120000);
                   product (JStr "2") (JNum 120000)])) ].

Definition resumed : state :=
  {| stats := CrawlStats.init; files := done_12; log := [] |}.

(** A folder left by an earlier run in which product 9 failed with
    HTTP 500. *)
Definition old_failure : json :=
  JObj [ ("product_id", JStr "9"); ("error_code", JStr "500");
         ("error_message", JStr "HTTP 500"); ("timestamp", JStr "earlier") ].

Definition failed_9 : dir :=
  [ ("failed_500.json", Parsed (JArr [old_failure]));
    ("all_failed_products.json", Parsed (JArr [old_failure])) ].

(** The record of a failure of product 42 with HTTP 500, after three
    attempts. *)
Definition new_failure : json :=
  CrawlStats.failure_record (Some "500") (Some "42") (Some "HTTP 500") (clock 5).

Definition after_failure : state :=
  {| stats := CrawlStats.init; files := failed_9; log := [] |}.

(** A server whose every answer times out. *)
Definition env_slow : env :=
  {| server := fun _ _ => Raises (Exn TimeoutError "");
     now := clock; repr := no_repr |}.

(** A server that fails twice, with a 503 and a timeout, before it answers:
    a worker sends its requests when 0, 2 and 4 events have happened. *)
Definition env_flaky : env :=
  {| server := fun t product_id =>
       if t <? 2 then Response 503 (Raise (Exn OtherException "no body"))
       else if t <? 4 then Raises (Exn TimeoutError "")
       else Response 200 (Ok (payload product_id));
     now := clock; repr := no_repr |}.

(** A server that answers every request with the JSON text [null]. *)
Definition env_null : env :=
  {| server := fun _ _ => Response 200 (Ok JNull);
     now := clock; repr := no_repr |}.

(** Two runs that meet the failing products 9 and 42 again. *)
Definition two_runs : list (env * config * list string) :=
  [ (env_500, cfg3, ["42"; "9"]); (env_500, cfg3, ["9"; "42"; "42"]) ].

End Sample.

(** ** Proof automation *)

(** Goes through a chain of [let*] in the hypothesis [H] that ends in [Ok]:
    every step of the chain returned. *)
Ltac bind_ok H :=
  repeat match type of H with
         | bind ?c _ = _ => destruct c; cbn [bind] in H; [| discriminate]
         end.

(** * Properties *)

(** ** Sanity checks of the string primitives *)

Example split_http : PyStr.split "HTTP 500" = ["HTTP"; "500"].
Proof. reflexivity. Qed.
Example sub_tags_ex : PyStr.sub_tags 0 "<p>a <b>b</b><> c</p> < d" = "a b<> c < d".
Proof. reflexivity. Qed.
Example sub_spaces_ex : PyStr.strip (PyStr.sub_spaces false "  a 	 b  ") = "a b".
Proof. reflexivity. Qed.
Example ends_ex : PyStr.endswith "products_12.json" ".json" = true.
Proof. reflexivity. Qed.
Example of_Z_ex : PyStr.of_Z (-120) = "-120" /\ PyStr.of_nat 0 = "0".
Proof. split; reflexivity. Qed.

(** ** Strings *)

Section StringFacts.

Lemma append_nil_r (s : string) : (s ++ "")%string = s.
Proof. induction s as [|c s IH]; simpl; [reflexivity | now rewrite IH]. Qed.

Lemma append_assoc (a b c : string) :
  ((a ++ b) ++ c)%string = (a ++ (b ++ c))%string.
Proof. induction a as [|x a IH]; simpl; [reflexivity | now rewrite IH]. Qed.

Lemma rev_append (a b : string) :
  PyStr.rev (a ++ b) = (PyStr.rev b ++ PyStr.rev a)%string.
Proof.
  induction a as [|x a IH]; simpl.
  - now rewrite append_nil_r.
  - now rewrite IH, append_assoc.
Qed.

Lemma rev_involutive (s : string) : PyStr.rev (PyStr.rev s) = s.
Proof.
  induction s as [|c s IH]; simpl; [reflexivity |].
  now rewrite rev_append, IH.
Qed.

Lemma rev_eq_empty (s : string) : PyStr.rev s = "" -> s = "".
Proof.
  intros H. rewrite <- (rev_involutive s), H. reflexivity.
Qed.

(** [lstrip] keeps a suffix, [rstrip] a prefix. *)
Lemma lstrip_suffix (s : string) : exists p, s = (p ++ PyStr.lstrip s)%string.
Proof.
  induction s as [|c s [p Hp]]; simpl.
  - now exists "".
  - destruct (PyStr.is_space c).
    + exists (String c p). simpl. now rewrite <- Hp.
    + now exists "".
Qed.

Lemma rstrip_prefix (s : string) : exists q, s = (PyStr.rstrip s ++ q)%string.
Proof.
  unfold PyStr.rstrip.
  destruct (lstrip_suffix (PyStr.rev s)) as [p Hp].
  exists (PyStr.rev p).
  rewrite <- rev_append, <- Hp. now rewrite rev_involutive.
Qed.

Lemma lstrip_no_leading (s : string) :
  Spec.leading_space (PyStr.lstrip s) = false.
Proof.
  induction s as [|c s IH]; simpl; [reflexivity |].
  destruct (PyStr.is_space c) eqn:Hc; [exact IH | simpl; exact Hc].
Qed.

Lemma leading_space_prefix (a q : string) :
  Spec.leading_space (a ++ q) = false -> Spec.leading_space a = false.
Proof. destruct a; simpl; auto. Qed.

Lemma double_space_suffix (p s : string) :
  Spec.double_space (p ++ s) = false -> Spec.double_space s = false.
Proof.
  induction p as [|c p IH]; simpl; [auto |].
  intros H. apply orb_false_iff in H. tauto.
Qed.

Lemma double_space_prefix (s q : string) :
  Spec.double_space (s ++ q) = false -> Spec.double_space s = false.
Proof.
  induction s as [|c s IH]; simpl; [auto |].
  intros H. apply orb_false_iff in H. destruct H as [H1 H2].
  rewrite (IH H2), orb_false_r.
  apply andb_false_iff in H1. destruct H1 as [H1 | H1].
  - now rewrite H1.
  - rewrite (leading_space_prefix _ _ H1). apply andb_false_r.
Qed.

(** After [re.sub(r"\s+", " ", _)] no two whitespace characters touch. *)
Lemma sub_spaces_shape (s : string) (in_run : bool) :
  Spec.double_space (PyStr.sub_spaces in_run s) = false
  /\ (in_run = true -> Spec.leading_space (PyStr.sub_spaces in_run s) = false).
Proof.
  revert in_run. induction s as [|c s IH]; intros in_run; simpl.
  - auto.
  - destruct (PyStr.is_space c) eqn:Hc.
    + destruct in_run.
      * apply IH.
      * split; [| discriminate]. simpl.
        destruct (IH true) as [H1 H2]. rewrite H1, (H2 eq_refl). reflexivity.
    + simpl. rewrite Hc. simpl. split; [apply IH | reflexivity].
Qed.

Lemma strip_shape (s : string) :
  Spec.double_space s = false ->
  Spec.leading_space (PyStr.strip s) = false
  /\ Spec.trailing_space (PyStr.strip s) = false
  /\ Spec.double_space (PyStr.strip s) = false.
Proof.
  intros Hd. unfold PyStr.strip.
  destruct (lstrip_suffix s) as [p Hp].
  destruct (rstrip_prefix (PyStr.lstrip s)) as [q Hq].
  repeat split.
  - apply (leading_space_prefix _ q). rewrite <- Hq. apply lstrip_no_leading.
  - unfold Spec.trailing_space, PyStr.rstrip.
    rewrite rev_involutive. apply lstrip_no_leading.
  - apply (double_space_prefix _ q). rewrite <- Hq.
    apply (double_space_suffix p). now rewrite <- Hp.
Qed.

End StringFacts.

(** ** Texts over any alphabet *)

Section TextFacts.

Variable char : Type.
Variable is_space : char -> bool.
Variable is_lt is_gt : char -> bool.
Variable space : char.

Lemma text_lstrip_suffix (s : list char) :
  exists p, s = p ++ PyText.lstrip is_space s.
Proof.
  induction s as [|c s [p Hp]]; cbn [PyText.lstrip].
  - now exists [].
  - destruct (is_space c).
    + exists (c :: p). cbn [app]. now rewrite <- Hp.
    + now exists [].
Qed.

Lemma text_rstrip_prefix (s : list char) :
  exists q, s = PyText.rstrip is_space s ++ q.
Proof.
  unfold PyText.rstrip.
  destruct (text_lstrip_suffix (List.rev s)) as [p Hp].
  exists (List.rev p).
  rewrite <- rev_app_distr, <- Hp. now rewrite List.rev_involutive.
Qed.

Lemma text_lstrip_no_leading (s : list char) :
  PyText.leading_space is_space (PyText.lstrip is_space s) = false.
Proof.
  induction s as [|c s IH]; cbn [PyText.lstrip]; [reflexivity |].
  destruct (is_space c) eqn:Hc;
    [exact IH | cbn [PyText.leading_space]; exact Hc].
Qed.

Lemma text_leading_prefix (a q : list char) :
  PyText.leading_space is_space (a ++ q) = false ->
  PyText.leading_space is_space a = false.
Proof. destruct a; cbn [app PyText.leading_space]; auto. Qed.

Lemma text_doubled_suffix (p s : list char) :
  PyText.double_space is_space (p ++ s) = false ->
  PyText.double_space is_space s = false.
Proof.
  induction p as [|c p IH]; cbn [app PyText.double_space]; [auto |].
  intros H. apply orb_false_iff in H. tauto.
Qed.

Lemma text_doubled_prefix (s q : list char) :
  PyText.double_space is_space (s ++ q) = false ->
  PyText.double_space is_space s = false.
Proof.
  induction s as [|c s IH]; cbn [app PyText.double_space]; [auto |].
  intros H. apply orb_false_iff in H. destruct H as [H1 H2].
  rewrite (IH H2), orb_false_r.
  apply andb_false_iff in H1. destruct H1 as [H1 | H1].
  - now rewrite H1.
  - rewrite (text_leading_prefix _ _ H1). apply andb_false_r.
Qed.

(** After [re.sub(r"\s+", " ", _)] no two whitespace characters touch. *)
Lemma text_sub_spaces_shape (s : list char) (in_run : bool) :
  PyText.double_space is_space (PyText.sub_spaces is_space space in_run s)
  = false
  /\ (in_run = true ->
      PyText.leading_space is_space (PyText.sub_spaces is_space space in_run s)
      = false).
Proof.
  revert in_run. induction s as [|c s IH]; intros in_run;
    cbn [PyText.sub_spaces].
  - auto.
  - destruct (is_space c) eqn:Hc.
    + destruct in_run.
      * apply IH.
      * split; [| discriminate]. cbn [PyText.double_space].
        destruct (IH true) as [H1 H2]. rewrite H1, (H2 eq_refl).
        now rewrite andb_false_r.
    + cbn [PyText.double_space PyText.leading_space]. rewrite Hc.
      split; [apply IH | reflexivity].
Qed.

Lemma text_strip_shape (s : list char) :
  PyText.double_space is_space s = false ->
  PyText.leading_space is_space (PyText.strip is_space s) = false
  /\ PyText.trailing_space is_space (PyText.strip is_space s) = false
  /\ PyText.double_space is_space (PyText.strip is_space s) = false.
Proof.
  intros Hd. unfold PyText.strip.
  destruct (text_lstrip_suffix s) as [p Hp].
  destruct (text_rstrip_prefix (PyText.lstrip is_space s)) as [q Hq].
  repeat split.
  - apply (text_leading_prefix _ q). rewrite <- Hq.
    apply text_lstrip_no_leading.
  - unfold PyText.trailing_space, PyText.rstrip.
    rewrite List.rev_involutive. apply text_lstrip_no_leading.
  - apply (text_doubled_prefix _ q). rewrite <- Hq.
    apply (text_doubled_suffix p). now rewrite <- Hp.
Qed.

Lemma text_clean_shape (text : list char) :
  PyText.leading_space is_space
    (PyText.clean_description is_space is_lt is_gt space text) = false
  /\ PyText.trailing_space is_space
       (PyText.clean_description is_space is_lt is_gt space text) = false
  /\ PyText.double_space is_space
       (PyText.clean_description is_space is_lt is_gt space text) = false.
Proof.
  destruct text as [|c r]; [repeat split |].
  apply text_strip_shape, text_sub_spaces_shape.
Qed.

End TextFacts.

(** ** The strings of the model are texts *)

Section Codes.

Lemma is_space_code (c : ascii) :
  Unicode.is_space (N_of_ascii c) = PyStr.is_space c.
Proof. destruct c as [[] [] [] [] [] [] [] []]; reflexivity. Qed.

Lemma is_gt_code (c : ascii) :
  N.eqb 62 (N_of_ascii c) = Ascii.eqb c ">"%char.
Proof. destruct c as [[] [] [] [] [] [] [] []]; reflexivity. Qed.

Lemma is_lt_code (c : ascii) :
  N.eqb 60 (N_of_ascii c) = Ascii.eqb c "<"%char.
Proof. destruct c as [[] [] [] [] [] [] [] []]; reflexivity. Qed.

Lemma codes_append (a b : string) :
  Unicode.codes (a ++ b) = Unicode.codes a ++ Unicode.codes b.
Proof.
  unfold Unicode.codes.
  induction a as [|c a IH]; cbn [String.append list_ascii_of_string map app];
    [reflexivity | now rewrite IH].
Qed.

Lemma codes_rev (s : string) :
  Unicode.codes (PyStr.rev s) = List.rev (Unicode.codes s).
Proof.
  induction s as [|c s IH]; [reflexivity |].
  cbn [PyStr.rev]. rewrite codes_append, IH. reflexivity.
Qed.

Lemma codes_lstrip (s : string) :
  Unicode.codes (PyStr.lstrip s)
  = PyText.lstrip Unicode.is_space (Unicode.codes s).
Proof.
  induction s as [|c s IH]; [reflexivity |].
  cbn [PyStr.lstrip]. unfold Unicode.codes.
  cbn [list_ascii_of_string map PyText.lstrip].
  rewrite is_space_code. destruct (PyStr.is_space c); [exact IH | reflexivity].
Qed.

Lemma codes_strip (s : string) :
  Unicode.codes (PyStr.strip s)
  = PyText.strip Unicode.is_space (Unicode.codes s).
Proof.
  unfold PyStr.strip, PyStr.rstrip, PyText.strip, PyText.rstrip.
  now rewrite codes_rev, codes_lstrip, codes_rev, codes_lstrip.
Qed.

Lemma codes_sub_spaces (s : string) (in_run : bool) :
  Unicode.codes (PyStr.sub_spaces in_run s)
  = PyText.sub_spaces Unicode.is_space 32%N in_run (Unicode.codes s).
Proof.
  revert in_run. induction s as [|c s IH]; intros in_run; [reflexivity |].
  cbn [PyStr.sub_spaces]. unfold Unicode.codes in *.
  cbn [list_ascii_of_string map PyText.sub_spaces].
  rewrite is_space_code.
  destruct (PyStr.is_space c); [destruct in_run |];
    cbn [list_ascii_of_string map]; now rewrite ?IH.
Qed.

Lemma codes_until_gt (s : string) :
  PyText.until_gt (N.eqb 62) (Unicode.codes s) = PyStr.until_gt s.
Proof.
  unfold Unicode.codes.
  induction s as [|c s IH]; [reflexivity |].
  cbn [list_ascii_of_string map PyText.until_gt PyStr.until_gt].
  now rewrite is_gt_code, IH.
Qed.

Lemma codes_sub_tags (s : string) (skip : nat) :
  Unicode.codes (PyStr.sub_tags skip s)
  = PyText.sub_tags (N.eqb 60) (N.eqb 62) skip (Unicode.codes s).
Proof.
  revert skip. induction s as [|c s IH]; intros skip; [reflexivity |].
  cbn [PyStr.sub_tags].
  change (Unicode.codes (String c s)) with (N_of_ascii c :: Unicode.codes s).
  cbn [PyText.sub_tags].
  destruct skip as [|k]; [| apply IH].
  unfold PyText.tag_len, PyStr.tag_len.
  rewrite is_lt_code, codes_until_gt.
  destruct (Ascii.eqb c "<"%char).
  - destruct (PyStr.until_gt s) as [[|n] |];
      [| apply IH |];
      change (Unicode.codes (String c ?r)) with (N_of_ascii c :: Unicode.codes r);
      now rewrite IH.
  - change (Unicode.codes (String c ?r)) with (N_of_ascii c :: Unicode.codes r).
    now rewrite IH.
Qed.

Lemma codes_shape (s : string) :
  Unicode.leading_space (Unicode.codes s) = Spec.leading_space s
  /\ Unicode.double_space (Unicode.codes s) = Spec.double_space s.
Proof.
  unfold Unicode.leading_space, Unicode.double_space.
  induction s as [|c s [IH1 IH2]]; [split; reflexivity |].
  change (Unicode.codes (String c s)) with (N_of_ascii c :: Unicode.codes s).
  cbn [PyText.leading_space PyText.double_space Spec.leading_space
       Spec.double_space].
  rewrite is_space_code, IH1, IH2. split; reflexivity.
Qed.

End Codes.

(** ** clean_description *)

(** C10, as the code has it.  [clean_description] returns the empty string
    for [None], for the empty string and for every other falsy value; it
    raises [TypeError] for a truthy value that is no string; and for every
    string it returns a string that neither starts nor ends with
    whitespace and in which no two whitespace characters are adjacent.
    The last part holds for a [str] of any Unicode code points, with the
    whitespace of [str.isspace]; on the strings of the model, whose
    characters are the code points 0..255, the function is the same one. *)
Theorem clean_description_normalised :
  (forall text : json,
     Py.truthy text = false -> TikiCrawler.clean_description text = Ok "")
  /\ (forall text : json,
        Py.truthy text = true -> (forall s, text <> JStr s) ->
        exists e,
          TikiCrawler.clean_description text = Raise e
          /\ exn_kind e = TypeError)
  /\ (forall text : Unicode.text,
        (text = [] -> Unicode.clean_description text = [])
        /\ Unicode.leading_space (Unicode.clean_description text) = false
        /\ Unicode.trailing_space (Unicode.clean_description text) = false
        /\ Unicode.double_space (Unicode.clean_description text) = false)
  /\ (forall text : string,
        exists out : string,
          TikiCrawler.clean_description (JStr text) = Ok out
          /\ Unicode.codes out
             = Unicode.clean_description (Unicode.codes text)
          /\ Spec.leading_space out = false
          /\ Spec.trailing_space out = false
          /\ Spec.double_space out = false).
Proof.
  split; [| split; [| split]].
  - intros text Hf. unfold TikiCrawler.clean_description. now rewrite Hf.
  - intros text Ht Hs. unfold TikiCrawler.clean_description. rewrite Ht.
    cbn [negb]. destruct text; try (eexists; split; reflexivity).
    now destruct (Hs s).
  - intros text. split; [now intros -> |].
    apply (text_clean_shape N Unicode.is_space (N.eqb 60) (N.eqb 62) 32%N).
  - intros text. unfold TikiCrawler.clean_description.
    destruct text as [|c r].
    + exists "". repeat split; reflexivity.
    + cbn [Py.truthy String.eqb negb].
      eexists. split; [reflexivity |]. split.
      * rewrite codes_strip, codes_sub_spaces, codes_sub_tags. reflexivity.
      * apply strip_shape. apply sub_spaces_shape.
Qed.

Lemma clean_description_normalised_witness :
  TikiCrawler.clean_description (JNum 0) = Ok ""
  /\ (exists e,
        TikiCrawler.clean_description (JArr [JStr "<p>a</p>"]) = Raise e
        /\ exn_kind e = TypeError)
  /\ Unicode.trailing_space
       (Unicode.clean_description [60; 112; 62; 7842; 111; 12288]%N) = false.
Proof.
  destruct clean_description_normalised as [Hfalsy [Hraise [Htext _]]].
  split; [apply Hfalsy; reflexivity |].
  split; [apply Hraise; [reflexivity | discriminate] |].
  apply Htext.
Defined.

(** C10 as stated fails for an input that is neither [None] nor a string:
    for the number 5 no string is returned, [re.sub] raises [TypeError]. *)
Lemma clean_description_of_number :
  TikiCrawler.clean_description (JNum 5)
  = Raise (Exn TypeError "expected string or bytes-like object, got 'int'")
  /\ forall out : string, TikiCrawler.clean_description (JNum 5) <> Ok out.
Proof. split; [reflexivity | discriminate]. Qed.

(** ** Decimal numerals and [split] *)

Section TokenFacts.

Lemma digit_not_space (c : ascii) :
  Spec.is_digit c = true -> PyStr.is_space c = false.
Proof.
  unfold Spec.is_digit, PyStr.is_space.
  generalize (nat_of_ascii c). intros n H.
  apply andb_true_iff in H. destruct H as [H1 H2].
  apply Nat.leb_le in H1. apply Nat.leb_le in H2.
  repeat match goal with
         | |- context [?a <=? ?b] => destruct (Nat.leb_spec a b)
         | |- context [?a =? ?b] => destruct (Nat.eqb_spec a b)
         end; simpl; try reflexivity; lia.
Qed.

Lemma string_of_uint_digits (d : Decimal.uint) :
  Spec.all_digits (NilEmpty.string_of_uint d) = true.
Proof. induction d; simpl; auto. Qed.

Lemma of_nat_digits (n : nat) : Spec.all_digits (PyStr.of_nat n) = true.
Proof. apply string_of_uint_digits. Qed.

Lemma of_nat_nonempty (n : nat) : PyStr.of_nat n <> "".
Proof.
  unfold PyStr.of_nat. intros H.
  assert (Hn : Nat.to_uint n <> Decimal.Nil).
  { rewrite <- (DecimalNat.Unsigned.of_to n) at 1.
    rewrite DecimalNat.Unsigned.to_of. apply DecimalFacts.unorm_nonnil. }
  destruct (Nat.to_uint n); simpl in H; congruence.
Qed.

Lemma of_nat_inj (n m : nat) : PyStr.of_nat n = PyStr.of_nat m -> n = m.
Proof.
  unfold PyStr.of_nat. intros H.
  apply DecimalNat.Unsigned.to_uint_inj.
  assert (Some (Nat.to_uint n) = Some (Nat.to_uint m)) as Hs.
  { rewrite <- !NilEmpty.usu. now rewrite H. }
  congruence.
Qed.

(** A run of digits is read as part of one token. *)
Lemma split_from_digits (tok : string) :
  Spec.all_digits tok = true ->
  forall cur rest,
    PyStr.split_from cur (tok ++ rest)
    = PyStr.split_from (PyStr.rev tok ++ cur) rest.
Proof.
  induction tok as [|c tok IH]; intros Hd cur rest; simpl in *.
  - reflexivity.
  - apply andb_true_iff in Hd. destruct Hd as [Hc Hd].
    rewrite (digit_not_space c Hc), (IH Hd), append_assoc. reflexivity.
Qed.

Lemma split_http_status (status : nat) :
  PyStr.split ("HTTP " ++ PyStr.of_nat status) = ["HTTP"; PyStr.of_nat status].
Proof.
  unfold PyStr.split. cbn -[PyStr.of_nat].
  f_equal.
  rewrite <- (append_nil_r (PyStr.of_nat status)) at 1.
  rewrite (split_from_digits _ (of_nat_digits status)), append_nil_r.
  simpl. destruct (PyStr.rev (PyStr.of_nat status)) eqn:Hr.
  - apply rev_eq_empty in Hr. now apply of_nat_nonempty in Hr.
  - rewrite <- Hr, rev_involutive. reflexivity.
Qed.

(** No token of [split] is empty. *)
Lemma split_from_nonempty (s cur : string) :
  Forall (fun tok => tok <> "") (PyStr.split_from cur s).
Proof.
  revert cur. induction s as [|c s IH]; intros cur; simpl.
  - destruct cur; constructor; [| constructor].
    intros H. apply rev_eq_empty in H. discriminate.
  - destruct (PyStr.is_space c); [| apply IH].
    destruct cur; [apply IH |]. constructor; [| apply IH].
    intros H. apply rev_eq_empty in H. discriminate.
Qed.

End TokenFacts.

(** ** The error taxonomy *)

Lemma error_code_of_total (last_error : option string) :
  exists code, TikiCrawler.error_code_of last_error = Ok code /\ code <> "".
Proof.
  unfold TikiCrawler.error_code_of. destruct last_error as [m|].
  - destruct (PyStr.contains "HTTP" m).
    + eexists. split; [reflexivity |].
      destruct (1 <? length (PyStr.split m)) eqn:Hl; [| discriminate].
      apply Nat.ltb_lt in Hl.
      pose proof (split_from_nonempty m "") as Hall.
      rewrite List.Forall_forall in Hall. apply Hall. apply nth_In. exact Hl.
    + destruct (PyStr.contains "timeout" (PyStr.lower m));
        eexists; (split; [reflexivity | discriminate]).
  - exists "ERROR". split; [reflexivity | discriminate].
Qed.

(** The message of a non-OK response is classified by its status. *)
Lemma error_code_of_status (status : nat) :
  TikiCrawler.error_code_of (Some ("HTTP " ++ PyStr.of_nat status)%string)
  = Ok (PyStr.of_nat status).
Proof.
  unfold TikiCrawler.error_code_of.
  assert (PyStr.contains "HTTP" ("HTTP " ++ PyStr.of_nat status) = true) as ->
    by reflexivity.
  now rewrite split_http_status.
Qed.

(** C5, as the code has it.  Without an error ([max_retries = 0]) the kind is
    ERROR.  For an error message [m]: when [m] contains ["HTTP"] the kind is
    the second whitespace-separated token of [m], or HTTP_ERROR when [m] has
    no second token; otherwise it is TIMEOUT when [m] contains ["timeout"]
    in any letter case, and ERROR in the remaining case. *)
Theorem error_code_of_cases :
  TikiCrawler.error_code_of None = Ok "ERROR"
  /\ forall m : string,
       (PyStr.contains "HTTP" m = true ->
        forall first tok rest, PyStr.split m = first :: tok :: rest ->
          TikiCrawler.error_code_of (Some m) = Ok tok)
       /\ (PyStr.contains "HTTP" m = true ->
           length (PyStr.split m) <= 1 ->
           TikiCrawler.error_code_of (Some m) = Ok "HTTP_ERROR")
       /\ (PyStr.contains "HTTP" m = false ->
           PyStr.contains "timeout" (PyStr.lower m) = true ->
           TikiCrawler.error_code_of (Some m) = Ok "TIMEOUT")
       /\ (PyStr.contains "HTTP" m = false ->
           PyStr.contains "timeout" (PyStr.lower m) = false ->
           TikiCrawler.error_code_of (Some m) = Ok "ERROR").
Proof.
  split; [reflexivity |].
  intros m. unfold TikiCrawler.error_code_of. repeat split.
  - intros H first tok rest Hs. rewrite H, Hs. reflexivity.
  - intros H Hl. rewrite H.
    destruct (1 <? length (PyStr.split m)) eqn:Hlt; [| reflexivity].
    apply Nat.ltb_lt in Hlt. lia.
  - intros H Ht. now rewrite H, Ht.
  - intros H Ht. now rewrite H, Ht.
Qed.

Lemma error_code_of_cases_witness :
  TikiCrawler.error_code_of (Some "HTTP 500") = Ok "500"
  /\ TikiCrawler.error_code_of (Some "HTTP") = Ok "HTTP_ERROR"
  /\ TikiCrawler.error_code_of (Some "Request timeout") = Ok "TIMEOUT"
  /\ TikiCrawler.error_code_of (Some "Connection reset") = Ok "ERROR".
Proof.
  split; [| split; [| split]].
  - apply (proj1 (proj2 error_code_of_cases "HTTP 500") eq_refl "HTTP" "500" []).
    reflexivity.
  - apply (proj1 (proj2 (proj2 error_code_of_cases "HTTP"))); [reflexivity |].
    simpl. lia.
  - apply (proj1 (proj2 (proj2 (proj2 error_code_of_cases "Request timeout"))));
      reflexivity.
  - apply (proj2 (proj2 (proj2 (proj2 error_code_of_cases "Connection reset"))));
      reflexivity.
Defined.

(** C5 as stated fails: the message ["HTTP"] carries no status token and
    tells of no timeout, yet its kind is HTTP_ERROR and not ERROR; and the
    kind of a message that merely mentions HTTP is its second word. *)
Lemma error_code_of_http_error :
  TikiCrawler.error_code_of (Some "HTTP") = Ok "HTTP_ERROR"
  /\ Spec.claimed_error_kind "HTTP" = "ERROR"
  /\ TikiCrawler.error_code_of (Some "HTTP")
     <> Ok (Spec.claimed_error_kind "HTTP")
  /\ TikiCrawler.error_code_of (Some "Bad HTTP message") = Ok "HTTP"
  /\ Spec.claimed_error_kind "Bad HTTP message" = "ERROR".
Proof.
  split; [reflexivity |]. split; [reflexivity |].
  split; [discriminate |]. split; reflexivity.
Qed.

(** ** The fetch worker *)

Section Worker.

Variable E : env.

Lemma requested_app (l1 l2 : list event) :
  Spec.requested (l1 ++ l2) = Spec.requested l1 ++ Spec.requested l2.
Proof.
  induction l1 as [|[p|d] l1 IH]; simpl; [reflexivity | now rewrite IH | exact IH].
Qed.

Lemma delays_app (l1 l2 : list event) :
  Spec.delays (l1 ++ l2) = Spec.delays l1 ++ Spec.delays l2.
Proof.
  induction l1 as [|[p|d] l1 IH]; simpl; [reflexivity | exact IH | now rewrite IH].
Qed.

(** A worker whose attempts all fail sends one request per attempt ... *)
Lemma backoff_requests (product_id : string) (n : nat) (l : list nat) :
  Spec.requested (flat_map (Spec.backoff_step product_id n) l)
  = repeat product_id (length l).
Proof.
  induction l as [|a l IH]; simpl; [reflexivity |].
  rewrite requested_app, IH. now destruct (a <? n - 1).
Qed.

(** ... and sleeps 1, 2, ..., n - 1 seconds, never after the last attempt. *)
Lemma backoff_delays (product_id : string) (n k a : nat) :
  a + k = n ->
  Spec.delays (flat_map (Spec.backoff_step product_id n) (seq a k))
  = seq (a + 1) (k - 1).
Proof.
  revert a. induction k as [|k IH]; intros a Hn; [reflexivity |].
  cbn [seq flat_map Spec.backoff_step app Spec.delays].
  rewrite delays_app, (IH (S a)) by lia.
  destruct (Nat.ltb_spec a (n - 1)) as [Hlt | Hge]; simpl.
  - destruct k as [|k]; [lia |]. simpl. rewrite Nat.sub_0_r.
    now replace (S a + 1) with (S (a + 1)) by lia.
  - destruct k as [|k]; [reflexivity | lia].
Qed.

Variable product_id : string.
Variable retries : nat.

(** The retry loop when the server answers every request with the same
    non-OK status. *)
Lemma attempts_non_ok (status : nat) :
  status <> 200 ->
  (forall t, exists body, server E t product_id = Response status body) ->
  forall todo attempt last_error s,
    let s' := {| stats := stats s; files := files s;
                 log := log s ++ flat_map (Spec.backoff_step product_id retries)
                                   (seq attempt todo) |} in
    let last := match todo with
                | O => last_error
                | S _ => Some ("HTTP " ++ PyStr.of_nat status)%string
                end in
    TikiCrawler.attempts E retries product_id todo attempt last_error s
    = (let* error_code := TikiCrawler.error_code_of last in
       Ok (None,
           set_stats (CrawlStats.add_failure (Some error_code) (Some product_id)
                        last (now E (length (log s')))) s')).
Proof.
  intros Hst Hsrv todo.
  induction todo as [|todo IH]; intros attempt last_error s; cbn zeta.
  - cbn [seq flat_map TikiCrawler.attempts]. rewrite app_nil_r.
    destruct s; reflexivity.
  - cbn [TikiCrawler.attempts].
    destruct (Hsrv (length (log s))) as [body ->].
    cbn [TikiCrawler.attempt_once].
    destruct (Nat.eqb_spec status 200) as [|_]; [contradiction |].
    rewrite IH. cbn zeta.
    assert (Hlast :
      match todo with
      | O => Some ("HTTP " ++ PyStr.of_nat status)%string
      | S _ => Some ("HTTP " ++ PyStr.of_nat status)%string
      end = Some ("HTTP " ++ PyStr.of_nat status)%string) by now destruct todo.
    rewrite Hlast.
    cbn [seq flat_map].
    change (Spec.backoff_step product_id retries attempt)
      with (Get product_id
            :: (if attempt <? retries - 1 then [Sleep (attempt + 1)] else [])).
    rewrite Nat.mul_1_l.
    replace (attempt + 1) with (S attempt) by lia.
    destruct (attempt <? retries - 1); cbn [emit stats files log app];
      rewrite <- ?app_assoc; reflexivity.
Qed.

(** The loop never raises, and it touches the tracker once, at its end. *)
Lemma attempts_outcome :
  forall todo attempt last_error s,
  exists r s',
    TikiCrawler.attempts E retries product_id todo attempt last_error s
    = Ok (r, s')
    /\ files s' = files s
    /\ match r with
       | Some product_data =>
           exists data missing,
             TikiCrawler.product_data_of data = Ok product_data
             /\ TikiCrawler.has_missing_fields product_data = Ok missing
             /\ stats s'
                = CrawlStats.add_success
                    (if missing
                     then CrawlStats.add_missing_fields (stats s) else stats s)
       | None =>
           exists error_code last,
             error_code <> ""
             /\ TikiCrawler.error_code_of last = Ok error_code
             /\ stats s'
                = CrawlStats.add_failure (Some error_code) (Some product_id)
                    last (now E (length (log s'))) (stats s)
       end.
Proof.
  induction todo as [|todo IH]; intros attempt last_error s.
  - cbn [TikiCrawler.attempts].
    destruct (error_code_of_total last_error) as [code [Hc Hne]].
    rewrite Hc. cbn [bind]. eexists _, _. split; [reflexivity |].
    split; [reflexivity |]. exists code, last_error. auto.
  - cbn [TikiCrawler.attempts].
    destruct (TikiCrawler.attempt_once _) as [pd missing | err] eqn:Ho.
    + eexists _, _. split; [reflexivity |].
      split; [now destruct missing |].
      unfold TikiCrawler.attempt_once in Ho.
      destruct (server E _ _) as [e | status body].
      { unfold TikiCrawler.handler in Ho. destruct (exn_kind e); discriminate. }
      destruct (status =? 200); [| discriminate].
      destruct body as [data | e]; cbn [bind] in Ho.
      2:{ unfold TikiCrawler.handler in Ho. destruct (exn_kind e); discriminate. }
      destruct (TikiCrawler.product_data_of data) as [pd' | e] eqn:Hpd;
        cbn [bind] in Ho.
      2:{ unfold TikiCrawler.handler in Ho. destruct (exn_kind e); discriminate. }
      destruct (TikiCrawler.has_missing_fields pd') as [m | e] eqn:Hm;
        cbn [bind] in Ho.
      2:{ unfold TikiCrawler.handler in Ho. destruct (exn_kind e); discriminate. }
      injection Ho as -> ->. exists data, missing.
      split; [exact Hpd |]. split; [exact Hm |]. now destruct missing.
    + match goal with
      | |- context [TikiCrawler.attempts E retries product_id todo ?a ?l ?s0] =>
          destruct (IH a l s0) as [r [s' [Hr [Hf Hs]]]]
      end.
      exists r, s'. split; [exact Hr |].
      split; [rewrite Hf; now destruct (attempt <? retries - 1) |].
      destruct r as [pd |].
      * destruct Hs as [data [missing [H1 [H2 H3]]]].
        exists data, missing. split; [exact H1 |]. split; [exact H2 |].
        rewrite H3. now destruct (attempt <? retries - 1).
      * destruct Hs as [code [last [H1 [H2 H3]]]].
        exists code, last. split; [exact H1 |]. split; [exact H2 |].
        rewrite H3. now destruct (attempt <? retries - 1).
Qed.

End Worker.

Lemma count_incr (key : string) (codes : list (json * nat)) :
  CrawlStats.count (JStr key) (CrawlStats.incr (JStr key) codes)
  = CrawlStats.count (JStr key) codes + 1.
Proof.
  induction codes as [|[k n] codes IH]; simpl.
  - rewrite String.eqb_refl. reflexivity.
  - destruct (Py.key_eqb k (JStr key)) eqn:Hk; simpl; rewrite Hk; [lia | exact IH].
Qed.

(** The loop over [required_fields] is the disjunction of its tests. *)
Lemma has_missing_fields_obj (fields : list (string * json)) :
  TikiCrawler.has_missing_fields (JObj fields)
  = Ok (Spec.incomplete (JObj fields)).
Proof.
  unfold TikiCrawler.has_missing_fields, Spec.incomplete, Spec.scalar_fields.
  cbn -[Py.truthy Py.lookup_key].
  repeat match goal with
         | |- context [Py.truthy ?v] => destruct (Py.truthy v)
         end; cbn; try reflexivity;
  destruct (TikiCrawler.is_list _); cbn; try reflexivity;
  destruct (TikiCrawler.len0 _); reflexivity.
Qed.

Lemma product_data_of_obj (data product_data : json) :
  TikiCrawler.product_data_of data = Ok product_data ->
  exists fields, product_data = JObj fields
    /\ TikiCrawler.is_list (Spec.field product_data "images") = true.
Proof.
  unfold TikiCrawler.product_data_of. intros H.
  bind_ok H.
  injection H as <-. eexists. split; reflexivity.
Qed.

(** C1.  When every request for an identifier is answered with the same
    non-OK status and [max_retries] is [n >= 1], [fetch_product] sends
    exactly [n] requests, sleeps 1, 2, ..., n - 1 seconds between
    consecutive attempts and not after the last one, returns no record and
    reports one failure whose error kind is the status in decimal. *)
Theorem fetch_product_retries_then_fails
    (E : env) (cfg : config) (product_id : string) (s : state) (status : nat) :
  status <> 200 ->
  1 <= max_retries cfg ->
  (forall t, exists body, server E t product_id = Response status body) ->
  exists s',
    TikiCrawler.fetch_product E cfg product_id s = Ok (None, s')
    /\ log s' = log s ++ Spec.backoff_trace product_id (max_retries cfg)
    /\ Spec.requested (Spec.backoff_trace product_id (max_retries cfg))
       = repeat product_id (max_retries cfg)
    /\ Spec.delays (Spec.backoff_trace product_id (max_retries cfg))
       = seq 1 (max_retries cfg - 1)
    /\ stats s'
       = CrawlStats.add_failure (Some (PyStr.of_nat status)) (Some product_id)
           (Some ("HTTP " ++ PyStr.of_nat status)%string)
           (now E (length (log s'))) (stats s)
    /\ files s' = files s.
Proof.
  intros Hst Hn Hsrv. unfold TikiCrawler.fetch_product.
  rewrite (attempts_non_ok E product_id (max_retries cfg) status Hst Hsrv).
  cbn zeta. destruct (max_retries cfg) as [|n] eqn:Hr; [lia |].
  rewrite error_code_of_status. cbn [bind].
  eexists. split; [reflexivity |].
  split; [reflexivity |].
  split; [unfold Spec.backoff_trace; now rewrite backoff_requests, length_seq |].
  split; [unfold Spec.backoff_trace; now rewrite backoff_delays |].
  split; reflexivity.
Qed.

Lemma fetch_product_retries_then_fails_witness :
  exists s',
    TikiCrawler.fetch_product Sample.env_500 Sample.cfg3 "42" Sample.start
    = Ok (None, s')
    /\ log s' = [Get "42"; Sleep 1; Get "42"; Sleep 2; Get "42"]
    /\ error_codes (stats s') = [(JStr "500", 1)]
    /\ failed (stats s') = 1.
Proof.
  destruct (fetch_product_retries_then_fails Sample.env_500 Sample.cfg3 "42"
              Sample.start 500) as [s' [H1 [H2 [_ [_ [H3 _]]]]]].
  - discriminate.
  - simpl. lia.
  - intros t. eexists. reflexivity.
  - exists s'. split; [exact H1 |]. split; [exact H2 |].
    rewrite H3. split; reflexivity.
Defined.

(** C9, as the code has it.  [fetch_product] never raises.  It either
    returns a record and adds one to the completed count, leaving the
    failure data alone, or it returns no record, adds one to the failed
    count and to the tally of a non-empty error kind and, when the
    identifier is not the empty string, appends one failure record stamped
    with the current time; for the empty identifier no record is appended. *)
Theorem fetch_product_never_raises
    (E : env) (cfg : config) (product_id : string) (s : state) :
  exists r s',
    TikiCrawler.fetch_product E cfg product_id s = Ok (r, s')
    /\ files s' = files s
    /\ match r with
       | Some _ =>
           completed (stats s') = completed (stats s) + 1
           /\ failed (stats s') = failed (stats s)
           /\ error_codes (stats s') = error_codes (stats s)
           /\ failed_products (stats s') = failed_products (stats s)
       | None =>
           completed (stats s') = completed (stats s)
           /\ failed (stats s') = failed (stats s) + 1
           /\ exists error_code message,
                error_code <> ""
                /\ CrawlStats.count (JStr error_code) (error_codes (stats s'))
                   = CrawlStats.count (JStr error_code) (error_codes (stats s)) + 1
                /\ failed_products (stats s')
                   = if String.eqb product_id "" then failed_products (stats s)
                     else failed_products (stats s)
                          ++ [JObj [ ("product_id", JStr product_id);
                                     ("error_code", JStr error_code);
                                     ("error_message", JStr message);
                                     ("timestamp",
                                      JStr (now E (length (log s')))) ]]
       end.
Proof.
  unfold TikiCrawler.fetch_product.
  destruct (attempts_outcome E product_id (max_retries cfg) (max_retries cfg)
              0 None s) as [r [s' [Hr [Hf Hs]]]].
  exists r, s'. split; [exact Hr |]. split; [exact Hf |].
  destruct r as [pd |].
  - destruct Hs as [data [missing [_ [_ ->]]]]. now destruct missing.
  - destruct Hs as [code [last [Hne [_ ->]]]].
    split; [reflexivity |]. split; [reflexivity |].
    exists code, (CrawlStats.or_else last "").
    split; [exact Hne |].
    destruct code as [|c code]; [contradiction |].
    split; [apply count_incr |].
    destruct product_id; reflexivity.
Qed.

(** C9 as stated fails for the empty identifier: the failure is counted but
    no failure record is appended. *)
Lemma fetch_product_empty_identifier :
  exists s',
    TikiCrawler.fetch_product Sample.env_500 Sample.cfg3 "" Sample.start
    = Ok (None, s')
    /\ failed (stats s') = 1
    /\ failed_products (stats s') = [].
Proof. eexists. split; [vm_compute; reflexivity |]. split; reflexivity. Qed.

(** C8, as the code has it.  A record returned by [fetch_product] is the
    normalisation of a payload; it is classified incomplete exactly when one
    of id, name, url_key, price, description is falsy (absent, null, empty,
    the number 0 or false) or images is empty; it is returned all the same,
    the completed count grows by one and the incomplete-record counter by
    one exactly when the record is incomplete.  A well-formed OK response to
    the first request makes [fetch_product] return its record. *)
Theorem fetch_product_incomplete_counter
    (E : env) (cfg : config) (product_id : string) (s : state) :
  (forall product_data s',
     TikiCrawler.fetch_product E cfg product_id s = Ok (Some product_data, s') ->
     (exists data, TikiCrawler.product_data_of data = Ok product_data)
     /\ TikiCrawler.has_missing_fields product_data
        = Ok (Spec.incomplete product_data)
     /\ (Spec.incomplete product_data = true <->
         (exists k, In k Spec.scalar_fields
                    /\ Py.truthy (Spec.field product_data k) = false)
         \/ Spec.field product_data "images" = JArr [])
     /\ completed (stats s') = completed (stats s) + 1
     /\ products_with_missing_fields (stats s')
        = products_with_missing_fields (stats s)
          + (if Spec.incomplete product_data then 1 else 0))
  /\ (forall data product_data,
        1 <= max_retries cfg ->
        server E (length (log s)) product_id = Response 200 (Ok data) ->
        TikiCrawler.product_data_of data = Ok product_data ->
        exists s',
          TikiCrawler.fetch_product E cfg product_id s
          = Ok (Some product_data, s')).
Proof.
  unfold TikiCrawler.fetch_product. split.
  - intros pd s' H.
    destruct (attempts_outcome E product_id (max_retries cfg) (max_retries cfg)
                0 None s) as [r [s1 [Hr [_ Hs]]]].
    rewrite Hr in H. injection H as -> ->.
    destruct Hs as [data [missing [Hpd [Hm Hst]]]].
    destruct (product_data_of_obj _ _ Hpd) as [fields [-> Himg]].
    rewrite has_missing_fields_obj in Hm. injection Hm as <-.
    split; [now exists data |]. split; [apply has_missing_fields_obj |].
    split.
    + unfold Spec.incomplete. rewrite Himg. cbn [negb orb].
      rewrite orb_false_r, orb_true_iff, existsb_exists.
      split; (intros [H | H]; [left | right]).
      * destruct H as [k [Hk Ht]]. exists k. split; [exact Hk |].
        now apply negb_true_iff.
      * destruct (Spec.field _ "images") as [| | | |[|]|]; try discriminate.
        reflexivity.
      * destruct H as [k [Hk Ht]]. exists k. split; [exact Hk |].
        now apply negb_true_iff.
      * now rewrite H.
    + rewrite Hst. destruct (Spec.incomplete (JObj fields)); simpl; lia.
  - intros data pd Hn Hsrv Hpd.
    destruct (max_retries cfg) as [|n]; [lia |].
    cbn [TikiCrawler.attempts]. rewrite Hsrv.
    cbn [TikiCrawler.attempt_once Nat.eqb bind]. rewrite Hpd. cbn [bind].
    destruct (product_data_of_obj _ _ Hpd) as [fields [-> _]].
    rewrite has_missing_fields_obj. cbn [bind]. eexists. reflexivity.
Qed.

Lemma fetch_product_incomplete_counter_witness :
  exists product_data s',
    TikiCrawler.fetch_product Sample.env_ok Sample.cfg3 "8" Sample.start
    = Ok (Some product_data, s')
    /\ Spec.field product_data "price" = JNull
    /\ Spec.incomplete product_data = true
    /\ completed (stats s') = 1
    /\ products_with_missing_fields (stats s') = 1.
Proof.
  pose proof (fetch_product_incomplete_counter Sample.env_ok Sample.cfg3 "8"
                Sample.start) as [Hret Hrun].
  destruct (TikiCrawler.product_data_of (Sample.payload "8")) as [pd | e] eqn:Hpd;
    [| discriminate].
  destruct (Hrun (Sample.payload "8") pd) as [s' Hs'].
  - simpl. lia.
  - reflexivity.
  - exact Hpd.
  - destruct (Hret pd s' Hs') as [_ [_ [_ [Hc Hm]]]].
    exists pd, s'. split; [exact Hs' |].
    vm_compute in Hpd. injection Hpd as <-.
    split; [reflexivity |]. split; [reflexivity |].
    split; [exact Hc | exact Hm].
Defined.

(** C8 as stated fails: a product whose price is the number 0 has no empty
    or absent field, yet it is counted as incomplete. *)
Lemma fetch_product_zero_price :
  exists product_data s',
    TikiCrawler.fetch_product Sample.env_ok Sample.cfg3 "7" Sample.start
    = Ok (Some product_data, s')
    /\ Spec.field product_data "price" = JNum 0
    /\ Spec.claimed_incomplete product_data = false
    /\ TikiCrawler.has_missing_fields product_data = Ok true
    /\ products_with_missing_fields (stats s') = 1.
Proof.
  eexists _, _. split; [vm_compute; reflexivity |].
  repeat split.
Qed.

(** ** The output folder *)

Section DirFacts.

Lemma lookup_write (name name' : string) (c : json) (d : dir) :
  Dir.lookup name (Dir.write name' c d)
  = if String.eqb name' name then Some (Parsed c) else Dir.lookup name d.
Proof.
  induction d as [|[n f] d IH]; simpl.
  - now destruct (String.eqb name' name).
  - destruct (String.eqb_spec n name') as [-> | Hn]; simpl.
    + now destruct (String.eqb name' name).
    + destruct (String.eqb_spec n name) as [-> | Hn'].
      * destruct (String.eqb_spec name' name); congruence.
      * exact IH.
Qed.

(** A write never removes a file. *)
Lemma lookup_write_some (name name' : string) (c : json) (d : dir) (f : file) :
  Dir.lookup name d = Some f ->
  name <> name' ->
  Dir.lookup name (Dir.write name' c d) = Some f.
Proof.
  intros H Hne. rewrite lookup_write.
  destruct (String.eqb_spec name' name); congruence.
Qed.

Lemma write_names (name : string) (c : json) (d : dir) :
  map fst (Dir.write name c d)
  = if Dir.exists_ name d then map fst d else map fst d ++ [name].
Proof.
  unfold Dir.exists_. induction d as [|[n f] d IH]; simpl; [reflexivity |].
  destruct (String.eqb_spec n name) as [-> | Hn]; simpl; [reflexivity |].
  rewrite IH. now destruct (Dir.lookup name d).
Qed.

Lemma lookup_none_names (name : string) (d : dir) :
  Dir.lookup name d = None -> ~ In name (map fst d).
Proof.
  induction d as [|[n f] d IH]; simpl; [tauto |].
  destruct (String.eqb_spec n name); [discriminate |].
  intros H [? | ?]; [congruence | now apply IH].
Qed.

Lemma NoDup_write (name : string) (c : json) (d : dir) :
  NoDup (map fst d) -> NoDup (map fst (Dir.write name c d)).
Proof.
  intros H. rewrite write_names. unfold Dir.exists_.
  destruct (Dir.lookup name d) eqn:Hl; [exact H |].
  apply NoDup_app. split; [exact H |]. split.
  - intros x Hx Hx'. apply list_elem_of_In in Hx.
    apply list_elem_of_In in Hx'. destruct Hx' as [<- | []].
    now apply (lookup_none_names _ _ Hl).
  - apply NoDup_singleton.
Qed.

Lemma lookup_In (name : string) (f : file) (d : dir) :
  Dir.lookup name d = Some f -> In (name, f) d.
Proof.
  induction d as [|[n f'] d IH]; simpl; [discriminate |].
  destruct (String.eqb_spec n name) as [-> | Hn].
  - intros H. injection H as ->. now left.
  - auto.
Qed.

Lemma In_lookup (name : string) (f : file) (d : dir) :
  NoDup (map fst d) -> In (name, f) d -> Dir.lookup name d = Some f.
Proof.
  induction d as [|[n f'] d IH]; simpl; [tauto |].
  intros Hnd [H | H].
  - injection H as -> ->. now rewrite String.eqb_refl.
  - inversion Hnd as [|? ? Hnot Hnd']; subst.
    destruct (String.eqb_spec n name) as [-> | Hn]; [| now apply IH].
    exfalso. apply Hnot. apply list_elem_of_In.
    apply (in_map fst _ _ H).
Qed.

(** The entries of the folder after a write. *)
Lemma In_write_inv (n name : string) (f : file) (c : json) (d : dir) :
  NoDup (map fst d) ->
  In (n, f) (Dir.write name c d) ->
  (n = name /\ f = Parsed c) \/ (n <> name /\ In (n, f) d).
Proof.
  intros Hnd Hin.
  pose proof (In_lookup _ _ _ (NoDup_write name c d Hnd) Hin) as Hl.
  rewrite lookup_write in Hl.
  destruct (String.eqb_spec name n) as [-> | Hne].
  - injection Hl as <-. now left.
  - right. split; [congruence |]. now apply lookup_In.
Qed.

End DirFacts.

(** ** Deduplication and batching *)

Section Batching.

Lemma existsb_eqb_In (x : string) (keys : list string) :
  existsb (String.eqb x) keys = true <-> In x keys.
Proof.
  rewrite existsb_exists. split.
  - intros [y [Hy He]]. apply String.eqb_eq in He. now subst.
  - intros H. exists x. split; [exact H | apply String.eqb_refl].
Qed.

Lemma dedup_fold (items keys : list string) :
  NoDup keys ->
  let out := fold_left (fun keys x => if existsb (String.eqb x) keys then keys
                                      else keys ++ [x]) items keys in
  NoDup out /\ forall x, In x out <-> In x keys \/ In x items.
Proof.
  revert keys. induction items as [|a items IH]; intros keys Hnd; simpl.
  - split; [exact Hnd | tauto].
  - destruct (existsb (String.eqb a) keys) eqn:He.
    + apply existsb_eqb_In in He.
      destruct (IH keys Hnd) as [H1 H2]. split; [exact H1 |].
      intros x. rewrite H2. intuition (subst; auto).
    + assert (Hna : ~ In a keys).
      { intros Hin. apply existsb_eqb_In in Hin. congruence. }
      destruct (IH (keys ++ [a])) as [H1 H2].
      { apply NoDup_app. split; [exact Hnd |]. split.
        - intros x Hx Hx'. apply list_elem_of_In in Hx.
          apply list_elem_of_In in Hx'. destruct Hx' as [<- | []]. tauto.
        - apply NoDup_singleton. }
      split; [exact H1 |].
      intros x. rewrite H2, in_app_iff. simpl. tauto.
Qed.

(** [deduplicate_list] keeps one copy of every identifier. *)
Lemma deduplicate_list_NoDup (items : list string) :
  NoDup (DeduplicationUtils.deduplicate_list items).
Proof. apply (dedup_fold items []). constructor. Qed.

Lemma deduplicate_list_In (items : list string) (x : string) :
  In x (DeduplicationUtils.deduplicate_list items) <-> In x items.
Proof.
  destruct (dedup_fold items [] (NoDup_nil_2)) as [_ H].
  unfold DeduplicationUtils.deduplicate_list. rewrite H. simpl. tauto.
Qed.

Lemma pending_NoDup (E : env) (d : dir) (product_ids : list string) :
  NoDup (TikiCrawler.pending E d product_ids).
Proof.
  unfold TikiCrawler.pending, TikiCrawler.filter_uncrawled_products.
  destruct (decide _).
  - apply deduplicate_list_NoDup.
  - apply NoDup_filter, deduplicate_list_NoDup.
Qed.

(** A pending identifier is an input identifier that no persisted batch
    covers. *)
Lemma pending_In (E : env) (d : dir) (product_ids : list string) (x : string) :
  In x (TikiCrawler.pending E d product_ids) <->
  In x product_ids /\ x ∉ DeduplicationUtils.get_already_crawled_ids E d.
Proof.
  unfold TikiCrawler.pending, TikiCrawler.filter_uncrawled_products.
  destruct (decide _) as [He | Hne].
  - rewrite deduplicate_list_In, He.
    split; [intros H; split; [exact H | apply not_elem_of_empty] | tauto].
  - rewrite <- list_elem_of_In, list_elem_of_filter, list_elem_of_In,
      deduplicate_list_In. tauto.
Qed.

Variable A : Type.

Lemma slice_firstn (l : list A) (start width : nat) :
  slice l start (Nat.min (start + width) (length l))
  = firstn width (skipn start l).
Proof.
  unfold slice.
  destruct (Nat.le_gt_cases (start + width) (length l)) as [Hle | Hgt].
  - rewrite Nat.min_l by exact Hle. f_equal. lia.
  - rewrite Nat.min_r by lia.
    rewrite !firstn_all2; [reflexivity | |]; rewrite length_skipn; lia.
Qed.

Lemma slice_firstn' (l : list A) (start width : nat) :
  slice l start (start + width) = firstn width (skipn start l).
Proof. unfold slice. f_equal. lia. Qed.

(** Consecutive chunks of width [b] give the list back. *)
Lemma chunks_concat (b m : nat) (l : list A) :
  length l <= m * b ->
  concat (map (fun k => firstn b (skipn (k * b) l)) (seq 0 m)) = l.
Proof.
  revert l. induction m as [|m IH]; intros l Hl.
  - destruct l; [reflexivity | simpl in Hl; lia].
  - cbn [seq map concat]. rewrite <- seq_shift, map_map.
    cbn [Nat.mul Nat.add skipn].
    transitivity (firstn b l ++ skipn b l); [| apply firstn_skipn].
    f_equal.
    rewrite <- (IH (skipn b l)) by (rewrite length_skipn; simpl in Hl; lia).
    f_equal. apply map_ext. intros k.
    rewrite skipn_skipn. f_equal. f_equal. lia.
Qed.

Lemma range_count (n b : nat) :
  1 <= b ->
  n <= (n + b - 1) / b * b /\ (1 <= n -> ((n + b - 1) / b - 1) * b < n).
Proof.
  intros Hb.
  pose proof (Nat.div_mod_eq (n + b - 1) b) as Hd.
  pose proof (Nat.mod_upper_bound (n + b - 1) b ltac:(lia)) as Hm.
  split; [nia |]. intros Hn.
  assert (1 <= (n + b - 1) / b) by (apply Nat.div_str_pos; lia).
  nia.
Qed.

End Batching.

(** The batches of line 172: consecutive, in order, of the batch size except
    for a shorter last one. *)
Lemma batch_ids_firstn (cfg : config) (product_ids : list string) (start : nat) :
  TikiCrawler.batch_ids cfg product_ids start
  = firstn (batch_size cfg) (skipn start product_ids).
Proof. apply slice_firstn. Qed.

Lemma batches_concat (cfg : config) (product_ids : list string) :
  1 <= batch_size cfg ->
  concat (map (TikiCrawler.batch_ids cfg product_ids)
              (py_range (length product_ids) (batch_size cfg)))
  = product_ids.
Proof.
  intros Hb. unfold py_range. rewrite map_map.
  erewrite map_ext; [| intros k; apply batch_ids_firstn].
  apply chunks_concat. now apply range_count.
Qed.


(** ** What the workers of a batch do *)

Section Workers.

Variable E : env.
Variable cfg : config.

Lemma worked_nil (s : state) : Inv.worked [] s s.
Proof.
  split; [reflexivity |]. split.
  - exists []. split; [now rewrite app_nil_r | intros p []].
  - exists []. split; [now rewrite app_nil_r |].
    split; [constructor | apply sublist_nil_l].
Qed.

Lemma worked_app (ids1 ids2 : list string) (s s1 s2 : state) :
  Inv.worked ids1 s s1 -> Inv.worked ids2 s1 s2 ->
  Inv.worked (ids1 ++ ids2) s s2.
Proof.
  intros [Hf1 [[ev1 [Hl1 Hr1]] [new1 [Hp1 [Hn1 Hs1]]]]]
         [Hf2 [[ev2 [Hl2 Hr2]] [new2 [Hp2 [Hn2 Hs2]]]]].
  split; [congruence |]. split.
  - exists (ev1 ++ ev2). split; [rewrite Hl2, Hl1; apply eq_sym, app_assoc |].
    intros p. rewrite requested_app, !in_app_iff. intros [H | H]; auto.
  - exists (new1 ++ new2). split; [rewrite Hp2, Hp1; apply eq_sym, app_assoc |].
    split; [now apply Forall_app |].
    rewrite map_app. now apply sublist_app.
Qed.

(** The requests of one worker go to its identifier. *)
Lemma attempts_log (product_id : string) (retries : nat) :
  forall todo attempt last_error s r s',
    TikiCrawler.attempts E retries product_id todo attempt last_error s
    = Ok (r, s') ->
    exists ev, log s' = log s ++ ev
               /\ forall p, In p (Spec.requested ev) -> p = product_id.
Proof.
  induction todo as [|todo IH]; intros attempt last_error s r s' H.
  - cbn [TikiCrawler.attempts] in H.
    destruct (TikiCrawler.error_code_of last_error); cbn [bind] in H;
      [| discriminate].
    injection H as <- <-. exists []. split; [now rewrite app_nil_r | intros p []].
  - cbn [TikiCrawler.attempts] in H.
    destruct (TikiCrawler.attempt_once _) as [pd missing | err].
    + injection H as <- <-. exists [Get product_id].
      split; [now destruct missing |].
      intros p [<- | []]. reflexivity.
    + apply IH in H. destruct H as [ev [Hl Hr]].
      destruct (attempt <? retries - 1); cbn [emit log] in Hl.
      * exists ([Get product_id; Sleep (1 * (attempt + 1))] ++ ev).
        split; [rewrite Hl, <- !app_assoc; reflexivity |].
        intros p. rewrite requested_app, in_app_iff.
        intros [[<- | []] | Hp]; auto.
      * exists ([Get product_id] ++ ev).
        split; [rewrite Hl, <- !app_assoc; reflexivity |].
        intros p. rewrite requested_app, in_app_iff.
        intros [[<- | []] | Hp]; auto.
Qed.

(** With a well-formed OK response to its first request a worker returns
    a record. *)
Lemma fetch_product_first_ok (product_id : string) (s : state)
    (data product_data : json) :
  1 <= max_retries cfg ->
  server E (length (log s)) product_id = Response 200 (Ok data) ->
  TikiCrawler.product_data_of data = Ok product_data ->
  exists s',
    TikiCrawler.fetch_product E cfg product_id s = Ok (Some product_data, s').
Proof.
  intros Hn Hsrv Hpd. unfold TikiCrawler.fetch_product.
  destruct (max_retries cfg) as [|n]; [lia |].
  cbn [TikiCrawler.attempts]. rewrite Hsrv.
  cbn [TikiCrawler.attempt_once Nat.eqb bind]. rewrite Hpd. cbn [bind].
  destruct (product_data_of_obj _ _ Hpd) as [fields [-> _]].
  rewrite has_missing_fields_obj. cbn [bind]. eexists. reflexivity.
Qed.

Lemma fetch_product_worked (product_id : string) (s : state) :
  exists r s',
    TikiCrawler.fetch_product E cfg product_id s = Ok (r, s')
    /\ Inv.worked [product_id] s s'
    /\ (Inv.all_ok E -> 1 <= max_retries cfg -> r <> None).
Proof.
  destruct (attempts_outcome E product_id (max_retries cfg) (max_retries cfg)
              0 None s) as [r [s' [Hr [Hf Hs]]]].
  exists r, s'. unfold TikiCrawler.fetch_product.
  split; [exact Hr |]. split.
  - split; [exact Hf |]. split.
    + destruct (attempts_log _ _ _ _ _ _ _ _ Hr) as [ev [Hl Hp]].
      exists ev. split; [exact Hl |]. intros p Hin. left.
      symmetry. now apply Hp.
    + destruct r as [pd |].
      * destruct Hs as [data [missing [_ [_ ->]]]].
        exists []. split; [rewrite app_nil_r; now destruct missing |].
        split; [constructor | apply sublist_nil_l].
      * destruct Hs as [code [last [Hne [_ ->]]]].
        destruct code as [|c code]; [contradiction |].
        destruct product_id as [|p pid].
        -- exists []. split; [now rewrite app_nil_r |].
           split; [constructor | apply sublist_nil_l].
        -- eexists [_]. split; [reflexivity |]. split.
           ++ constructor; [| constructor].
              eexists _, _, _, _. split; [| split; [| reflexivity]]; discriminate.
           ++ reflexivity.
  - intros Hok Hn.
    destruct (Hok (length (log s)) product_id) as [data [pd [Hsrv Hpd]]].
    destruct (fetch_product_first_ok product_id s data pd Hn Hsrv Hpd)
      as [s1 Hs1].
    unfold TikiCrawler.fetch_product in Hs1. rewrite Hr in Hs1.
    injection Hs1 as -> _. discriminate.
Qed.

Lemma gather_worked (ids : list string) :
  forall s,
  exists rs s',
    TikiCrawler.gather E cfg ids s = Ok (rs, s')
    /\ Inv.worked ids s s'
    /\ length (TikiCrawler.not_none rs) <= length ids
    /\ (Inv.all_ok E -> 1 <= max_retries cfg ->
        length (TikiCrawler.not_none rs) = length ids).
Proof.
  induction ids as [|pid ids IH]; intros s.
  - exists [], s. split; [reflexivity |]. split; [apply worked_nil |].
    split; [reflexivity | reflexivity].
  - cbn [TikiCrawler.gather].
    destruct (fetch_product_worked pid s) as [r [s1 [Hr [Hw Hok]]]].
    rewrite Hr. destruct (IH s1) as [rs [s2 [Hrs [Hw2 [Hle Heq]]]]].
    rewrite Hrs. exists (r :: rs), s2. split; [reflexivity |].
    split; [apply (worked_app [pid] ids s s1 s2 Hw Hw2) |].
    split.
    + destruct r; simpl; lia.
    + intros Ha Hn. specialize (Hok Ha Hn). specialize (Heq Ha Hn).
      destruct r; [simpl; lia | contradiction].
Qed.

Lemma fetch_windows_worked (product_ids : list string) (starts : list nat) :
  forall results s,
  exists more s',
    TikiCrawler.fetch_windows E cfg product_ids starts results s
    = Ok (results ++ more, s')
    /\ Inv.worked
         (flat_map (fun i => slice product_ids i (i + concurrent_requests cfg))
                   starts) s s'
    /\ length more
       <= length (flat_map
                    (fun i => slice product_ids i (i + concurrent_requests cfg))
                    starts)
    /\ (Inv.all_ok E -> 1 <= max_retries cfg ->
        length more
        = length (flat_map
                    (fun i => slice product_ids i (i + concurrent_requests cfg))
                    starts)).
Proof.
  set (window := fun i => slice product_ids i (i + concurrent_requests cfg)).
  induction starts as [|i starts IH]; intros results s.
  - exists [], s. rewrite app_nil_r. split; [reflexivity |].
    split; [apply worked_nil |]. split; reflexivity.
  - cbn [TikiCrawler.fetch_windows flat_map]. fold (window i).
    destruct (gather_worked (window i) s) as [rs [s1 [Hrs [Hw [Hle Heq]]]]].
    rewrite Hrs.
    destruct (IH (results ++ TikiCrawler.not_none rs) s1)
      as [more [s2 [Hm [Hw2 [Hle2 Heq2]]]]].
    rewrite Hm. exists (TikiCrawler.not_none rs ++ more), s2.
    split; [now rewrite app_assoc |].
    split; [apply (worked_app _ _ s s1 s2 Hw Hw2) |].
    rewrite !length_app. split; [lia |].
    intros Ha Hn. specialize (Heq Ha Hn). specialize (Heq2 Ha Hn). lia.
Qed.

(** A batch: every identifier gets a worker, and the results hold at most
    one record per identifier. *)
Lemma fetch_batch_worked (product_ids : list string) (s : state) :
  1 <= concurrent_requests cfg ->
  exists products s',
    TikiCrawler.fetch_batch E cfg product_ids s = Ok (products, s')
    /\ Inv.worked product_ids s s'
    /\ length products <= length product_ids
    /\ (Inv.all_ok E -> 1 <= max_retries cfg ->
        length products = length product_ids).
Proof.
  intros Hc. unfold TikiCrawler.fetch_batch.
  destruct (Nat.eqb_spec (concurrent_requests cfg) 0) as [| _]; [lia |].
  destruct (fetch_windows_worked product_ids
              (py_range (length product_ids) (concurrent_requests cfg)) [] s)
    as [more [s' [Hm [Hw [Hle Heq]]]]].
  cbn zeta in *.
  assert (Hcat :
    flat_map (fun i => slice product_ids i (i + concurrent_requests cfg))
             (py_range (length product_ids) (concurrent_requests cfg))
    = product_ids).
  { rewrite flat_map_concat_map. unfold py_range. rewrite map_map.
    erewrite map_ext; [| intros k; apply slice_firstn'].
    apply chunks_concat. now apply range_count. }
  rewrite Hcat in Hw, Hle, Heq.
  exists more, s'. simpl in Hm. auto.
Qed.

End Workers.

(** ** File names *)

Section FileNames.

Lemma prefix_append (a b : string) : String.prefix a (a ++ b) = true.
Proof.
  induction a as [|c a IH]; simpl; [now destruct b |].
  destruct (Ascii.ascii_dec c c); [exact IH | congruence].
Qed.

Lemma append_inj_l (t s s' : string) : (t ++ s = t ++ s')%string -> s = s'.
Proof. induction t as [|c t IH]; simpl; intros H; [exact H | injection H; auto]. Qed.

Lemma append_inj_r (t s s' : string) : (s ++ t = s' ++ t)%string -> s = s'.
Proof.
  intros H. apply (f_equal PyStr.rev) in H. rewrite !rev_append in H.
  apply append_inj_l in H.
  rewrite <- (rev_involutive s), H. apply rev_involutive.
Qed.

Lemma endswith_append (a suffix : string) :
  PyStr.endswith (a ++ suffix) suffix = true.
Proof. unfold PyStr.endswith. rewrite rev_append. apply prefix_append. Qed.

Lemma batch_file_inj (k k' : nat) :
  FileHandler.batch_file k = FileHandler.batch_file k' -> k = k'.
Proof.
  unfold FileHandler.batch_file. intros H.
  apply append_inj_l, append_inj_r, of_nat_inj in H. lia.
Qed.

Lemma failed_file_inj (kind kind' : string) :
  FileHandler.failed_file kind = FileHandler.failed_file kind' -> kind = kind'.
Proof.
  unfold FileHandler.failed_file. intros H.
  now apply append_inj_l, append_inj_r in H.
Qed.

Lemma batch_file_is_products (k : nat) :
  Dir.is_products_file (FileHandler.batch_file k) = true.
Proof.
  unfold Dir.is_products_file, FileHandler.batch_file.
  apply andb_true_iff. split; [apply prefix_append |].
  rewrite <- append_assoc. apply endswith_append.
Qed.

Lemma failed_file_is_failed (kind : string) :
  Dir.is_failed_file (FileHandler.failed_file kind) = true.
Proof.
  unfold Dir.is_failed_file, FileHandler.failed_file.
  apply andb_true_iff. split; [apply prefix_append |].
  rewrite <- append_assoc. apply endswith_append.
Qed.

(** A name starts either with [products_] or with [failed_]. *)
(** A name starts either with [products_] or with [failed_]. *)
Lemma products_not_failed (name : string) :
  Dir.is_products_file name = true -> Dir.is_failed_file name = false.
Proof.
  unfold Dir.is_products_file, Dir.is_failed_file, PyStr.startswith.
  intros H. apply andb_true_iff in H. destruct H as [H _].
  destruct name as [|c name]; [discriminate |].
  cbn [String.prefix] in *.
  destruct (Ascii.ascii_dec "p" c) as [<- |]; [| discriminate].
  destruct (Ascii.ascii_dec "f" "p"); [discriminate | reflexivity].
Qed.

Lemma batch_file_not_failed (k : nat) :
  Dir.is_failed_file (FileHandler.batch_file k) = false.
Proof. apply products_not_failed, batch_file_is_products. Qed.

Lemma failed_file_not_products (kind : string) :
  Dir.is_products_file (FileHandler.failed_file kind) = false.
Proof.
  destruct (Dir.is_products_file _) eqn:H; [| reflexivity].
  apply products_not_failed in H. now rewrite failed_file_is_failed in H.
Qed.

End FileNames.

(** ** The batch loop *)

Section Batches.

Lemma batch_writes_lookup (d d' : dir) (name : string) (f : file) :
  Inv.batch_writes d d' ->
  Dir.lookup name d = Some f -> Dir.lookup name d' = Some f.
Proof.
  induction 1 as [d | d d' k products Hfree _ IH]; intros Hl; [exact Hl |].
  apply IH. unfold FileHandler.save_batch. apply lookup_write_some; congruence.
Qed.

Lemma batch_writes_other (d d' : dir) (name : string) :
  Inv.batch_writes d d' ->
  (forall k, name <> FileHandler.batch_file k) ->
  Dir.lookup name d' = Dir.lookup name d.
Proof.
  induction 1 as [d | d d' k products Hfree _ IH]; intros Hne; [reflexivity |].
  rewrite (IH Hne). unfold FileHandler.save_batch. rewrite lookup_write.
  destruct (String.eqb_spec (FileHandler.batch_file k) name) as [He | _];
    [| reflexivity].
  now destruct (Hne k).
Qed.

Lemma partitions_ok_write (d : dir) (name : string) (c : json) :
  Dir.is_failed_file name = false ->
  Inv.partitions_ok d -> Inv.partitions_ok (Dir.write name c d).
Proof.
  intros Hn [Hnd Hok]. split; [now apply NoDup_write |].
  intros n f Hin Hf.
  destruct (In_write_inv _ _ _ _ _ Hnd Hin) as [[-> _] | [_ Hin']].
  - congruence.
  - now apply Hok.
Qed.

Lemma batch_writes_partitions_ok (d d' : dir) :
  Inv.batch_writes d d' -> Inv.partitions_ok d -> Inv.partitions_ok d'.
Proof.
  induction 1 as [d | d d' k products Hfree _ IH]; intros Hok; [exact Hok |].
  apply IH. apply partitions_ok_write; [apply batch_file_not_failed | exact Hok].
Qed.

Variable E : env.
Variable cfg : config.
Variable product_ids : list string.
Hypothesis Hc : 1 <= concurrent_requests cfg.

Lemma run_batches_effect (starts : list nat) :
  forall s,
  exists s',
    TikiCrawler.run_batches E cfg product_ids starts s = Ok s'
    /\ Inv.batch_writes (files s) (files s')
    /\ (exists ev,
          log s' = log s ++ ev
          /\ forall p, In p (Spec.requested ev) ->
               exists start,
                 In start starts
                 /\ In p (TikiCrawler.batch_ids cfg product_ids start)
                 /\ Dir.lookup (FileHandler.batch_file (start / batch_size cfg))
                      (files s) = None)
    /\ (exists new,
          failed_products (stats s') = failed_products (stats s) ++ new
          /\ Forall Inv.fresh new
          /\ map Inv.pid_of new
             `sublist_of` flat_map (TikiCrawler.batch_ids cfg product_ids) starts)
    /\ (NoDup (map (fun start => start / batch_size cfg) starts) ->
        forall start,
          In start starts ->
          Dir.lookup (FileHandler.batch_file (start / batch_size cfg)) (files s)
          = None ->
          exists products,
            Dir.lookup (FileHandler.batch_file (start / batch_size cfg)) (files s')
            = Some (Parsed (JArr products))
            /\ length products
               <= length (TikiCrawler.batch_ids cfg product_ids start)
            /\ (Inv.all_ok E -> 1 <= max_retries cfg ->
                length products
                = length (TikiCrawler.batch_ids cfg product_ids start))).
Proof.
  induction starts as [|start rest IH]; intros s.
  - exists s. split; [reflexivity |]. split; [constructor |].
    split; [exists []; split; [now rewrite app_nil_r | intros p []] |].
    split; [exists []; split; [now rewrite app_nil_r |];
            split; [constructor | apply sublist_nil_l] |].
    intros _ start [].
  - cbn [TikiCrawler.run_batches]. unfold Dir.exists_.
    set (idx := start / batch_size cfg).
    destruct (Dir.lookup (FileHandler.batch_file idx) (files s)) as [f |] eqn:Hl.
    + destruct (IH s)
        as [s' [Hrun [Hbw [[ev [Hlog Hreq]] [[new [Hfp [Hfr Hsub]]] Hpers]]]]].
      exists s'. split; [exact Hrun |]. split; [exact Hbw |].
      split; [| split].
      * exists ev. split; [exact Hlog |]. intros p Hp.
        destruct (Hreq p Hp) as [st [H1 H2]]. exists st. split; [now right | exact H2].
      * exists new. split; [exact Hfp |]. split; [exact Hfr |].
        cbn [flat_map]. now apply sublist_inserts_l.
      * intros Hnd st [<- | Hin] Hnone; [fold idx in Hnone; congruence |].
        apply NoDup_cons in Hnd. now apply Hpers.
    + destruct (fetch_batch_worked E cfg
                  (TikiCrawler.batch_ids cfg product_ids start) s Hc)
        as [products [s1 [Hfb [[Hf1 [[ev1 [Hlog1 Hreq1]] [new1 [Hfp1 [Hfr1 Hsub1]]]]]
                                 [Hle Heq]]]]].
      rewrite Hfb.
      set (s3 := emit (Sleep 2)
                   (set_files (FileHandler.save_batch products idx) s1)).
      assert (Hfiles3 : files s3
                        = FileHandler.save_batch products idx (files s))
        by (cbn; now rewrite Hf1).
      destruct (IH s3)
        as [s' [Hrun [Hbw [[ev [Hlog Hreq]] [[new [Hfp [Hfr Hsub]]] Hpers]]]]].
      exists s'. split; [exact Hrun |]. rewrite Hfiles3 in Hbw.
      split; [apply (Inv.bw_save _ _ idx products Hl Hbw) |].
      split; [| split].
      * exists (ev1 ++ [Sleep 2] ++ ev). split.
        { rewrite Hlog. cbn [s3 emit set_files log]. rewrite Hlog1.
          now rewrite <- !app_assoc. }
        intros p. rewrite !requested_app, !in_app_iff. cbn [Spec.requested].
        intros [Hp | [[] | Hp]].
        -- exists start. split; [now left |]. split; [now apply Hreq1 | exact Hl].
        -- destruct (Hreq p Hp) as [st [H1 [H2 H3]]].
           exists st. split; [now right |]. split; [exact H2 |].
           rewrite Hfiles3 in H3. unfold FileHandler.save_batch in H3.
           rewrite lookup_write in H3.
           now destruct (String.eqb _ _).
      * exists (new1 ++ new). split.
        { rewrite Hfp. cbn [s3 emit set_files stats]. rewrite Hfp1.
          now rewrite <- app_assoc. }
        split; [now apply Forall_app |].
        rewrite map_app. cbn [flat_map]. now apply sublist_app.
      * intros Hnd st Hin Hnone. cbn [map] in Hnd.
        apply NoDup_cons in Hnd. destruct Hnd as [Hnotin Hnd].
        destruct Hin as [<- | Hin].
        -- exists products. fold idx. split; [| split; [exact Hle | exact Heq]].
           apply (batch_writes_lookup _ _ _ _ Hbw).
           unfold FileHandler.save_batch. rewrite lookup_write.
           now rewrite String.eqb_refl.
        -- apply (Hpers Hnd st Hin). rewrite Hfiles3.
           unfold FileHandler.save_batch. rewrite lookup_write.
           destruct (String.eqb_spec (FileHandler.batch_file idx)
                       (FileHandler.batch_file (st / batch_size cfg)))
             as [He | _]; [| exact Hnone].
           apply batch_file_inj in He. exfalso. apply Hnotin.
           apply list_elem_of_In, in_map_iff. exists st. split; [| exact Hin].
           unfold idx in He. now rewrite He.
Qed.

End Batches.

(** ** The whole run *)

Section Run.

(** With distinct identifiers the batches do not overlap. *)
Lemma batches_disjoint (l : list string) (b k k' : nat) (p : string) :
  NoDup l ->
  In p (firstn b (skipn (k * b) l)) ->
  In p (firstn b (skipn (k' * b) l)) ->
  k = k'.
Proof.
  intros Hnd H1 H2.
  apply list_elem_of_In, list_elem_of_lookup in H1, H2.
  destruct H1 as [i Hi], H2 as [j Hj].
  apply lookup_take_Some in Hi, Hj.
  destruct Hi as [Hi Hib], Hj as [Hj Hjb].
  rewrite lookup_drop in Hi, Hj.
  pose proof (NoDup_lookup _ _ _ _ Hnd Hi Hj). nia.
Qed.

(** The failure partitions are written under names of their own. *)
Lemma save_group_files (error_code : json) (products : list json) (d d' : dir) :
  FileHandler.save_group error_code products d = Ok d' ->
  exists kind content, d' = Dir.write (FileHandler.failed_file kind) content d.
Proof.
  unfold FileHandler.save_group. intros H.
  bind_ok H.
  injection H as <-. eauto.
Qed.

Lemma save_groups_products (groups : list (json * list json)) :
  forall d d' raised name,
    FileHandler.save_groups groups d = (d', raised) ->
    Dir.is_products_file name = true ->
    Dir.lookup name d' = Dir.lookup name d.
Proof.
  induction groups as [|[code products] groups IH]; intros d d' raised name H Hn.
  - injection H as <- _. reflexivity.
  - cbn [FileHandler.save_groups] in H.
    destruct (FileHandler.save_group code products d) as [d1 | e] eqn:Hg.
    + rewrite (IH _ _ _ _ H Hn).
      destruct (save_group_files _ _ _ _ Hg) as [kind [content ->]].
      rewrite lookup_write.
      destruct (String.eqb_spec (FileHandler.failed_file kind) name) as [<- | _];
        [| reflexivity].
      now rewrite failed_file_not_products in Hn.
    + injection H as <- _. reflexivity.
Qed.

Lemma save_failed_products (failed_products : list json) (d d' : dir)
    (raised : option exn) (name : string) :
  FileHandler.save_failed_products_by_error failed_products d = (d', raised) ->
  Dir.is_products_file name = true ->
  Dir.lookup name d' = Dir.lookup name d.
Proof.
  unfold FileHandler.save_failed_products_by_error. intros H Hn.
  destruct failed_products as [|r rs]; [injection H as <- _; reflexivity |].
  destruct (FileHandler.group_by_error (r :: rs) []) as [groups | e];
    [| injection H as <- _; reflexivity].
  destruct (FileHandler.save_groups groups d) as [d1 [e |]] eqn:Hg.
  - injection H as <- _. apply (save_groups_products _ _ _ _ _ Hg Hn).
  - injection H as <- _. rewrite lookup_write.
    destruct (String.eqb_spec FileHandler.all_failed_path name) as [<- | _].
    + discriminate.
    + apply (save_groups_products _ _ _ _ _ Hg Hn).
Qed.

Variable E : env.
Variable cfg : config.

(** Without a window width the first batch that is not skipped raises. *)
Lemma run_batches_no_window (product_ids : list string) (starts : list nat) :
  concurrent_requests cfg = 0 ->
  forall s s',
    TikiCrawler.run_batches E cfg product_ids starts s = Ok s' -> s' = s.
Proof.
  intros Hc. induction starts as [|start rest IH]; intros s s' H.
  - now injection H.
  - cbn [TikiCrawler.run_batches] in H.
    destruct (Dir.exists_ _ _); [now apply IH |].
    unfold TikiCrawler.fetch_batch in H. rewrite Hc in H. discriminate.
Qed.

End Run.

Section Crawl.

Variable E : env.
Variable cfg : config.

(** The ways in which [crawl] ends: before the first batch is fetched, or
    after the batch loop and the saving of the failures. *)
Lemma crawl_cases (product_ids : list string) (s s' : state)
    (raised : option exn) :
  TikiCrawler.crawl E cfg product_ids s = (s', raised) ->
  let pending := TikiCrawler.pending E (files s) product_ids in
  let s0 := Inv.loaded product_ids s in
  (s' = s0
   /\ ((pending = [] /\ raised = None)
       \/ (pending <> [] /\ batch_size cfg = 0 /\ raised <> None)
       \/ (pending <> [] /\ concurrent_requests cfg = 0 /\ raised <> None)))
  \/ (pending <> [] /\ 1 <= batch_size cfg
      /\ exists s1 d,
           TikiCrawler.run_batches E cfg pending
             (py_range (length pending) (batch_size cfg)) s0 = Ok s1
           /\ FileHandler.save_failed_products_by_error
                (failed_products (stats s1)) (files s1) = (d, raised)
           /\ s' = set_files (fun _ => d) s1).
Proof.
  intros H pending s0.
  unfold TikiCrawler.crawl in H. cbn zeta in H.
  change (files (set_stats _ (set_stats _ s))) with (files s) in H.
  change (files (set_stats _ s)) with (files s) in H.
  fold (TikiCrawler.pending E (files s) product_ids) in H.
  fold (Inv.loaded product_ids s) in H.
  fold pending in H. fold s0 in H.
  destruct pending as [|p pending'] eqn:Hp.
  - injection H as <- <-. left. auto.
  - destruct (Nat.eqb_spec (batch_size cfg) 0) as [Hb | Hb].
    + injection H as <- <-. left. split; [reflexivity |].
      right. left. repeat split; [discriminate | exact Hb | discriminate].
    + destruct (TikiCrawler.run_batches E cfg (p :: pending') _ s0)
        as [s1 | e] eqn:Hrun.
      * destruct (FileHandler.save_failed_products_by_error _ _)
          as [d r] eqn:Hsave.
        injection H as <- <-. right.
        split; [discriminate |]. split; [lia |]. exists s1, d. auto.
      * injection H as <- <-. left. split; [reflexivity |].
        right. right. split; [discriminate |]. split; [| discriminate].
        destruct (Nat.eq_dec (concurrent_requests cfg) 0) as [Hc | Hc];
          [exact Hc |].
        destruct (run_batches_effect E cfg (p :: pending') ltac:(lia)
                    (py_range (length (p :: pending')) (batch_size cfg)) s0)
          as [s1 [Hs1 _]].
        congruence.
Qed.

End Crawl.

Section CrawlBatches.

Variable E : env.
Variable cfg : config.

(** The batch loop of a run, whatever the window width. *)
Lemma crawl_batch_loop (pending : list string) (starts : list nat) (s0 s1 : state) :
  TikiCrawler.run_batches E cfg pending starts s0 = Ok s1 ->
  Inv.batch_writes (files s0) (files s1)
  /\ exists ev,
       log s1 = log s0 ++ ev
       /\ forall p, In p (Spec.requested ev) ->
            exists start,
              In start starts
              /\ In p (TikiCrawler.batch_ids cfg pending start)
              /\ Dir.lookup (FileHandler.batch_file (start / batch_size cfg))
                   (files s0) = None.
Proof.
  intros Hrun.
  destruct (Nat.eq_dec (concurrent_requests cfg) 0) as [Hc | Hc].
  - rewrite (run_batches_no_window E cfg pending starts Hc _ _ Hrun).
    split; [constructor |]. exists []. split; [now rewrite app_nil_r |].
    intros p [].
  - destruct (run_batches_effect E cfg pending ltac:(lia) starts s0)
      as [s' [Hs' [Hbw [Hlog _]]]].
    rewrite Hrun in Hs'. injection Hs' as <-. auto.
Qed.

(** C3.  A batch whose file [products_<index+1>.json] exists when the loop
    reaches it is skipped; a batch file present at the start of a run holds
    the same content at its end; and no request of the run goes to an
    identifier of a batch whose file was present at the start. *)
Theorem crawl_skips_existing_batches
    (product_ids : list string) (s s' : state) (raised : option exn) :
  TikiCrawler.crawl E cfg product_ids s = (s', raised) ->
  (forall ids start rest s0,
     Dir.lookup (FileHandler.batch_file (start / batch_size cfg)) (files s0)
     <> None ->
     TikiCrawler.run_batches E cfg ids (start :: rest) s0
     = TikiCrawler.run_batches E cfg ids rest s0)
  /\ (forall name f,
        Dir.is_products_file name = true ->
        Dir.lookup name (files s) = Some f ->
        Dir.lookup name (files s') = Some f)
  /\ exists ev,
       log s' = log s ++ ev
       /\ forall k p,
            Dir.lookup (FileHandler.batch_file k) (files s) <> None ->
            In p (TikiCrawler.batch_ids cfg
                    (TikiCrawler.pending E (files s) product_ids)
                    (k * batch_size cfg)) ->
            ~ In p (Spec.requested ev).
Proof.
  intros H. split.
  { intros ids start rest s0 Hl. cbn [TikiCrawler.run_batches].
    unfold Dir.exists_. now destruct (Dir.lookup _ _). }
  destruct (crawl_cases E cfg _ _ _ _ H)
    as [[-> _] | [Hp [Hb [s1 [d [Hrun [Hsave ->]]]]]]].
  - split; [auto |]. exists []. split; [now rewrite app_nil_r |].
    intros k p _ _ [].
  - destruct (crawl_batch_loop _ _ _ _ Hrun) as [Hbw [ev [Hlog Hreq]]].
    change (files (Inv.loaded product_ids s)) with (files s) in *.
    change (log (Inv.loaded product_ids s)) with (log s) in *.
    split.
    + intros name f Hn Hl. cbn [set_files files].
      rewrite (save_failed_products _ _ _ _ _ Hsave Hn).
      apply (batch_writes_lookup _ _ _ _ Hbw Hl).
    + exists ev. split; [exact Hlog |].
      intros k p Hk Hin Hp'.
      destruct (Hreq p Hp') as [start [Hst [Hin' Hnone]]].
      unfold py_range in Hst. apply in_map_iff in Hst.
      destruct Hst as [k' [<- _]].
      rewrite Nat.div_mul in Hnone by lia.
      rewrite batch_ids_firstn in Hin, Hin'.
      assert (k = k') as ->; [| congruence].
      apply (batches_disjoint _ _ _ _ _ (pending_NoDup E (files s) product_ids)
               Hin Hin').
Qed.

End CrawlBatches.


Lemma crawl_skips_existing_batches_witness :
  exists s' raised,
    TikiCrawler.crawl Sample.env_ok Sample.cfg3 ["1"; "2"; "3"; "4"; "5"]
      Sample.resumed = (s', raised)
    /\ Dir.lookup "products_1.json" (files s')
       = Dir.lookup "products_1.json" Sample.done_12
    /\ ~ In "3" (Spec.requested (log s'))
    /\ ~ In "4" (Spec.requested (log s')).
Proof.
  destruct (TikiCrawler.crawl Sample.env_ok Sample.cfg3
              ["1"; "2"; "3"; "4"; "5"] Sample.resumed) as [s' raised] eqn:Hr.
  exists s', raised. split; [reflexivity |].
  destruct (crawl_skips_existing_batches _ _ _ _ _ _ Hr)
    as [_ [Hkeep [ev [Hlog Hskip]]]].
  split; [apply Hkeep; reflexivity |].
  change (log Sample.resumed) with (@nil event) in Hlog.
  rewrite Hlog. cbn [app].
  split; apply (Hskip 0); try discriminate; vm_compute; tauto.
Defined.


(** Three identifiers that all succeed, fetched in batches of two: exactly
    two batch files, of two records and of one. *)
Example crawl_three_by_two :
  let s' := fst (TikiCrawler.crawl Sample.env_ok Sample.cfg3 ["1"; "2"; "3"]
                   Sample.start) in
  map fst (files s') = ["products_1.json"; "products_2.json"]
  /\ map (fun e => match snd e with
                   | Parsed (JArr products) => length products
                   | _ => 0
                   end) (files s') = [2; 1]
  /\ log s' = [Get "1"; Get "2"; Sleep 2; Get "3"; Sleep 2].
Proof. vm_compute. repeat split. Qed.

(** C2 at the failing input.  The folder holds [products_1.json] with the
    products 1 and 2, and the input is 1, 2, 3: product 3 is pending, but
    its batch is numbered 1 again, the file of that number exists, and the
    run ends without a single request and without a new file. *)
Theorem crawl_resume_skips_pending :
  TikiCrawler.pending Sample.env_ok Sample.done_12 ["1"; "2"; "3"] = ["3"]
  /\ exists s',
       TikiCrawler.crawl Sample.env_ok Sample.cfg3 ["1"; "2"; "3"]
         Sample.resumed = (s', None)
       /\ log s' = []
       /\ files s' = Sample.done_12.
Proof.
  split; [vm_compute; reflexivity |].
  eexists. split; [vm_compute; reflexivity |]. split; reflexivity.
Qed.

(** ** The failure list of a run *)

Section Failures.

Lemma replay_products_failures (f : json -> res bool) (data : list json) :
  forall st,
    failed_products (FileHandler.replay_products f data st) = failed_products st.
Proof.
  induction data as [|product data IH]; intros st; [reflexivity |].
  cbn [FileHandler.replay_products].
  destruct (f product) as [[|] |]; [rewrite IH | rewrite IH |]; reflexivity.
Qed.

Lemma replay_failures_failures (failed_data : list json) :
  forall st,
    failed_products (FileHandler.replay_failures failed_data st)
    = failed_products st ++ Inv.replayed failed_data.
Proof.
  induction failed_data as [|item data IH]; intros st;
    cbn [FileHandler.replay_failures Inv.replayed].
  - now rewrite app_nil_r.
  - destruct (Py.get_default item "error_code" (JStr "UNKNOWN")) as [code |];
      [| now rewrite app_nil_r].
    destruct (Py.hashable code); [| now rewrite app_nil_r].
    rewrite IH. cbn [FileHandler.record_failed FileHandler.count_failed
                     failed_products].
    now rewrite <- app_assoc.
Qed.

(** Loading the resume state appends the history of the folder. *)
Lemma load_existing_results_failures (d : dir) (st : CrawlStats)
    (f : json -> res bool) :
  failed_products (FileHandler.load_existing_results d st f)
  = failed_products st ++ Inv.history d.
Proof.
  unfold FileHandler.load_existing_results, Inv.history.
  assert (H1 : forall d st,
    failed_products
      (fold_left (FileHandler.load_file Dir.is_products_file
                    (FileHandler.replay_products f)) d st)
    = failed_products st).
  { clear. intros d. induction d as [|e d IH]; intros st; [reflexivity |].
    cbn [fold_left]. rewrite IH. unfold FileHandler.load_file.
    destruct (Dir.is_products_file (fst e)); [| reflexivity].
    destruct (snd e) as [data |]; [| reflexivity].
    destruct (Py.iter data); [apply replay_products_failures | reflexivity]. }
  rewrite <- (H1 d st).
  generalize (fold_left (FileHandler.load_file Dir.is_products_file
                           (FileHandler.replay_products f)) d st).
  clear. induction d as [|e d IH]; intros st; cbn [fold_left flat_map].
  - now rewrite app_nil_r.
  - rewrite IH, app_assoc. f_equal.
    unfold FileHandler.load_file, Inv.replayed_file.
    destruct (Dir.is_failed_file (fst e)); [| now rewrite app_nil_r].
    destruct (snd e) as [data |]; [| now rewrite app_nil_r].
    destruct (Py.iter data);
      [apply replay_failures_failures | now rewrite app_nil_r].
Qed.

Lemma loaded_failures (product_ids : list string) (s : state) :
  failed_products (stats (Inv.loaded product_ids s))
  = failed_products (stats s) ++ Inv.history (files s).
Proof.
  unfold Inv.loaded. cbn [set_stats stats files].
  now rewrite load_existing_results_failures.
Qed.

Variable E : env.
Variable cfg : config.

(** The failures that the batch loop adds: fresh records, at most one for
    each identifier, in the order of the identifiers. *)
Lemma crawl_batch_failures (pending : list string) (s0 s1 : state) :
  1 <= batch_size cfg ->
  TikiCrawler.run_batches E cfg pending
    (py_range (length pending) (batch_size cfg)) s0 = Ok s1 ->
  exists new,
    failed_products (stats s1) = failed_products (stats s0) ++ new
    /\ Forall Inv.fresh new
    /\ map Inv.pid_of new `sublist_of` pending.
Proof.
  intros Hb Hrun.
  destruct (Nat.eq_dec (concurrent_requests cfg) 0) as [Hc | Hc].
  - rewrite (run_batches_no_window E cfg pending _ Hc _ _ Hrun).
    exists []. split; [now rewrite app_nil_r |].
    split; [constructor | apply sublist_nil_l].
  - destruct (run_batches_effect E cfg pending ltac:(lia)
                (py_range (length pending) (batch_size cfg)) s0)
      as [s' [Hs' [_ [_ [[new [Hfp [Hfr Hsub]]] _]]]]].
    rewrite Hrun in Hs'. injection Hs' as <-.
    exists new. split; [exact Hfp |]. split; [exact Hfr |].
    rewrite flat_map_concat_map, batches_concat in Hsub by exact Hb.
    exact Hsub.
Qed.

Lemma all_failed_not_batch (k : nat) :
  FileHandler.all_failed_path <> FileHandler.batch_file k.
Proof.
  intros H. pose proof (batch_file_is_products k) as Hp.
  rewrite <- H in Hp. discriminate.
Qed.

End Failures.


(** C6 as stated fails: after a run in which only product 42 was requested
    and failed, the consolidated file also holds the record of product 9,
    replayed from [failed_500.json]. *)
Lemma crawl_all_failed_holds_history :
  exists s',
    TikiCrawler.crawl Sample.env_500 Sample.cfg3 ["42"] Sample.after_failure
    = (s', None)
    /\ Spec.requested (log s') = ["42"; "42"; "42"]
    /\ Inv.pid_of Sample.old_failure = "9"
    /\ Dir.lookup "all_failed_products.json" (files s')
       = Some (Parsed (JArr [Sample.old_failure; Sample.new_failure]))
    /\ Dir.lookup "all_failed_products.json" (files s')
       <> Some (Parsed (JArr [Sample.new_failure])).
Proof.
  eexists. split; [vm_compute; reflexivity |].
  split; [reflexivity |]. split; [reflexivity |].
  split; [reflexivity |]. vm_compute. discriminate.
Qed.

(** ** The failure partitions *)

Section Partitions.

Lemma replayed_incl (items : list json) (r : json) :
  In r (Inv.replayed items) -> In r items.
Proof.
  induction items as [|item items IH]; cbn [Inv.replayed]; [tauto |].
  destruct (Py.get_default item _ _) as [code |]; [| intros []].
  destruct (Py.hashable code); [| intros []].
  intros [<- | H]; [now left | right; auto].
Qed.

Lemma fresh_shaped (r : json) : Inv.fresh r -> Inv.shaped r.
Proof.
  intros [pid [code [msg [ts [_ [_ ->]]]]]]. exists pid, code.
  split; reflexivity.
Qed.

Lemma shaped_pid (r : json) :
  Inv.shaped r -> Py.get r "product_id" = Ok (JStr (Inv.pid_of r)).
Proof. intros [pid [code [H _]]]. unfold Inv.pid_of. now rewrite H. Qed.

Lemma shaped_code (r : json) :
  Inv.shaped r ->
  Py.get_default r "error_code" (JStr "UNKNOWN") = Ok (JStr (Inv.code_of r)).
Proof. intros [pid [code [_ H]]]. unfold Inv.code_of. now rewrite H. Qed.

Lemma append_to_grouped (l : list json) (groups : list (json * list json))
    (r : json) :
  Inv.grouped l groups -> Inv.shaped r ->
  Inv.grouped (l ++ [r])
    (FileHandler.append_to (JStr (Inv.code_of r)) r groups).
Proof.
  intros Hg Hr. induction Hg as [|[k items] groups [code [Hk [Hall Hsub]]] Hrest IH];
    cbn [FileHandler.append_to].
  - constructor; [| constructor]. exists (Inv.code_of r). cbn [fst snd].
    split; [reflexivity |]. split; [now constructor |].
    apply sublist_inserts_l. reflexivity.
  - cbn [fst snd] in *. subst k. cbn [Py.key_eqb].
    destruct (String.eqb_spec code (Inv.code_of r)) as [He | Hne].
    + constructor.
      * exists code. cbn [fst snd]. split; [reflexivity |].
        split; [| now apply sublist_app].
        apply Forall_app. split; [exact Hall |]. constructor; [| constructor].
        split; [exact Hr | now symmetry].
      * revert Hrest. apply List.Forall_impl.
        intros g [c [H1 [H2 H3]]]. exists c.
        split; [exact H1 |]. split; [exact H2 |]. now apply sublist_inserts_r.
    + constructor; [| exact IH].
      exists code. cbn [fst snd]. split; [reflexivity |].
      split; [exact Hall |]. now apply sublist_inserts_r.
Qed.

Lemma group_by_error_grouped (rest : list json) :
  forall pre groups,
    Forall Inv.shaped rest -> Inv.grouped pre groups ->
    exists groups',
      FileHandler.group_by_error rest groups = Ok groups'
      /\ Inv.grouped (pre ++ rest) groups'.
Proof.
  induction rest as [|r rest IH]; intros pre groups Hs Hg.
  - exists groups. rewrite app_nil_r. split; [reflexivity | exact Hg].
  - apply Forall_cons in Hs. destruct Hs as [Hr Hs].
    cbn [FileHandler.group_by_error]. rewrite (shaped_code r Hr).
    cbn [bind Py.hashable].
    destruct (IH (pre ++ [r]) _ Hs (append_to_grouped _ _ _ Hg Hr))
      as [groups' [H1 H2]].
    exists groups'. split; [exact H1 |]. now rewrite <- app_assoc in H2.
Qed.

Lemma mapM_product_key (records : list json) :
  Forall Inv.shaped records ->
  mapM FileHandler.product_key records
  = Ok (map (fun r => JStr (Inv.pid_of r)) records).
Proof.
  induction 1 as [|r records Hr _ IH]; [reflexivity |].
  cbn [mapM map]. unfold FileHandler.product_key at 1.
  rewrite (shaped_pid r Hr). cbn [bind Py.hashable]. now rewrite IH.
Qed.

Lemma existsb_key (pid : string) (records : list json) :
  existsb (Py.key_eqb (JStr pid)) (map (fun r => JStr (Inv.pid_of r)) records)
  = true
  <-> In pid (map Inv.pid_of records).
Proof.
  induction records as [|r records IH]; cbn [map existsb In Py.key_eqb].
  - split; [discriminate | tauto].
  - rewrite orb_true_iff, IH, String.eqb_eq. intuition congruence.
Qed.

(** The records that a merge adds are those of the group whose identifier
    is not in the partition yet. *)
Lemma new_among_shaped (records products : list json) :
  Forall Inv.shaped products ->
  exists new_failed,
    FileHandler.new_among (map (fun r => JStr (Inv.pid_of r)) records) products
    = Ok new_failed
    /\ new_failed `sublist_of` products
    /\ forall p, In p new_failed -> ~ In (Inv.pid_of p) (map Inv.pid_of records).
Proof.
  induction 1 as [|p products Hp _ [nf [Hnf [Hsub Hnot]]]].
  - exists []. split; [reflexivity |]. split; [reflexivity | intros p []].
  - cbn [FileHandler.new_among]. unfold FileHandler.product_key.
    rewrite (shaped_pid p Hp). cbn [bind Py.hashable]. rewrite Hnf. cbn [bind].
    destruct (existsb _ _) eqn:He.
    + exists nf. split; [reflexivity |].
      split; [now apply sublist_cons | exact Hnot].
    + exists (p :: nf). split; [reflexivity |].
      split; [now apply sublist_skip |].
      intros q [<- | Hq]; [| now apply Hnot].
      intros Hin. apply existsb_key in Hin. congruence.
Qed.

Lemma sublist_app_not_in (H N l : list json) :
  l `sublist_of` H ++ N ->
  (forall x, In x l -> ~ In x H) ->
  l `sublist_of` N.
Proof.
  induction H as [|h H IH]; cbn [app]; intros Hsub Hnot; [exact Hsub |].
  apply sublist_cons_r in Hsub. destruct Hsub as [Hsub | [l' [-> Hsub]]].
  - apply IH; [exact Hsub |]. intros x Hx Hin. apply (Hnot x Hx). now right.
  - exfalso. apply (Hnot h); now left.
Qed.

End Partitions.

Section Merge.

Lemma sublist_map {A B : Type} (f : A -> B) (l1 l2 : list A) :
  l1 `sublist_of` l2 -> map f l1 `sublist_of` map f l2.
Proof.
  induction 1; cbn [map]; [constructor | now apply sublist_skip
                                        | now apply sublist_cons].
Qed.

Lemma sublist_In {A : Type} (l1 l2 : list A) (x : A) :
  l1 `sublist_of` l2 -> In x l1 -> In x l2.
Proof.
  intros Hs Hx. apply list_elem_of_In. apply (sublist_subseteq _ _ Hs).
  now apply list_elem_of_In.
Qed.

Variable H N : list json.
Hypothesis HN : NoDup (map Inv.pid_of N).

(** Lines 32-50 on a well-formed folder: the partition of the group stays
    well formed, and nothing is lost. *)
Lemma save_group_ok (d : dir) (code : string) (products : list json) :
  Inv.partitions_ok d ->
  Inv.holds H d ->
  Forall (fun r => Inv.shaped r /\ Inv.code_of r = code) products ->
  products `sublist_of` H ++ N ->
  exists d',
    FileHandler.save_group (JStr code) products d = Ok d'
    /\ Inv.partitions_ok d' /\ Inv.holds H d' /\ Inv.extends d d'.
Proof.
  intros [Hnames Hok] Hholds Hprod Hsub.
  unfold FileHandler.save_group. cbn [FileHandler.lower_of bind].
  set (fn := FileHandler.failed_file (PyStr.lower code)).
  assert (Hex : exists records,
    match Dir.lookup fn d with
    | Some (Parsed j) => j
    | _ => JArr []
    end = JArr records
    /\ Inv.partition_ok (PyStr.lower code) records
    /\ (Dir.lookup fn d = Some (Parsed (JArr records))
        \/ (Dir.lookup fn d = None /\ records = []))).
  { destruct (Dir.lookup fn d) as [f |] eqn:Hl.
    - destruct (Hok fn f (lookup_In _ _ _ Hl) (failed_file_is_failed _))
        as [kind [records [Hk [-> Hp]]]].
      apply failed_file_inj in Hk. subst kind.
      exists records. auto.
    - exists []. split; [reflexivity |]. split; [| now right].
      split; constructor. }
  destruct Hex as [records [-> [[Hall Hnd] Hlk]]].
  assert (Hshaped : Forall Inv.shaped records).
  { revert Hall. apply List.Forall_impl. tauto. }
  cbn [Py.iter bind]. rewrite (mapM_product_key records Hshaped). cbn [bind].
  destruct (new_among_shaped records products) as [nf [-> [Hnf Hnot]]].
  { revert Hprod. apply List.Forall_impl. tauto. }
  cbn [bind FileHandler.concat_lists].
  rewrite List.Forall_forall in Hprod.
  assert (Hkept : forall kept,
            Dir.lookup fn d = Some (Parsed (JArr kept)) -> kept = records).
  { intros kept Hk. destruct Hlk as [Hl | [Hl _]]; congruence. }
  eexists. split; [reflexivity |]. split; [| split].
  - split; [now apply NoDup_write |].
    intros n f Hin Hf.
    destruct (In_write_inv _ _ _ _ _ Hnames Hin) as [[-> ->] | [_ Hin']];
      [| now apply Hok].
    exists (PyStr.lower code), (records ++ nf).
    split; [reflexivity |]. split; [reflexivity |]. split.
    + apply Forall_app. split; [exact Hall |].
      apply List.Forall_forall. intros p Hp.
      destruct (Hprod p (sublist_In _ _ _ Hnf Hp)) as [Hs Hc].
      split; [exact Hs | now rewrite Hc].
    + rewrite map_app. apply NoDup_app. split; [exact Hnd |]. split.
      * intros x Hx Hx'. apply list_elem_of_In in Hx, Hx'.
        apply in_map_iff in Hx'. destruct Hx' as [p [<- Hp]].
        now apply (Hnot p Hp).
      * apply (sublist_NoDup _ _ HN). apply sublist_map.
        apply (sublist_app_not_in H); [now transitivity products |].
        intros x Hx HxH.
        destruct (Hholds x HxH) as [kept [Hl Hin']].
        destruct (Hprod x (sublist_In _ _ _ Hnf Hx)) as [_ Hc].
        rewrite Hc in Hl. apply Hkept in Hl. subst kept.
        apply (Hnot x Hx). now apply in_map.
  - intros r Hr. destruct (Hholds r Hr) as [kept [Hl Hin']].
    rewrite lookup_write.
    destruct (String.eqb_spec fn
                (FileHandler.failed_file (PyStr.lower (Inv.code_of r))))
      as [He | _].
    + rewrite <- He in Hl. apply Hkept in Hl. subst kept.
      exists (records ++ nf). split; [reflexivity |].
      apply in_app_iff. now left.
    + exists kept. auto.
  - intros name kept Hl. rewrite lookup_write.
    destruct (String.eqb_spec fn name) as [<- | _].
    + apply Hkept in Hl. subst kept. now exists nf.
    + exists []. now rewrite app_nil_r.
Qed.

Lemma extends_trans (d1 d2 d3 : dir) :
  Inv.extends d1 d2 -> Inv.extends d2 d3 -> Inv.extends d1 d3.
Proof.
  intros H1 H2 name records Hl.
  destruct (H1 name records Hl) as [e1 Hl1].
  destruct (H2 name _ Hl1) as [e2 Hl2].
  exists (e1 ++ e2). now rewrite app_assoc.
Qed.

Lemma save_groups_ok (groups : list (json * list json)) :
  forall d,
    Inv.partitions_ok d ->
    Inv.holds H d ->
    Inv.grouped (H ++ N) groups ->
    exists d',
      FileHandler.save_groups groups d = (d', None)
      /\ Inv.partitions_ok d' /\ Inv.holds H d' /\ Inv.extends d d'.
Proof.
  induction groups as [|[key products] groups IH]; intros d Hok Hh Hg.
  - exists d. split; [reflexivity |]. split; [exact Hok |].
    split; [exact Hh |]. intros name records Hl. exists [].
    now rewrite app_nil_r.
  - apply Forall_cons in Hg. destruct Hg as [[code [Hk [Hall Hsub]]] Hg].
    cbn [fst snd] in *. subst key. cbn [FileHandler.save_groups].
    destruct (save_group_ok d code products Hok Hh Hall Hsub)
      as [d1 [-> [Hok1 [Hh1 He1]]]].
    destruct (IH d1 Hok1 Hh1 Hg) as [d2 [-> [Hok2 [Hh2 He2]]]].
    exists d2. split; [reflexivity |]. split; [exact Hok2 |].
    split; [exact Hh2 |]. now apply (extends_trans d d1 d2).
Qed.

(** [save_failed_products_by_error] on the history [H] followed by the
    new failures [N]. *)
Lemma save_failed_ok (d : dir) :
  Inv.partitions_ok d ->
  Inv.holds H d ->
  Forall Inv.shaped H ->
  Forall Inv.fresh N ->
  exists d',
    FileHandler.save_failed_products_by_error (H ++ N) d = (d', None)
    /\ Inv.partitions_ok d'
    /\ forall name records,
         Dir.is_failed_file name = true ->
         Dir.lookup name d = Some (Parsed (JArr records)) ->
         exists extra,
           Dir.lookup name d' = Some (Parsed (JArr (records ++ extra))).
Proof.
  intros Hok Hh HsH HfN. unfold FileHandler.save_failed_products_by_error.
  destruct (H ++ N) as [|r rs] eqn:Hlist.
  - exists d. split; [reflexivity |]. split; [exact Hok |].
    intros name records _ Hl. exists []. now rewrite app_nil_r.
  - rewrite <- Hlist.
    destruct (group_by_error_grouped (H ++ N) [] [])
      as [groups [-> Hg]]; [| constructor |].
    { apply Forall_app. split; [exact HsH |].
      revert HfN. apply List.Forall_impl, fresh_shaped. }
    cbn [app] in Hg.
    destruct (save_groups_ok groups d Hok Hh Hg) as [d1 [-> [Hok1 [_ He1]]]].
    eexists. split; [reflexivity |].
    split; [now apply partitions_ok_write |].
    intros name records Hn Hl. destruct (He1 name records Hl) as [extra Hl1].
    exists extra. rewrite lookup_write.
    destruct (String.eqb_spec FileHandler.all_failed_path name) as [<- | _];
      [discriminate | exact Hl1].
Qed.

End Merge.

Section Reruns.

(** The history replayed from a well-formed folder is kept in it. *)
Lemma history_ok (d : dir) :
  Inv.partitions_ok d ->
  Forall Inv.shaped (Inv.history d) /\ Inv.holds (Inv.history d) d.
Proof.
  intros [Hnames Hok].
  assert (Hr : forall r, In r (Inv.history d) ->
            Inv.shaped r
            /\ exists kept,
                 Dir.lookup (FileHandler.failed_file
                               (PyStr.lower (Inv.code_of r))) d
                 = Some (Parsed (JArr kept))
                 /\ In r kept).
  { intros r Hin. unfold Inv.history in Hin. apply in_flat_map in Hin.
    destruct Hin as [[name f] [He Hin]]. unfold Inv.replayed_file in Hin.
    cbn [fst snd] in Hin.
    destruct (Dir.is_failed_file name) eqn:Hf; [| destruct Hin].
    destruct (Hok name f He Hf) as [kind [records [-> [-> [Hall _]]]]].
    cbn [Py.iter] in Hin. apply replayed_incl in Hin.
    rewrite List.Forall_forall in Hall. destruct (Hall r Hin) as [Hs Hc].
    split; [exact Hs |]. exists records. rewrite Hc.
    split; [now apply In_lookup | exact Hin]. }
  split.
  - apply List.Forall_forall. intros r Hin. now apply Hr.
  - intros r Hin. now apply Hr.
Qed.

Lemma holds_batch_writes (records : list json) (d d' : dir) :
  Inv.batch_writes d d' -> Inv.holds records d -> Inv.holds records d'.
Proof.
  intros Hbw Hh r Hr. destruct (Hh r Hr) as [kept [Hl Hin]].
  exists kept. split; [| exact Hin]. apply (batch_writes_lookup _ _ _ _ Hbw Hl).
Qed.

(** One run of a fresh crawler over a well-formed folder. *)
Lemma crawl_keeps_partitions (E : env) (cfg : config)
    (product_ids : list string) (s s' : state) (raised : option exn) :
  Inv.partitions_ok (files s) ->
  failed_products (stats s) = [] ->
  TikiCrawler.crawl E cfg product_ids s = (s', raised) ->
  Inv.partitions_ok (files s')
  /\ (forall name records,
        Dir.is_failed_file name = true ->
        Dir.lookup name (files s) = Some (Parsed (JArr records)) ->
        exists extra,
          Dir.lookup name (files s') = Some (Parsed (JArr (records ++ extra))))
  /\ (1 <= batch_size cfg -> 1 <= concurrent_requests cfg -> raised = None).
Proof.
  intros Hok Hfresh Hrun.
  destruct (crawl_cases E cfg _ _ _ _ Hrun)
    as [[-> Hwhy] | [_ [Hb [s1 [d [Hloop [Hsave ->]]]]]]].
  - split; [exact Hok |]. split.
    + intros name records _ Hl. exists []. now rewrite app_nil_r.
    + intros Hb Hc. destruct Hwhy as [[_ Hr] | [[_ [Hb0 _]] | [_ [Hc0 _]]]];
        [exact Hr | lia | lia].
  - destruct (crawl_batch_failures E cfg _ _ _ Hb Hloop)
      as [new [Hfp [Hfr Hsub]]].
    destruct (crawl_batch_loop E cfg _ _ _ _ Hloop) as [Hbw _].
    rewrite loaded_failures, Hfresh in Hfp. cbn [app] in Hfp.
    change (files (Inv.loaded product_ids s)) with (files s) in Hbw.
    destruct (history_ok (files s) Hok) as [Hshaped Hholds].
    assert (HN : NoDup (map Inv.pid_of new)).
    { apply (sublist_NoDup _ _ (pending_NoDup E (files s) product_ids) Hsub). }
    destruct (save_failed_ok (Inv.history (files s)) new HN (files s1)
                (batch_writes_partitions_ok _ _ Hbw Hok)
                (holds_batch_writes _ _ _ Hbw Hholds) Hshaped Hfr)
      as [d' [Hsave' [Hok' Hext]]].
    rewrite <- Hfp, Hsave in Hsave'. injection Hsave' as <- ->.
    cbn [set_files files]. split; [exact Hok' |]. split; [| auto].
    intros name records Hn Hl. apply (Hext name records Hn).
    apply (batch_writes_lookup _ _ _ _ Hbw Hl).
Qed.

Lemma partitions_ok_NoDup (d : dir) (name : string) (records : list json) :
  Inv.partitions_ok d ->
  Dir.is_failed_file name = true ->
  Dir.lookup name d = Some (Parsed (JArr records)) ->
  NoDup (map Inv.pid_of records).
Proof.
  intros [_ Hok] Hn Hl.
  destruct (Hok name _ (lookup_In _ _ _ Hl) Hn) as [kind [recs [_ [He [_ Hnd]]]]].
  now injection He as ->.
Qed.

(** C4.  Over a folder whose failure partitions hold at most one record per
    product_id, every sequence of runs leaves partitions that hold at most
    one record per product_id: each partition keeps the records it had, and
    the records added after them carry identifiers that the partition did
    not hold and that differ from one another. *)
Theorem reruns_keep_partitions
    (runs : list (env * config * list string)) (d : dir) :
  Inv.partitions_ok d ->
  Inv.partitions_ok (Inv.run_all runs d)
  /\ forall name records,
       Dir.is_failed_file name = true ->
       Dir.lookup name d = Some (Parsed (JArr records)) ->
       exists extra,
         Dir.lookup name (Inv.run_all runs d)
         = Some (Parsed (JArr (records ++ extra)))
         /\ NoDup (map Inv.pid_of (records ++ extra)).
Proof.
  revert d. induction runs as [|[[E cfg] ids] runs IH]; intros d Hok.
  - split; [exact Hok |]. intros name records Hn Hl. exists [].
    rewrite app_nil_r. split; [exact Hl |].
    apply (partitions_ok_NoDup d name records Hok Hn Hl).
  - set (s := {| stats := CrawlStats.init; files := d; log := [] |}).
    change (Inv.run_all ((E, cfg, ids) :: runs) d)
      with (Inv.run_all runs (files (fst (TikiCrawler.crawl E cfg ids s)))).
    destruct (TikiCrawler.crawl E cfg ids s) as [s' raised] eqn:Hrun.
    destruct (crawl_keeps_partitions E cfg ids s s' raised Hok eq_refl Hrun)
      as [Hok' [Hext _]].
    cbn [fst] in *. change (files s) with d in Hext.
    destruct (IH (files s') Hok') as [Hfinal Hext'].
    split; [exact Hfinal |].
    intros name records Hn Hl.
    destruct (Hext name records Hn Hl) as [e1 Hl1].
    destruct (Hext' name _ Hn Hl1) as [e2 [Hl2 Hnd]].
    exists (e1 ++ e2). rewrite app_assoc. auto.
Qed.

End Reruns.

Lemma partitions_ok_sample : Inv.partitions_ok Sample.failed_9.
Proof.
  split.
  - unfold Sample.failed_9. cbn [map fst].
    apply NoDup_cons. split; [| apply NoDup_singleton].
    intros Hin. apply list_elem_of_In in Hin. destruct Hin as [Hin | []].
    discriminate.
  - intros name f [Hin | [Hin | []]] Hf; injection Hin as <- <-;
      [| discriminate].
    exists "500", [Sample.old_failure].
    split; [reflexivity |]. split; [reflexivity |]. split.
    + constructor; [| constructor]. split; [| reflexivity].
      exists "9", "500". split; reflexivity.
    + apply NoDup_singleton.
Qed.

Lemma reruns_keep_partitions_witness :
  Inv.partitions_ok (Inv.run_all Sample.two_runs Sample.failed_9)
  /\ exists extra,
       Dir.lookup "failed_500.json" (Inv.run_all Sample.two_runs Sample.failed_9)
       = Some (Parsed (JArr ([Sample.old_failure] ++ extra)))
       /\ NoDup (map Inv.pid_of ([Sample.old_failure] ++ extra))
       /\ map Inv.pid_of extra = ["42"].
Proof.
  destruct (reruns_keep_partitions Sample.two_runs Sample.failed_9
              partitions_ok_sample)
    as [Hok Hext].
  split; [exact Hok |].
  destruct (Hext "failed_500.json" [Sample.old_failure] eq_refl eq_refl)
    as [extra [Hl Hnd]].
  exists extra. split; [exact Hl |]. split; [exact Hnd |].
  vm_compute in Hl. injection Hl as <-. reflexivity.
Defined.

(** X4.  Every request of a run goes to an input identifier that no batch
    file present at the start covers. *)
Theorem crawl_requests_pending (E : env) (cfg : config)
    (product_ids : list string) (s s' : state) (raised : option exn) :
  TikiCrawler.crawl E cfg product_ids s = (s', raised) ->
  exists ev,
    log s' = log s ++ ev
    /\ forall p, In p (Spec.requested ev) ->
         In p product_ids
         /\ p ∉ DeduplicationUtils.get_already_crawled_ids E (files s).
Proof.
  intros H.
  destruct (crawl_cases E cfg _ _ _ _ H)
    as [[-> _] | [_ [_ [s1 [d [Hrun [_ ->]]]]]]].
  - exists []. split; [now rewrite app_nil_r | intros p []].
  - destruct (crawl_batch_loop E cfg _ _ _ _ Hrun) as [_ [ev [Hlog Hreq]]].
    exists ev. split; [exact Hlog |]. intros p Hp.
    destruct (Hreq p Hp) as [start [_ [Hin _]]].
    apply (pending_In E (files s) product_ids p).
    rewrite batch_ids_firstn in Hin.
    apply list_elem_of_In in Hin.
    apply list_elem_of_In.
    apply (sublist_subseteq _ _ (sublist_drop _ start)).
    apply (sublist_subseteq _ _ (sublist_take _ (batch_size cfg))).
    exact Hin.
Qed.

Lemma crawl_requests_pending_witness :
  exists ev,
    log (fst (TikiCrawler.crawl Sample.env_ok Sample.cfg3 ["1"; "2"; "3"]
                Sample.start)) = log Sample.start ++ ev
    /\ forall p, In p (Spec.requested ev) ->
         In p ["1"; "2"; "3"]
         /\ p ∉ DeduplicationUtils.get_already_crawled_ids Sample.env_ok
                  (files Sample.start).
Proof.
  destruct (TikiCrawler.crawl Sample.env_ok Sample.cfg3 ["1"; "2"; "3"]
              Sample.start) as [s' raised] eqn:H.
  apply (crawl_requests_pending Sample.env_ok Sample.cfg3 ["1"; "2"; "3"]
           Sample.start s' raised H).
Defined.

(** An empty folder is well formed: the invariant of the partitions holds
    for every sequence of runs that starts from nothing. *)
Lemma partitions_ok_nil : Inv.partitions_ok [].
Proof. split; [constructor | intros name f []]. Qed.

(** * Further properties of the code *)

(** ** deduplicate_list and the pending list *)

Section Dedup.

Lemma dedup_fold_prefix (items keys : list string) :
  exists more,
    fold_left (fun keys x => if existsb (String.eqb x) keys then keys
                             else keys ++ [x]) items keys
    = keys ++ more.
Proof.
  revert keys. induction items as [|a items IH]; intros keys; cbn [fold_left].
  - exists []. now rewrite app_nil_r.
  - destruct (existsb (String.eqb a) keys); [apply IH |].
    destruct (IH (keys ++ [a])) as [more ->].
    exists (a :: more). now rewrite <- app_assoc.
Qed.

Lemma dedup_fold_NoDup (items keys : list string) :
  NoDup (keys ++ items) ->
  fold_left (fun keys x => if existsb (String.eqb x) keys then keys
                           else keys ++ [x]) items keys
  = keys ++ items.
Proof.
  revert keys. induction items as [|a items IH]; intros keys Hnd;
    cbn [fold_left]; [now rewrite app_nil_r |].
  assert (Ha : existsb (String.eqb a) keys = false).
  { destruct (existsb (String.eqb a) keys) eqn:He; [| reflexivity].
    apply existsb_eqb_In in He. apply NoDup_app in Hnd.
    destruct Hnd as [_ [Hd _]]. exfalso.
    apply (Hd a); [now apply list_elem_of_In | left]. }
  rewrite Ha.
  rewrite IH; rewrite <- app_assoc; [reflexivity | exact Hnd].
Qed.

End Dedup.

(** X1.  [deduplicate_list] returns a list without repetition that has the
    members of its input, and it keeps the order of the first occurrences:
    the result for a list is the beginning of the result for any longer
    list. *)
Theorem deduplicate_list_first_occurrences (items : list string) :
  NoDup (DeduplicationUtils.deduplicate_list items)
  /\ (forall x, In x (DeduplicationUtils.deduplicate_list items) <-> In x items)
  /\ forall more,
       exists tail,
         DeduplicationUtils.deduplicate_list (items ++ more)
         = DeduplicationUtils.deduplicate_list items ++ tail.
Proof.
  split; [apply deduplicate_list_NoDup |].
  split; [apply deduplicate_list_In |].
  intros more. unfold DeduplicationUtils.deduplicate_list.
  rewrite fold_left_app. apply dedup_fold_prefix.
Qed.

(** X2.  A list without repetition is left as it is by [deduplicate_list];
    hence deduplicating twice is deduplicating once. *)
Theorem deduplicate_list_fixed (items : list string) :
  (NoDup items -> DeduplicationUtils.deduplicate_list items = items)
  /\ DeduplicationUtils.deduplicate_list
       (DeduplicationUtils.deduplicate_list items)
     = DeduplicationUtils.deduplicate_list items.
Proof.
  assert (H : forall l, NoDup l -> DeduplicationUtils.deduplicate_list l = l).
  { intros l Hl. apply (dedup_fold_NoDup l []). exact Hl. }
  split; [apply H | apply H, deduplicate_list_NoDup].
Qed.

Lemma deduplicate_list_fixed_witness :
  DeduplicationUtils.deduplicate_list ["3"; "1"; "2"] = ["3"; "1"; "2"].
Proof.
  apply (proj1 (deduplicate_list_fixed ["3"; "1"; "2"])).
  repeat (apply NoDup_cons; split;
          [intros H; apply list_elem_of_In in H; simpl in H;
           intuition discriminate |]).
  constructor.
Defined.

(** X3.  The list that [crawl] schedules has no repetition, holds exactly
    the input identifiers that no persisted batch covers, and keeps the
    order of the deduplicated input. *)
Theorem pending_is_filtered_input (E : env) (d : dir) (product_ids : list string) :
  NoDup (TikiCrawler.pending E d product_ids)
  /\ (forall x, In x (TikiCrawler.pending E d product_ids) <->
                In x product_ids
                /\ x ∉ DeduplicationUtils.get_already_crawled_ids E d)
  /\ TikiCrawler.pending E d product_ids
     `sublist_of` DeduplicationUtils.deduplicate_list product_ids.
Proof.
  split; [apply pending_NoDup |]. split; [apply pending_In |].
  unfold TikiCrawler.pending, TikiCrawler.filter_uncrawled_products.
  destruct (decide _); [reflexivity | apply sublist_filter].
Qed.

(** ** The index of the crawled identifiers *)

Section CrawledIndex.

Variable E : env.

Lemma scan_ids_elem (items : list json) :
  forall (acc : gset string) (x : string),
    x ∈ DeduplicationUtils.scan_ids E items acc <->
    x ∈ acc
    \/ exists product,
         Ext.reached items product /\ Ext.crawled_id E product = Some x.
Proof.
  induction items as [|p items IH]; intros acc x;
    cbn [DeduplicationUtils.scan_ids].
  - split; [now left |]. intros [H | [product [[before [after [H _]]] _]]];
      [exact H |]. now destruct before.
  - assert (Hstep : forall product,
              Ext.reached (p :: items) product <->
              product = p
              \/ (Ext.is_dict p = true /\ Ext.reached items product)).
    { intros product. split.
      - intros [before [after [Heq Hall]]]. destruct before as [|b before].
        + injection Heq as <- _. now left.
        + injection Heq as <- ->. cbn [forallb] in Hall.
          apply andb_true_iff in Hall. destruct Hall as [Hb Hall].
          right. split; [exact Hb |]. now exists before, after.
      - intros [-> | [Hp [before [after [-> Hall]]]]].
        + now exists [], items.
        + exists (p :: before), after. split; [reflexivity |].
          cbn [forallb]. now rewrite Hp. }
    unfold Ext.crawled_id in *.
    destruct p as [| | | | |fields]; cbn [Py.get Py.get_default];
      try (split; [now left |];
           intros [H | [product [Hr Hc]]]; [exact H |];
           apply Hstep in Hr; destruct Hr as [-> | [Hd _]]; discriminate).
    destruct (Py.truthy _) eqn:Ht.
    + rewrite IH, elem_of_union, elem_of_singleton. split.
      * intros [[H | ->] | [product [Hr Hc]]]; [now left | right | right].
        -- exists (JObj fields). split; [apply Hstep; now left |].
           cbn [Py.get Py.get_default]. now rewrite Ht.
        -- exists product. split; [apply Hstep; right; now split | exact Hc].
      * intros [H | [product [Hr Hc]]]; [now left; left |].
        apply Hstep in Hr. destruct Hr as [-> | [_ Hr]].
        -- cbn [Py.get Py.get_default] in Hc. rewrite Ht in Hc.
           injection Hc as <-. left. now right.
        -- right. now exists product.
    + rewrite IH. split.
      * intros [H | [product [Hr Hc]]]; [now left | right].
        exists product. split; [apply Hstep; right; now split | exact Hc].
      * intros [H | [product [Hr Hc]]]; [now left |].
        apply Hstep in Hr. destruct Hr as [-> | [_ Hr]].
        -- cbn [Py.get Py.get_default] in Hc. rewrite Ht in Hc. discriminate.
        -- right. now exists product.
Qed.

Lemma scan_folder_elem (d : dir) :
  forall (acc : gset string) (x : string),
    x ∈ fold_left (DeduplicationUtils.scan_file E) d acc <->
    x ∈ acc
    \/ exists name data items product,
         In (name, Parsed data) d
         /\ Dir.is_products_file name = true
         /\ Py.iter data = Ok items
         /\ Ext.reached items product
         /\ Ext.crawled_id E product = Some x.
Proof.
  induction d as [|[name f] d IH]; intros acc x; cbn [fold_left].
  - split; [now left |]. intros [H | [? [? [? [? [[] _]]]]]]. exact H.
  - rewrite IH. unfold DeduplicationUtils.scan_file. cbn [fst snd].
    split.
    + intros [H | [n [data [items [p [Hin Hrest]]]]]].
      * destruct (Dir.is_products_file name) eqn:Hn; [| now left].
        destruct f as [data |]; [| now left].
        destruct (Py.iter data) as [items |] eqn:Hi; [| now left].
        apply scan_ids_elem in H. destruct H as [H | [p [Hr Hc]]]; [now left |].
        right. exists name, data, items, p. split; [now left | auto].
      * right. exists n, data, items, p. split; [now right | exact Hrest].
    + intros [H | [n [data [items [p [[Hin | Hin] [Hn [Hi [Hr Hc]]]]]]]]].
      * left. destruct (Dir.is_products_file name); [| exact H].
        destruct f as [data |]; [| exact H].
        destruct (Py.iter data); [| exact H].
        apply scan_ids_elem. now left.
      * injection Hin as -> ->. left. rewrite Hn, Hi.
        apply scan_ids_elem. right. now exists p.
      * right. exists n, data, items, p. auto.
Qed.

(** X5.  An identifier counts as already crawled exactly when some readable
    [products_*.json] file of the folder holds a record with a truthy [id]
    whose [str] is that identifier, and no item before that record in the
    file fails to be a dict: the scan of a file stops at the first item
    that is not a dict and keeps what it found before; other files and
    unreadable files contribute nothing. *)
Theorem get_already_crawled_ids_elem (d : dir) (x : string) :
  x ∈ DeduplicationUtils.get_already_crawled_ids E d <->
  exists name data items product,
    In (name, Parsed data) d
    /\ Dir.is_products_file name = true
    /\ Py.iter data = Ok items
    /\ Ext.reached items product
    /\ Ext.crawled_id E product = Some x.
Proof.
  unfold DeduplicationUtils.get_already_crawled_ids.
  rewrite scan_folder_elem. split; [| now right].
  intros [H | H]; [| exact H]. now apply not_elem_of_empty in H.
Qed.

End CrawledIndex.

(** ** What a saved batch means to the next run *)

Section SavedBatch.

Lemma write_absent (name : string) (c : json) (d : dir) :
  Dir.lookup name d = None -> Dir.write name c d = d ++ [(name, Parsed c)].
Proof.
  induction d as [|[n f] d IH]; cbn [Dir.lookup Dir.write app]; [reflexivity |].
  destruct (String.eqb n name); [discriminate |].
  intros H. now rewrite IH.
Qed.

Lemma reached_dicts (items : list json) (product : json) :
  forallb Ext.is_dict items = true ->
  Ext.reached items product <-> In product items.
Proof.
  intros Hall. split.
  - intros [before [after [-> _]]]. apply in_app_iff. right. now left.
  - intros Hin. apply in_split in Hin. destruct Hin as [before [after ->]].
    exists before, after. split; [reflexivity |].
    rewrite forallb_app in Hall. now apply andb_true_iff in Hall.
Qed.

(** X6.  Once a batch is saved under a free name, the identifiers that count
    as crawled are those that counted before and those of the saved records
    with a truthy [id]. *)
Theorem saved_batch_is_crawled (E : env) (d : dir) (products : list json)
    (batch_index : nat) (x : string) :
  Dir.lookup (FileHandler.batch_file batch_index) d = None ->
  forallb Ext.is_dict products = true ->
  x ∈ DeduplicationUtils.get_already_crawled_ids E
        (FileHandler.save_batch products batch_index d)
  <-> x ∈ DeduplicationUtils.get_already_crawled_ids E d
      \/ exists product,
           In product products /\ Ext.crawled_id E product = Some x.
Proof.
  intros Hfree Hdicts.
  unfold FileHandler.save_batch, DeduplicationUtils.get_already_crawled_ids.
  rewrite (write_absent _ _ _ Hfree), fold_left_app. cbn [fold_left].
  unfold DeduplicationUtils.scan_file at 1. cbn [fst snd Py.iter].
  rewrite batch_file_is_products, scan_ids_elem.
  split; (intros [H | [p [Hr Hc]]]; [now left | right]);
    exists p; (split; [| exact Hc]); now apply (reached_dicts products).
Qed.

Lemma saved_batch_is_crawled_witness :
  "7" ∈ DeduplicationUtils.get_already_crawled_ids Sample.env_ok
          (FileHandler.save_batch [Sample.product (JNum 7) (JNum 0)] 2
             Sample.done_12).
Proof.
  apply (saved_batch_is_crawled Sample.env_ok Sample.done_12
           [Sample.product (JNum 7) (JNum 0)] 2 "7"); [reflexivity ..|].
  right. eexists. split; [now left | reflexivity].
Defined.

Lemma replay_products_dicts (products : list json) :
  forallb Ext.is_dict products = true ->
  forall st,
    FileHandler.replay_products TikiCrawler.has_missing_fields products st
    = Ext.bump (length products) (Ext.count_incomplete products) st.
Proof.
  induction products as [|p products IH]; intros Hall st.
  - destruct st. unfold Ext.bump. cbn. f_equal; lia.
  - cbn [forallb] in Hall. apply andb_true_iff in Hall.
    destruct Hall as [Hp Hall]. destruct p as [| | | | |fields]; try discriminate.
    cbn [FileHandler.replay_products]. rewrite has_missing_fields_obj.
    unfold Ext.count_incomplete. cbn [List.filter length].
    destruct (Spec.incomplete (JObj fields)); rewrite (IH Hall);
      destruct st; unfold Ext.bump, Ext.count_incomplete; cbn; f_equal; lia.
Qed.

Lemma replay_failures_bump (n m : nat) (failed_data : list json) :
  forall st,
    FileHandler.replay_failures failed_data (Ext.bump n m st)
    = Ext.bump n m (FileHandler.replay_failures failed_data st).
Proof.
  induction failed_data as [|item data IH]; intros st;
    cbn [FileHandler.replay_failures]; [reflexivity |].
  destruct (Py.get_default item "error_code" (JStr "UNKNOWN")) as [code |];
    [| reflexivity].
  destruct (Py.hashable code); [| reflexivity].
  now rewrite <- IH.
Qed.

Lemma load_failures_bump (n m : nat) (d : dir) :
  forall st,
    fold_left (FileHandler.load_file Dir.is_failed_file
                 FileHandler.replay_failures) d (Ext.bump n m st)
    = Ext.bump n m
        (fold_left (FileHandler.load_file Dir.is_failed_file
                      FileHandler.replay_failures) d st).
Proof.
  induction d as [|e d IH]; intros st; cbn [fold_left]; [reflexivity |].
  rewrite <- IH. f_equal. unfold FileHandler.load_file.
  destruct (Dir.is_failed_file (fst e)); [| reflexivity].
  destruct (snd e) as [data |]; [| reflexivity].
  destruct (Py.iter data); [apply replay_failures_bump | reflexivity].
Qed.

(** X7.  A run that finds a batch saved under a free name replays it into
    the tracker: compared with the folder without that batch, the completed
    count is higher by the number of saved records and the
    incomplete-record count by the number of incomplete ones; nothing else
    differs. *)
Theorem saved_batch_is_replayed (d : dir) (products : list json)
    (batch_index : nat) (st : CrawlStats) :
  Dir.lookup (FileHandler.batch_file batch_index) d = None ->
  forallb Ext.is_dict products = true ->
  FileHandler.load_existing_results
    (FileHandler.save_batch products batch_index d) st
    TikiCrawler.has_missing_fields
  = Ext.bump (length products) (Ext.count_incomplete products)
      (FileHandler.load_existing_results d st TikiCrawler.has_missing_fields).
Proof.
  intros Hfree Hdicts.
  unfold FileHandler.save_batch, FileHandler.load_existing_results.
  rewrite (write_absent _ _ _ Hfree), !fold_left_app. cbn [fold_left].
  unfold FileHandler.load_file at 1 3. cbn [fst snd Py.iter].
  rewrite batch_file_not_failed, batch_file_is_products.
  rewrite (replay_products_dicts products Hdicts).
  apply load_failures_bump.
Qed.

Lemma saved_batch_is_replayed_witness :
  completed
    (FileHandler.load_existing_results
       (FileHandler.save_batch [Sample.product (JNum 7) (JNum 0)] 2
          Sample.done_12)
       CrawlStats.init TikiCrawler.has_missing_fields) = 3.
Proof.
  rewrite (saved_batch_is_replayed Sample.done_12
             [Sample.product (JNum 7) (JNum 0)] 2 CrawlStats.init);
    reflexivity.
Defined.

End SavedBatch.

(** ** More on the fetch worker *)

Section Retry.

Variable E : env.
Variable product_id : string.
Variable retries : nat.

(** An attempt returns a record exactly for a well-formed OK response. *)
Lemma attempt_once_cases (o : outcome) :
  (exists product_data,
     Ext.answers o product_data
     /\ TikiCrawler.attempt_once o
        = TikiCrawler.Fetched product_data (Spec.incomplete product_data))
  \/ (exists err, TikiCrawler.attempt_once o = TikiCrawler.Failed err
                  /\ forall product_data, ~ Ext.answers o product_data).
Proof.
  assert (Hh : forall e, exists err, TikiCrawler.handler e = TikiCrawler.Failed err).
  { intros e. unfold TikiCrawler.handler. destruct (exn_kind e); eauto. }
  destruct o as [e | status body]; cbn [TikiCrawler.attempt_once].
  - right. destruct (Hh e) as [err ->]. exists err. split; [reflexivity |].
    intros pd [data [H _]]. discriminate.
  - destruct (Nat.eqb_spec status 200) as [-> | Hne].
    + destruct body as [data | e]; cbn [bind].
      * destruct (TikiCrawler.product_data_of data) as [pd | e] eqn:Hpd;
          cbn [bind].
        -- left. exists pd. split; [now exists data |].
           destruct (product_data_of_obj _ _ Hpd) as [fields [-> _]].
           rewrite has_missing_fields_obj. reflexivity.
        -- right. destruct (Hh e) as [err ->]. exists err.
           split; [reflexivity |]. intros pd [data' [H H']].
           injection H as <-. congruence.
      * right. destruct (Hh e) as [err ->]. exists err. split; [reflexivity |].
        intros pd [data [H _]]. discriminate.
    + right. eexists. split; [reflexivity |].
      intros pd [data [H _]]. injection H as H _. contradiction.
Qed.

(** The retry loop when every attempt fails, with an error that satisfies
    [P]. *)
Lemma attempts_failing (P : string -> Prop) :
  (forall t, exists err,
     TikiCrawler.attempt_once (server E t product_id) = TikiCrawler.Failed err
     /\ P err) ->
  forall todo attempt last_error s,
  exists last,
    match todo with
    | O => last = last_error
    | S _ => exists err, last = Some err /\ P err
    end
    /\ TikiCrawler.attempts E retries product_id todo attempt last_error s
       = (let* error_code := TikiCrawler.error_code_of last in
          Ok (None,
              set_stats
                (CrawlStats.add_failure (Some error_code) (Some product_id) last
                   (now E (length
                             (log s ++ flat_map (Spec.backoff_step product_id retries)
                                        (seq attempt todo)))))
                {| stats := stats s; files := files s;
                   log := log s ++ flat_map (Spec.backoff_step product_id retries)
                                    (seq attempt todo) |})).
Proof.
  intros Hsrv todo.
  induction todo as [|todo IH]; intros attempt last_error s.
  - exists last_error. split; [reflexivity |].
    cbn [seq flat_map TikiCrawler.attempts]. rewrite app_nil_r.
    destruct s; reflexivity.
  - cbn [TikiCrawler.attempts].
    destruct (Hsrv (length (log s))) as [err [-> Herr]].
    match goal with
    | |- context [TikiCrawler.attempts E retries product_id todo ?a ?l ?s0] =>
        destruct (IH a l s0) as [last [Hlast Heq]]; rewrite Heq
    end.
    assert (Hl : exists err', last = Some err' /\ P err').
    { destruct todo; [subst last; eauto | exact Hlast]. }
    exists last. split; [exact Hl |].
    cbn [seq flat_map].
    change (Spec.backoff_step product_id retries attempt)
      with (Get product_id
            :: (if attempt <? retries - 1 then [Sleep (attempt + 1)] else [])).
    rewrite Nat.mul_1_l.
    replace (attempt + 1) with (S attempt) by lia.
    destruct (attempt <? retries - 1); cbn [emit stats files log app];
      rewrite <- ?app_assoc; reflexivity.
Qed.

(** The retry loop when the first [k] attempts fail and the next one gets
    its record. *)
Lemma attempts_retry (product_data : json) (missing : bool) :
  forall k todo attempt last_error s,
    k < todo ->
    attempt + todo = retries ->
    (forall j, j < k ->
       exists err,
         TikiCrawler.attempt_once (server E (length (log s) + 2 * j) product_id)
         = TikiCrawler.Failed err) ->
    TikiCrawler.attempt_once (server E (length (log s) + 2 * k) product_id)
    = TikiCrawler.Fetched product_data missing ->
    TikiCrawler.attempts E retries product_id todo attempt last_error s
    = Ok (Some product_data,
          {| stats := CrawlStats.add_success
                        (if missing
                         then CrawlStats.add_missing_fields (stats s)
                         else stats s);
             files := files s;
             log := log s
                    ++ flat_map (fun a => [Get product_id; Sleep (a + 1)])
                         (seq attempt k)
                    ++ [Get product_id] |}).
Proof.
  induction k as [|k IH]; intros todo attempt last_error s Hk Hn Hfail Hok.
  - destruct todo as [|todo]; [lia |]. cbn [TikiCrawler.attempts].
    rewrite Nat.add_0_r in Hok. rewrite Hok.
    destruct missing; reflexivity.
  - destruct todo as [|todo]; [lia |]. cbn [TikiCrawler.attempts].
    destruct (Hfail 0 ltac:(lia)) as [err Herr].
    rewrite Nat.add_0_r in Herr. rewrite Herr.
    destruct (Nat.ltb_spec attempt (retries - 1)) as [_ | Hge]; [| lia].
    rewrite (IH todo (attempt + 1) (Some err)
               (emit (Sleep (1 * (attempt + 1))) (emit (Get product_id) s))).
    + cbn [emit stats files log seq flat_map]. rewrite Nat.mul_1_l.
      replace (attempt + 1) with (S attempt) by lia.
      now rewrite <- !app_assoc.
    + lia.
    + lia.
    + intros j Hj. cbn [emit log]. rewrite !length_app. cbn [length].
      destruct (Hfail (S j) ltac:(lia)) as [err' Herr'].
      exists err'. rewrite <- Herr'. f_equal. f_equal. lia.
    + cbn [emit log]. rewrite !length_app. cbn [length].
      rewrite <- Hok. f_equal. f_equal. lia.
Qed.

End Retry.

Section WorkerOutcomes.

Variable E : env.
Variable cfg : config.
Variable product_id : string.

Lemma fetch_product_failing (P : string -> Prop) (s : state) :
  (forall t, exists err,
     TikiCrawler.attempt_once (server E t product_id) = TikiCrawler.Failed err
     /\ P err) ->
  exists last,
    match max_retries cfg with
    | O => last = None
    | S _ => exists err, last = Some err /\ P err
    end
    /\ TikiCrawler.fetch_product E cfg product_id s
       = (let* error_code := TikiCrawler.error_code_of last in
          Ok (None,
              set_stats
                (CrawlStats.add_failure (Some error_code) (Some product_id) last
                   (now E (length
                             (log s ++ Spec.backoff_trace product_id
                                         (max_retries cfg)))))
                {| stats := stats s; files := files s;
                   log := log s ++ Spec.backoff_trace product_id
                                     (max_retries cfg) |})).
Proof.
  intros H. unfold TikiCrawler.fetch_product.
  apply (attempts_failing E product_id (max_retries cfg) P H).
Qed.

(** X8.  A worker that never gets a well-formed OK response, whatever the
    failures are, uses all its [max_retries] attempts with the sleeps
    1, 2, ... between them, returns no record, leaves the files alone and
    reports exactly one failure, under a non-empty error kind. *)
Theorem fetch_product_exhausts_retries (s : state) :
  (forall t product_data, ~ Ext.answers (server E t product_id) product_data) ->
  exists s' error_code message,
    TikiCrawler.fetch_product E cfg product_id s = Ok (None, s')
    /\ log s' = log s ++ Spec.backoff_trace product_id (max_retries cfg)
    /\ files s' = files s
    /\ error_code <> ""
    /\ stats s'
       = CrawlStats.add_failure (Some error_code) (Some product_id) message
           (now E (length (log s'))) (stats s).
Proof.
  intros Hno.
  destruct (fetch_product_failing (fun _ => True) s) as [last [_ Heq]].
  { intros t. destruct (attempt_once_cases (server E t product_id))
      as [[pd [Ha _]] | [err [He _]]]; [now destruct (Hno t pd) | eauto]. }
  destruct (error_code_of_total last) as [code [Hc Hne]].
  rewrite Hc in Heq. cbn [bind] in Heq.
  eexists _, code, last. split; [exact Heq |].
  repeat split; [exact Hne].
Qed.

(** X9.  When every attempt times out, at the request or while the body is
    read, the worker makes its [max_retries >= 1] attempts and reports the
    failure under the kind TIMEOUT with the message "Request timeout". *)
Theorem fetch_product_timeouts (s : state) :
  1 <= max_retries cfg ->
  (forall t, Ext.times_out (server E t product_id)) ->
  exists s',
    TikiCrawler.fetch_product E cfg product_id s = Ok (None, s')
    /\ log s' = log s ++ Spec.backoff_trace product_id (max_retries cfg)
    /\ stats s'
       = CrawlStats.add_failure (Some "TIMEOUT") (Some product_id)
           (Some "Request timeout") (now E (length (log s'))) (stats s).
Proof.
  intros Hn Hto.
  destruct (fetch_product_failing (fun err => err = "Request timeout") s)
    as [last [Hlast Heq]].
  { intros t. specialize (Hto t). exists "Request timeout".
    split; [| reflexivity].
    destruct (server E t product_id) as [e | status [data | e]];
      cbn [Ext.times_out] in Hto.
    - cbn [TikiCrawler.attempt_once]. unfold TikiCrawler.handler.
      now rewrite Hto.
    - contradiction.
    - destruct Hto as [-> Hk]. cbn [TikiCrawler.attempt_once Nat.eqb bind].
      unfold TikiCrawler.handler. now rewrite Hk. }
  destruct (max_retries cfg) as [|n] eqn:Hr; [lia |].
  destruct Hlast as [err [-> ->]].
  change (TikiCrawler.error_code_of (Some "Request timeout"))
    with (@Ok string "TIMEOUT") in Heq.
  cbn [bind] in Heq. eexists. split; [exact Heq |]. split; reflexivity.
Qed.

(** X10.  When the first [k] requests get no well-formed OK response and
    the next one does, with [k < max_retries], the worker returns the
    record after [k + 1] requests and the sleeps 1, ..., k; the failed
    attempts leave no trace in the tracker, which only counts the
    success. *)
Theorem fetch_product_recovers (s : state) (k : nat) (product_data : json) :
  k < max_retries cfg ->
  (forall j pd, j < k ->
     ~ Ext.answers (server E (length (log s) + 2 * j) product_id) pd) ->
  Ext.answers (server E (length (log s) + 2 * k) product_id) product_data ->
  exists s',
    TikiCrawler.fetch_product E cfg product_id s = Ok (Some product_data, s')
    /\ log s' = log s ++ Ext.retry_trace product_id k
    /\ files s' = files s
    /\ stats s'
       = CrawlStats.add_success
           (if Spec.incomplete product_data
            then CrawlStats.add_missing_fields (stats s) else stats s).
Proof.
  intros Hk Hfail Hok. unfold TikiCrawler.fetch_product.
  rewrite (attempts_retry E product_id (max_retries cfg) product_data
             (Spec.incomplete product_data) k).
  - eexists. split; [reflexivity |]. repeat split.
  - exact Hk.
  - reflexivity.
  - intros j Hj.
    destruct (attempt_once_cases
                (server E (length (log s) + 2 * j) product_id))
      as [[pd [Ha _]] | [err [He _]]]; [now destruct (Hfail j pd Hj) | eauto].
  - destruct (attempt_once_cases
                (server E (length (log s) + 2 * k) product_id))
      as [[pd [[data [Hd Hpd]] He]] | [err [_ Hno]]];
      [| now destruct (Hno product_data)].
    destruct Hok as [data' [Hd' Hpd']]. rewrite Hd in Hd'.
    injection Hd' as <-. rewrite Hpd in Hpd'. injection Hpd' as <-. exact He.
Qed.

End WorkerOutcomes.

Lemma fetch_product_exhausts_retries_witness :
  exists s',
    TikiCrawler.fetch_product Sample.env_500 Sample.cfg3 "42" Sample.start
    = Ok (None, s')
    /\ Spec.requested (log s') = ["42"; "42"; "42"].
Proof.
  destruct (fetch_product_exhausts_retries Sample.env_500 Sample.cfg3 "42"
              Sample.start) as [s' [code [msg [H1 [H2 _]]]]].
  - intros t pd [data [H _]]. discriminate.
  - exists s'. split; [exact H1 |]. rewrite H2. reflexivity.
Defined.

Lemma fetch_product_timeouts_witness :
  exists s',
    TikiCrawler.fetch_product Sample.env_slow Sample.cfg3 "42" Sample.start
    = Ok (None, s')
    /\ error_codes (stats s') = [(JStr "TIMEOUT", 1)]
    /\ Spec.delays (log s') = [1; 2].
Proof.
  destruct (fetch_product_timeouts Sample.env_slow Sample.cfg3 "42"
              Sample.start) as [s' [H1 [H2 H3]]].
  - simpl. lia.
  - intros t. reflexivity.
  - exists s'. split; [exact H1 |]. rewrite H2, H3. split; reflexivity.
Defined.

Lemma fetch_product_recovers_witness :
  exists product_data s',
    TikiCrawler.fetch_product Sample.env_flaky Sample.cfg3 "42" Sample.start
    = Ok (Some product_data, s')
    /\ log s' = [Get "42"; Sleep 1; Get "42"; Sleep 2; Get "42"]
    /\ failed (stats s') = 0
    /\ completed (stats s') = 1.
Proof.
  destruct (TikiCrawler.product_data_of (Sample.payload "42")) as [pd | e] eqn:Hpd;
    [| discriminate].
  destruct (fetch_product_recovers Sample.env_flaky Sample.cfg3 "42"
              Sample.start 2 pd) as [s' [H1 [H2 [_ H3]]]].
  - simpl. lia.
  - intros j pd' Hj [data [H _]].
    destruct j as [|[|j]]; [discriminate | discriminate | lia].
  - exists (Sample.payload "42"). split; [reflexivity | exact Hpd].
  - exists pd, s'. split; [exact H1 |]. split; [exact H2 |].
    rewrite H3. now destruct (Spec.incomplete pd).
Defined.

(** ** The workers of a batch *)

Section BatchWorkers.

Variable E : env.
Variable cfg : config.

Lemma counted_refl (st : CrawlStats) : Ext.counted 0 0 0 st st.
Proof. unfold Ext.counted. repeat split; lia. Qed.

Lemma counted_trans (n1 k1 m1 n2 k2 m2 : nat) (st1 st2 st3 : CrawlStats) :
  Ext.counted n1 k1 m1 st1 st2 -> Ext.counted n2 k2 m2 st2 st3 ->
  Ext.counted (n1 + n2) (k1 + k2) (m1 + m2) st1 st3.
Proof. unfold Ext.counted. intros (?&?&?&?) (?&?&?&?). repeat split; lia. Qed.

(** A worker counts its identifier once: as a success, and as an incomplete
    record when the record is classified so, or as a failure. *)
Lemma fetch_product_counts (product_id : string) (s : state) :
  exists r s',
    TikiCrawler.fetch_product E cfg product_id s = Ok (r, s')
    /\ files s' = files s
    /\ match r with
       | Some product_data =>
           Ext.is_dict product_data = true
           /\ Ext.counted 1 0 (if Spec.incomplete product_data then 1 else 0)
                (stats s) (stats s')
       | None => Ext.counted 0 1 0 (stats s) (stats s')
       end.
Proof.
  destruct (attempts_outcome E product_id (max_retries cfg) (max_retries cfg)
              0 None s) as [r [s' [Hr [Hf Hs]]]].
  exists r, s'. split; [exact Hr |]. split; [exact Hf |].
  destruct r as [pd |].
  - destruct Hs as [data [missing [Hpd [Hm ->]]]].
    destruct (product_data_of_obj _ _ Hpd) as [fields [-> _]].
    rewrite has_missing_fields_obj in Hm. injection Hm as <-.
    split; [reflexivity |].
    unfold Ext.counted.
    destruct (Spec.incomplete (JObj fields)); cbn; repeat split; lia.
  - destruct Hs as [code [last [_ [_ ->]]]].
    unfold Ext.counted. cbn. repeat split; lia.
Qed.

Lemma not_none_app (rs1 rs2 : list (option json)) :
  TikiCrawler.not_none (rs1 ++ rs2)
  = TikiCrawler.not_none rs1 ++ TikiCrawler.not_none rs2.
Proof.
  induction rs1 as [|[r |] rs1 IH]; cbn [TikiCrawler.not_none app];
    [reflexivity | now rewrite IH | exact IH].
Qed.

Lemma count_incomplete_app (l1 l2 : list json) :
  Ext.count_incomplete (l1 ++ l2)
  = Ext.count_incomplete l1 + Ext.count_incomplete l2.
Proof.
  unfold Ext.count_incomplete. now rewrite List.filter_app, length_app.
Qed.

(** The workers of a list of identifiers: one result per identifier, and
    every identifier counted once. *)
Lemma gather_counts (ids : list string) :
  forall s,
  exists rs s',
    TikiCrawler.gather E cfg ids s = Ok (rs, s')
    /\ files s' = files s
    /\ length rs = length ids
    /\ forallb Ext.is_dict (TikiCrawler.not_none rs) = true
    /\ Ext.counted (length (TikiCrawler.not_none rs))
         (length ids - length (TikiCrawler.not_none rs))
         (Ext.count_incomplete (TikiCrawler.not_none rs))
         (stats s) (stats s').
Proof.
  induction ids as [|pid ids IH]; intros s.
  - exists [], s. split; [reflexivity |]. split; [reflexivity |].
    split; [reflexivity |]. split; [reflexivity | apply counted_refl].
  - cbn [TikiCrawler.gather].
    destruct (fetch_product_counts pid s) as [r [s1 [Hr [Hf1 Hc1]]]].
    rewrite Hr.
    destruct (IH s1) as [rs [s2 [Hrs [Hf2 [Hlen [Hd Hc2]]]]]].
    rewrite Hrs. exists (r :: rs), s2. split; [reflexivity |].
    split; [congruence |]. split; [cbn; lia |].
    assert (Hle : length (TikiCrawler.not_none rs) <= length ids).
    { rewrite <- Hlen. clear. induction rs as [|[x |] rs IH]; cbn; lia. }
    destruct r as [pd |]; cbn [TikiCrawler.not_none forallb length].
    + destruct Hc1 as [Hpd Hc1]. split; [now rewrite Hpd |].
      pose proof (counted_trans _ _ _ _ _ _ _ _ _ Hc1 Hc2) as H.
      unfold Ext.count_incomplete in *. cbn [List.filter].
      destruct (Spec.incomplete pd); cbn [length];
        unfold Ext.counted in *; repeat split; lia.
    + split; [exact Hd |].
      pose proof (counted_trans _ _ _ _ _ _ _ _ _ Hc1 Hc2) as H.
      unfold Ext.counted in *. repeat split; lia.
Qed.

Lemma gather_app (ids1 ids2 : list string) :
  forall s,
    TikiCrawler.gather E cfg (ids1 ++ ids2) s
    = match TikiCrawler.gather E cfg ids1 s with
      | Ok (rs1, s1) =>
          match TikiCrawler.gather E cfg ids2 s1 with
          | Ok (rs2, s2) => Ok (rs1 ++ rs2, s2)
          | Raise e => Raise e
          end
      | Raise e => Raise e
      end.
Proof.
  induction ids1 as [|pid ids1 IH]; intros s; cbn [app TikiCrawler.gather].
  - destruct (TikiCrawler.gather E cfg ids2 s) as [[rs2 s2] | e]; reflexivity.
  - destruct (TikiCrawler.fetch_product E cfg pid s) as [[r s1] | e];
      [| reflexivity].
    rewrite IH.
    destruct (TikiCrawler.gather E cfg ids1 s1) as [[rs1 s2] | e];
      [| reflexivity].
    destruct (TikiCrawler.gather E cfg ids2 s2) as [[rs2 s3] | e]; reflexivity.
Qed.

(** The windows of a batch, one after the other, are one pass over their
    identifiers. *)
Lemma fetch_windows_gather (product_ids : list string) (starts : list nat) :
  forall results s,
    TikiCrawler.fetch_windows E cfg product_ids starts results s
    = match TikiCrawler.gather E cfg
              (flat_map
                 (fun i => slice product_ids i (i + concurrent_requests cfg))
                 starts) s with
      | Ok (rs, s') => Ok (results ++ TikiCrawler.not_none rs, s')
      | Raise e => Raise e
      end.
Proof.
  induction starts as [|i starts IH]; intros results s;
    cbn [TikiCrawler.fetch_windows flat_map TikiCrawler.gather].
  - cbn [TikiCrawler.not_none]. now rewrite app_nil_r.
  - rewrite gather_app.
    destruct (TikiCrawler.gather E cfg (slice product_ids i _) s)
      as [[rs1 s1] | e]; [| reflexivity].
    rewrite IH.
    destruct (TikiCrawler.gather E cfg _ s1) as [[rs2 s2] | e];
      [| reflexivity].
    now rewrite not_none_app, app_assoc.
Qed.

Lemma fetch_batch_gather (product_ids : list string) (s : state) :
  1 <= concurrent_requests cfg ->
  TikiCrawler.fetch_batch E cfg product_ids s
  = match TikiCrawler.gather E cfg product_ids s with
    | Ok (rs, s') => Ok (TikiCrawler.not_none rs, s')
    | Raise e => Raise e
    end.
Proof.
  intros Hc. unfold TikiCrawler.fetch_batch.
  destruct (Nat.eqb_spec (concurrent_requests cfg) 0) as [| _]; [lia |].
  rewrite fetch_windows_gather.
  replace (flat_map _ _) with product_ids; [reflexivity |].
  rewrite flat_map_concat_map. unfold py_range. rewrite map_map.
  erewrite map_ext; [| intros k; apply slice_firstn'].
  symmetry. apply chunks_concat. now apply range_count.
Qed.

Lemma fetch_batch_counts (product_ids : list string) (s : state) :
  1 <= concurrent_requests cfg ->
  exists products s',
    TikiCrawler.fetch_batch E cfg product_ids s = Ok (products, s')
    /\ files s' = files s
    /\ forallb Ext.is_dict products = true
    /\ length products <= length product_ids
    /\ Ext.counted (length products) (length product_ids - length products)
         (Ext.count_incomplete products) (stats s) (stats s').
Proof.
  intros Hc. rewrite (fetch_batch_gather _ _ Hc).
  destruct (gather_counts product_ids s) as [rs [s' [Hrs [Hf [Hlen [Hd Hcnt]]]]]].
  rewrite Hrs. exists (TikiCrawler.not_none rs), s'.
  split; [reflexivity |]. split; [exact Hf |]. split; [exact Hd |].
  split; [| exact Hcnt].
  rewrite <- Hlen. clear. induction rs as [|[x |] rs IH]; cbn; lia.
Qed.

(** X12.  A batch counts each of its identifiers exactly once: the
    completed count grows by the number of records returned, the failed
    count by the number of identifiers without a record, and the
    incomplete-record count by the number of returned records classified
    incomplete; the files are left alone. *)
Theorem fetch_batch_accounting (product_ids : list string) (s : state) :
  1 <= concurrent_requests cfg ->
  exists products s',
    TikiCrawler.fetch_batch E cfg product_ids s = Ok (products, s')
    /\ files s' = files s
    /\ completed (stats s') = completed (stats s) + length products
    /\ failed (stats s') + length products
       = failed (stats s) + length product_ids
    /\ products_with_missing_fields (stats s')
       = products_with_missing_fields (stats s)
         + Ext.count_incomplete products
    /\ total_products (stats s') = total_products (stats s).
Proof.
  intros Hc.
  destruct (fetch_batch_counts product_ids s Hc)
    as [products [s' [Hfb [Hf [_ [Hle (H1 & H2 & H3 & H4)]]]]]].
  exists products, s'. repeat split; try assumption. lia.
Qed.

End BatchWorkers.

Lemma fetch_batch_accounting_witness :
  exists products s',
    TikiCrawler.fetch_batch Sample.env_500 Sample.cfg3 ["42"; "9"] Sample.start
    = Ok (products, s')
    /\ completed (stats s') = 0
    /\ failed (stats s') + length products = 2.
Proof.
  destruct (fetch_batch_accounting Sample.env_500 Sample.cfg3 ["42"; "9"]
              Sample.start) as [products [s' [H1 [_ [H2 [H3 _]]]]]].
  - simpl. lia.
  - exists products, s'. split; [exact H1 |].
    assert (Hp : products = []).
    { vm_compute in H1. now injection H1 as <- _. }
    subst products. split; [exact H2 | exact H3].
Defined.

(** ** The tracker and the folder *)

Section TrackerAndFolder.

Lemma bump_bump (n m n' m' : nat) (st : CrawlStats) :
  Ext.bump n m (Ext.bump n' m' st) = Ext.bump (n' + n) (m' + m) st.
Proof. unfold Ext.bump. cbn. f_equal; lia. Qed.

Lemma bump_zero (st : CrawlStats) : Ext.bump 0 0 st = st.
Proof. destruct st. unfold Ext.bump. cbn. f_equal; lia. Qed.

(** The replay of a list of records only adds to the completed and the
    incomplete-record counts. *)
Lemma replay_products_adds (data : list json) :
  exists n m, forall st,
    FileHandler.replay_products TikiCrawler.has_missing_fields data st
    = Ext.bump n m st.
Proof.
  induction data as [|product data [n [m IH]]].
  - exists 0, 0. intros st. cbn. now rewrite bump_zero.
  - cbn [FileHandler.replay_products].
    destruct (TikiCrawler.has_missing_fields product) as [[|] | e].
    + exists (1 + n), (1 + m). intros st. rewrite IH.
      destruct st. unfold Ext.bump. cbn. f_equal; lia.
    + exists (1 + n), m. intros st. rewrite IH.
      destruct st. unfold Ext.bump. cbn. f_equal; lia.
    + exists 1, 0. intros st. destruct st.
      unfold Ext.bump, CrawlStats.add_success. cbn. f_equal; lia.
Qed.

Lemma replay_batches_adds (d : dir) :
  exists n m, forall st, Ext.replay_batches d st = Ext.bump n m st.
Proof.
  unfold Ext.replay_batches.
  induction d as [|[name f] d [n [m IH]]].
  - exists 0, 0. intros st. cbn. now rewrite bump_zero.
  - cbn [fold_left]. unfold FileHandler.load_file at 2. cbn [fst snd].
    destruct (Dir.is_products_file name);
      [| exists n, m; exact IH].
    destruct f as [data |]; [| exists n, m; exact IH].
    destruct (Py.iter data) as [items | e]; [| exists n, m; exact IH].
    destruct (replay_products_adds items) as [n' [m' H]].
    exists (n' + n), (m' + m). intros st. now rewrite H, IH, bump_bump.
Qed.

(** The replay of the failure partitions leaves the success counts alone. *)
Lemma replay_failures_keeps (failed_data : list json) :
  forall st,
    completed (FileHandler.replay_failures failed_data st) = completed st
    /\ products_with_missing_fields (FileHandler.replay_failures failed_data st)
       = products_with_missing_fields st.
Proof.
  induction failed_data as [|item data IH]; intros st;
    cbn [FileHandler.replay_failures]; [auto |].
  destruct (Py.get_default item "error_code" (JStr "UNKNOWN")) as [code |];
    [| auto].
  destruct (Py.hashable code); [| auto].
  destruct (IH (FileHandler.record_failed code item
                  (FileHandler.count_failed st))) as [-> ->]. auto.
Qed.

Lemma load_existing_results_successes (d : dir) (st : CrawlStats) :
  completed (FileHandler.load_existing_results d st
               TikiCrawler.has_missing_fields)
  = completed (Ext.replay_batches d st)
  /\ products_with_missing_fields
       (FileHandler.load_existing_results d st TikiCrawler.has_missing_fields)
     = products_with_missing_fields (Ext.replay_batches d st).
Proof.
  unfold FileHandler.load_existing_results. fold (Ext.replay_batches d st).
  generalize (Ext.replay_batches d st). clear st.
  induction d as [|[name f] d IH]; intros st; cbn [fold_left]; [auto |].
  destruct (IH (FileHandler.load_file Dir.is_failed_file
                  FileHandler.replay_failures st (name, f))) as [-> ->].
  unfold FileHandler.load_file. cbn [fst snd].
  destruct (Dir.is_failed_file name); [| auto].
  destruct f as [data |]; [| auto].
  destruct (Py.iter data); [apply replay_failures_keeps | auto].
Qed.

(** A file that is not a batch file means nothing to the replay. *)
Lemma replay_batches_write (name : string) (c : json) (d : dir) :
  Dir.is_products_file name = false ->
  forall st,
    Ext.replay_batches (Dir.write name c d) st = Ext.replay_batches d st.
Proof.
  intros Hn. unfold Ext.replay_batches.
  induction d as [|[n f] d IH]; intros st; cbn [Dir.write fold_left].
  - unfold FileHandler.load_file. cbn [fst]. now rewrite Hn.
  - destruct (String.eqb_spec n name) as [-> | Hne]; cbn [fold_left].
    + f_equal. unfold FileHandler.load_file. cbn [fst]. now rewrite Hn.
    + apply IH.
Qed.

Lemma replay_batches_save_batch (products : list json) (batch_index : nat)
    (d : dir) (st : CrawlStats) :
  Dir.lookup (FileHandler.batch_file batch_index) d = None ->
  forallb Ext.is_dict products = true ->
  Ext.replay_batches (FileHandler.save_batch products batch_index d) st
  = Ext.bump (length products) (Ext.count_incomplete products)
      (Ext.replay_batches d st).
Proof.
  intros Hfree Hdicts. unfold FileHandler.save_batch, Ext.replay_batches.
  rewrite (write_absent _ _ _ Hfree), fold_left_app. cbn [fold_left].
  unfold FileHandler.load_file at 1. cbn [fst snd Py.iter].
  rewrite batch_file_is_products.
  apply (replay_products_dicts products Hdicts).
Qed.

Lemma all_failed_not_products :
  Dir.is_products_file FileHandler.all_failed_path = false.
Proof. reflexivity. Qed.

Lemma save_groups_replay (groups : list (json * list json)) :
  forall d d' raised st,
    FileHandler.save_groups groups d = (d', raised) ->
    Ext.replay_batches d' st = Ext.replay_batches d st.
Proof.
  induction groups as [|[code products] groups IH]; intros d d' raised st H.
  - now injection H as <- _.
  - cbn [FileHandler.save_groups] in H.
    destruct (FileHandler.save_group code products d) as [d1 | e] eqn:Hg.
    + rewrite (IH _ _ _ _ H).
      destruct (save_group_files _ _ _ _ Hg) as [kind [content ->]].
      apply replay_batches_write, failed_file_not_products.
    + now injection H as <- _.
Qed.

Lemma save_failed_replay (failed_products : list json) (d d' : dir)
    (raised : option exn) (st : CrawlStats) :
  FileHandler.save_failed_products_by_error failed_products d = (d', raised) ->
  Ext.replay_batches d' st = Ext.replay_batches d st.
Proof.
  unfold FileHandler.save_failed_products_by_error. intros H.
  destruct failed_products as [|r rs]; [now injection H as <- _ |].
  destruct (FileHandler.group_by_error (r :: rs) []) as [groups | e];
    [| now injection H as <- _].
  destruct (FileHandler.save_groups groups d) as [d1 [e |]] eqn:Hg.
  - injection H as <- _. apply (save_groups_replay _ _ _ _ _ Hg).
  - injection H as <- _.
    rewrite (replay_batches_write _ _ _ all_failed_not_products).
    apply (save_groups_replay _ _ _ _ _ Hg).
Qed.

Variable E : env.
Variable cfg : config.

(** What the batch loop adds to the tracker is what its files add to a
    replay of the folder. *)
Lemma run_batches_replay (product_ids : list string) (starts : list nat) :
  forall s s',
    TikiCrawler.run_batches E cfg product_ids starts s = Ok s' ->
    exists n m,
      completed (stats s') = completed (stats s) + n
      /\ products_with_missing_fields (stats s')
         = products_with_missing_fields (stats s) + m
      /\ forall st,
           Ext.replay_batches (files s') st
           = Ext.bump n m (Ext.replay_batches (files s) st).
Proof.
  destruct (Nat.eq_dec (concurrent_requests cfg) 0) as [Hc | Hc].
  { intros s s' H. rewrite (run_batches_no_window E cfg _ _ Hc _ _ H).
    exists 0, 0. split; [lia |]. split; [lia |].
    intros st. now rewrite bump_zero. }
  induction starts as [|start rest IH]; intros s s' H.
  - injection H as <-. exists 0, 0. split; [lia |]. split; [lia |].
    intros st. now rewrite bump_zero.
  - cbn [TikiCrawler.run_batches] in H. unfold Dir.exists_ in H.
    destruct (Dir.lookup _ (files s)) as [f |] eqn:Hl; [now apply IH |].
    destruct (fetch_batch_counts E cfg
                (TikiCrawler.batch_ids cfg product_ids start) s ltac:(lia))
      as [products [s1 [Hfb [Hf [Hd [_ (H1 & _ & H3 & _)]]]]]].
    rewrite Hfb in H.
    destruct (IH _ _ H) as [n [m [Hn [Hm Hrep]]]].
    cbn [emit set_files stats files] in Hn, Hm, Hrep.
    exists (length products + n), (Ext.count_incomplete products + m).
    split; [lia |]. split; [lia |].
    intros st. rewrite Hrep, Hf.
    rewrite (replay_batches_save_batch _ _ _ _ Hl Hd). apply bump_bump.
Qed.

(** X13.  At the end of a run the tracker and the folder agree on the
    successes: the completed count and the incomplete-record count are
    those that a replay of the final folder gives, which is what the next
    run starts from. *)
Theorem crawl_counts_match_folder (product_ids : list string) (s : state) :
  let s' := fst (TikiCrawler.crawl E cfg product_ids s) in
  completed (stats s')
  = completed (FileHandler.load_existing_results (files s') (stats s)
                 TikiCrawler.has_missing_fields)
  /\ products_with_missing_fields (stats s')
     = products_with_missing_fields
         (FileHandler.load_existing_results (files s') (stats s)
            TikiCrawler.has_missing_fields).
Proof.
  intros s'.
  destruct (TikiCrawler.crawl E cfg product_ids s) as [s1 raised] eqn:H.
  cbn [fst] in s'. subst s'.
  destruct (load_existing_results_successes (files s1) (stats s)) as [-> ->].
  assert (H0 :
    completed (stats (Inv.loaded product_ids s))
    = completed (Ext.replay_batches (files s) (stats s))
    /\ products_with_missing_fields (stats (Inv.loaded product_ids s))
       = products_with_missing_fields
           (Ext.replay_batches (files s) (stats s))).
  { unfold Inv.loaded. cbn [set_stats stats files].
    destruct (load_existing_results_successes (files s)
                (TikiCrawler.set_total
                   (length (DeduplicationUtils.deduplicate_list product_ids))
                   (stats s))) as [-> ->].
    destruct (replay_batches_adds (files s)) as [n [m Hnm]].
    rewrite !Hnm. split; reflexivity. }
  destruct (crawl_cases E cfg _ _ _ _ H)
    as [[-> _] | [_ [_ [s2 [d [Hrun [Hsave ->]]]]]]].
  - exact H0.
  - cbn [set_files stats files].
    destruct (run_batches_replay _ _ _ _ Hrun) as [n [m [Hn [Hm Hrep]]]].
    rewrite (save_failed_replay _ _ _ _ (stats s) Hsave), Hrep.
    destruct H0 as [Hc0 Hm0]. cbn [Ext.bump completed products_with_missing_fields].
    change (files (Inv.loaded product_ids s)) with (files s).
    lia.
Qed.

End TrackerAndFolder.

(** ** The files that a run touches *)

Section Frame.

Lemma batch_writes_frame (d d' : dir) :
  Inv.batch_writes d d' ->
  forall name,
    Dir.lookup name d' = Dir.lookup name d
    \/ (Dir.lookup name d = None
        /\ exists batch_index products,
             name = FileHandler.batch_file batch_index
             /\ Dir.lookup name d' = Some (Parsed (JArr products))).
Proof.
  induction 1 as [d | d d' k products Hfree _ IH]; intros name; [now left |].
  unfold FileHandler.save_batch in IH.
  destruct (IH name) as [Heq | [Hnone Hnew]].
  - rewrite lookup_write in Heq.
    destruct (String.eqb_spec (FileHandler.batch_file k) name) as [He | _].
    + right. rewrite <- He. split; [exact Hfree |]. exists k, products.
      split; [reflexivity |]. now rewrite <- He in Heq.
    + now left.
  - rewrite lookup_write in Hnone.
    destruct (String.eqb (FileHandler.batch_file k) name); [discriminate |].
    right. auto.
Qed.

Lemma save_groups_frame (groups : list (json * list json)) :
  forall d d' raised name,
    FileHandler.save_groups groups d = (d', raised) ->
    (Dir.is_failed_file name = false ->
     Dir.lookup name d' = Dir.lookup name d)
    /\ (Dir.lookup name d <> None -> Dir.lookup name d' <> None).
Proof.
  induction groups as [|[code products] groups IH]; intros d d' raised name H.
  - injection H as <- _. auto.
  - cbn [FileHandler.save_groups] in H.
    destruct (FileHandler.save_group code products d) as [d1 | e] eqn:Hg.
    + destruct (IH _ _ _ name H) as [Hsame Hkept].
      destruct (save_group_files _ _ _ _ Hg) as [kind [content ->]].
      rewrite lookup_write in Hsame, Hkept.
      destruct (String.eqb_spec (FileHandler.failed_file kind) name)
        as [<- | _].
      * split; [intros Hn; now rewrite failed_file_is_failed in Hn |].
        intros _. now apply Hkept.
      * auto.
    + injection H as <- _. auto.
Qed.

Lemma save_failed_frame (failed_products : list json) (d d' : dir)
    (raised : option exn) (name : string) :
  FileHandler.save_failed_products_by_error failed_products d = (d', raised) ->
  (Dir.is_failed_file name = false -> name <> FileHandler.all_failed_path ->
   Dir.lookup name d' = Dir.lookup name d)
  /\ (Dir.lookup name d <> None -> Dir.lookup name d' <> None).
Proof.
  unfold FileHandler.save_failed_products_by_error. intros H.
  destruct failed_products as [|r rs]; [injection H as <- _; auto |].
  destruct (FileHandler.group_by_error (r :: rs) []) as [groups | e];
    [| injection H as <- _; auto].
  destruct (FileHandler.save_groups groups d) as [d1 [e |]] eqn:Hg;
    destruct (save_groups_frame _ _ _ _ name Hg) as [Hsame Hkept];
    injection H as <- _.
  - auto.
  - rewrite lookup_write.
    destruct (String.eqb_spec FileHandler.all_failed_path name) as [<- | _].
    + split; [intros _ Hne; now destruct Hne | discriminate].
    + auto.
Qed.

(** X14.  A run never removes a file.  Apart from the failure partitions
    [failed_*.json] and [all_failed_products.json], it leaves every file as
    it is, batch files included, and the only files it creates are batch
    files holding a list of records. *)
Theorem crawl_touches_its_files_only (E : env) (cfg : config)
    (product_ids : list string) (s : state) (name : string) :
  let d' := files (fst (TikiCrawler.crawl E cfg product_ids s)) in
  (Dir.lookup name (files s) <> None -> Dir.lookup name d' <> None)
  /\ (Dir.is_failed_file name = false ->
      name <> FileHandler.all_failed_path ->
      Dir.lookup name d' = Dir.lookup name (files s)
      \/ (Dir.lookup name (files s) = None
          /\ exists batch_index products,
               name = FileHandler.batch_file batch_index
               /\ Dir.lookup name d' = Some (Parsed (JArr products)))).
Proof.
  intros d'.
  destruct (TikiCrawler.crawl E cfg product_ids s) as [s1 raised] eqn:H.
  cbn [fst] in d'. subst d'.
  destruct (crawl_cases E cfg _ _ _ _ H)
    as [[-> _] | [_ [_ [s2 [d [Hrun [Hsave ->]]]]]]].
  - change (files (Inv.loaded product_ids s)) with (files s). auto.
  - cbn [set_files files].
    destruct (crawl_batch_loop E cfg _ _ _ _ Hrun) as [Hbw _].
    change (files (Inv.loaded product_ids s)) with (files s) in Hbw.
    destruct (save_failed_frame _ _ _ _ name Hsave) as [Hsame Hkept].
    pose proof (batch_writes_frame _ _ Hbw name) as Hb.
    split.
    + intros Hin. apply Hkept.
      destruct Hb as [-> | [Hnone _]]; [exact Hin | contradiction].
    + intros Hf Ha. rewrite (Hsame Hf Ha). exact Hb.
Qed.

End Frame.

(** ** A complete first run *)

Section CompleteRun.

Variable E : env.
Variable cfg : config.

Lemma In_write_other (n name : string) (f : file) (c : json) (d : dir) :
  In (n, f) d -> n <> name -> In (n, f) (Dir.write name c d).
Proof.
  intros Hin Hne. induction d as [|[n' f'] d IH]; [destruct Hin |].
  cbn [Dir.write].
  destruct Hin as [Heq | Hin].
  - injection Heq as -> ->.
    destruct (String.eqb_spec n name) as [-> | _]; [contradiction | now left].
  - destruct (String.eqb n' name); right; [exact Hin | now apply IH].
Qed.

Lemma In_write_same (name : string) (c : json) (d : dir) :
  In (name, Parsed c) (Dir.write name c d).
Proof.
  induction d as [|[n f] d IH]; cbn [Dir.write]; [now left |].
  destruct (String.eqb_spec n name) as [-> | _]; [now left | now right].
Qed.

Lemma batch_writes_In (d d' : dir) :
  Inv.batch_writes d d' -> forall e, In e d -> In e d'.
Proof.
  induction 1 as [d | d d' k products Hfree _ IH]; intros [n f] Hin;
    [exact Hin |].
  apply IH. apply In_write_other; [exact Hin |].
  intros ->. apply lookup_none_names in Hfree. apply Hfree.
  apply in_map_iff. now exists (FileHandler.batch_file k, f).
Qed.

Lemma save_groups_In (groups : list (json * list json)) :
  forall d d' raised n f,
    FileHandler.save_groups groups d = (d', raised) ->
    Dir.is_products_file n = true -> In (n, f) d -> In (n, f) d'.
Proof.
  induction groups as [|[code products] groups IH];
    intros d d' raised n f H Hn Hin.
  - now injection H as <- _.
  - cbn [FileHandler.save_groups] in H.
    destruct (FileHandler.save_group code products d) as [d1 | e] eqn:Hg.
    + apply (IH _ _ _ _ _ H Hn).
      destruct (save_group_files _ _ _ _ Hg) as [kind [content ->]].
      apply In_write_other; [exact Hin |].
      intros ->. now rewrite failed_file_not_products in Hn.
    + now injection H as <- _.
Qed.

Lemma save_failed_In (failed_products : list json) (d d' : dir)
    (raised : option exn) (n : string) (f : file) :
  FileHandler.save_failed_products_by_error failed_products d = (d', raised) ->
  Dir.is_products_file n = true -> In (n, f) d -> In (n, f) d'.
Proof.
  unfold FileHandler.save_failed_products_by_error. intros H Hn Hin.
  destruct failed_products as [|r rs]; [now injection H as <- _ |].
  destruct (FileHandler.group_by_error (r :: rs) []) as [groups | e];
    [| now injection H as <- _].
  destruct (FileHandler.save_groups groups d) as [d1 [e |]] eqn:Hg;
    injection H as <- _.
  - apply (save_groups_In _ _ _ _ _ _ Hg Hn Hin).
  - apply In_write_other; [apply (save_groups_In _ _ _ _ _ _ Hg Hn Hin) |].
    intros ->. discriminate.
Qed.

(** The crawled identifiers of a folder stay crawled when its batch files
    stay. *)
Lemma crawled_kept (d d' : dir) (x : string) :
  (forall n f, Dir.is_products_file n = true -> In (n, f) d -> In (n, f) d') ->
  x ∈ DeduplicationUtils.get_already_crawled_ids E d ->
  x ∈ DeduplicationUtils.get_already_crawled_ids E d'.
Proof.
  unfold DeduplicationUtils.get_already_crawled_ids. intros Hkeep Hx.
  apply scan_folder_elem in Hx. apply scan_folder_elem.
  destruct Hx as [Hx | [name [data [items [p [Hin [Hn Hrest]]]]]]];
    [now left |].
  right. exists name, data, items, p. split; [now apply Hkeep | auto].
Qed.

Lemma echoes_incl (ids ids' : list string) :
  Ext.echoes E ids -> (forall p, In p ids' -> In p ids) -> Ext.echoes E ids'.
Proof. intros He Hincl t p Hp. apply He. now apply Hincl. Qed.

Hypothesis Hr : 1 <= max_retries cfg.

Lemma fetch_product_echo (ids : list string) (product_id : string) (s : state) :
  Ext.echoes E ids -> In product_id ids ->
  exists product_data s',
    TikiCrawler.fetch_product E cfg product_id s = Ok (Some product_data, s')
    /\ files s' = files s
    /\ Ext.is_dict product_data = true
    /\ Ext.crawled_id E product_data = Some product_id.
Proof.
  intros He Hin.
  destruct (He (length (log s)) product_id Hin) as [data [pd [Hsrv [Hpd Hid]]]].
  destruct (fetch_product_first_ok E cfg product_id s data pd Hr Hsrv Hpd)
    as [s' Hs'].
  exists pd, s'. split; [exact Hs' |].
  destruct (fetch_product_counts E cfg product_id s) as [r [s1 [Hr1 [Hf _]]]].
  rewrite Hs' in Hr1. injection Hr1 as <- <-.
  split; [exact Hf |]. split; [| exact Hid].
  now destruct (product_data_of_obj _ _ Hpd) as [fields [-> _]].
Qed.

Lemma gather_echo (ids chunk_ids : list string) :
  Ext.echoes E ids -> (forall p, In p chunk_ids -> In p ids) ->
  forall s,
  exists rs s',
    TikiCrawler.gather E cfg chunk_ids s = Ok (rs, s')
    /\ files s' = files s
    /\ forallb Ext.is_dict (TikiCrawler.not_none rs) = true
    /\ map (Ext.crawled_id E) (TikiCrawler.not_none rs) = map Some chunk_ids.
Proof.
  intros He. induction chunk_ids as [|pid chunk_ids IH]; intros Hincl s.
  - exists [], s. auto.
  - cbn [TikiCrawler.gather].
    destruct (fetch_product_echo ids pid s He (Hincl pid (or_introl eq_refl)))
      as [pd [s1 [Hfp [Hf1 [Hd Hid]]]]].
    rewrite Hfp.
    destruct (IH (fun p Hp => Hincl p (or_intror Hp)) s1)
      as [rs [s2 [Hrs [Hf2 [Hds Hids]]]]].
    rewrite Hrs. exists (Some pd :: rs), s2.
    split; [reflexivity |]. split; [congruence |].
    cbn [TikiCrawler.not_none forallb map]. rewrite Hd, Hds, Hid, Hids. auto.
Qed.

Hypothesis Hc : 1 <= concurrent_requests cfg.

Lemma In_batch_ids (product_ids : list string) (start : nat) (p : string) :
  In p (TikiCrawler.batch_ids cfg product_ids start) -> In p product_ids.
Proof.
  rewrite batch_ids_firstn. intros Hin.
  apply list_elem_of_In in Hin. apply list_elem_of_In.
  apply (sublist_subseteq _ _ (sublist_drop _ start)).
  apply (sublist_subseteq _ _ (sublist_take _ (batch_size cfg))).
  exact Hin.
Qed.

(** When the server knows the products, the batch loop leaves every
    identifier of a batch whose file was absent crawled. *)
Lemma run_batches_echo (product_ids : list string) (starts : list nat) :
  Ext.echoes E product_ids ->
  NoDup (map (fun start => start / batch_size cfg) starts) ->
  forall s s',
    TikiCrawler.run_batches E cfg product_ids starts s = Ok s' ->
    (forall start, In start starts ->
       Dir.lookup (FileHandler.batch_file (start / batch_size cfg)) (files s)
       = None) ->
    forall p,
      In p (flat_map (TikiCrawler.batch_ids cfg product_ids) starts) ->
      p ∈ DeduplicationUtils.get_already_crawled_ids E (files s').
Proof.
  intros He. induction starts as [|start rest IH]; intros Hnd s s' H Hfree p Hp;
    [destruct Hp |].
  cbn [map] in Hnd. apply NoDup_cons in Hnd. destruct Hnd as [Hnotin Hnd].
  cbn [TikiCrawler.run_batches] in H. unfold Dir.exists_ in H.
  rewrite (Hfree start (or_introl eq_refl)) in H.
  rewrite (fetch_batch_gather E cfg _ _ Hc) in H.
  destruct (gather_echo product_ids
              (TikiCrawler.batch_ids cfg product_ids start) He
              (In_batch_ids product_ids start) s)
    as [rs [s1 [Hrs [Hf1 [Hd Hids]]]]].
  rewrite Hrs in H.
  set (idx := start / batch_size cfg) in H.
  set (products := TikiCrawler.not_none rs) in H, Hd, Hids.
  cbn [flat_map] in Hp. apply in_app_iff in Hp. destruct Hp as [Hp | Hp].
  - destruct (crawl_batch_loop E cfg _ _ _ _ H) as [Hbw _].
    cbn [emit set_files files] in Hbw.
    assert (Hin : In (Some p) (map (Ext.crawled_id E) products)).
    { rewrite Hids. now apply in_map. }
    apply in_map_iff in Hin. destruct Hin as [pd [Hpd Hin]].
    unfold DeduplicationUtils.get_already_crawled_ids.
    apply scan_folder_elem. right.
    exists (FileHandler.batch_file idx), (JArr products), products, pd.
    split.
    { apply (batch_writes_In _ _ Hbw). apply In_write_same. }
    split; [apply batch_file_is_products |]. split; [reflexivity |].
    split; [now apply reached_dicts | exact Hpd].
  - apply (IH Hnd _ _ H); [| exact Hp].
    intros st Hst. cbn [emit set_files files]. rewrite Hf1.
    unfold FileHandler.save_batch. rewrite lookup_write.
    destruct (String.eqb_spec (FileHandler.batch_file idx)
                (FileHandler.batch_file (st / batch_size cfg))) as [Heq | _];
      [| apply Hfree; now right].
    apply batch_file_inj in Heq. exfalso. apply Hnotin.
    apply list_elem_of_In, in_map_iff. exists st. split; [| exact Hst].
    unfold idx in Heq. now rewrite Heq.
Qed.

Lemma crawl_nothing_pending (cfg' : config) (product_ids : list string)
    (s : state) :
  TikiCrawler.pending E (files s) product_ids = [] ->
  TikiCrawler.crawl E cfg' product_ids s = (Inv.loaded product_ids s, None).
Proof.
  intros Hp. unfold TikiCrawler.crawl. cbn zeta.
  change (files (set_stats _ (set_stats _ s))) with (files s).
  change (files (set_stats _ s)) with (files s).
  fold (TikiCrawler.pending E (files s) product_ids).
  fold (Inv.loaded product_ids s).
  now rewrite Hp.
Qed.

Hypothesis Hb : 1 <= batch_size cfg.

Lemma crawl_covers_input (product_ids : list string) (s : state) :
  Ext.echoes E product_ids ->
  (forall batch_index,
     Dir.lookup (FileHandler.batch_file batch_index) (files s) = None) ->
  TikiCrawler.pending E
    (files (fst (TikiCrawler.crawl E cfg product_ids s))) product_ids = [].
Proof.
  intros He Hfree.
  destruct (TikiCrawler.crawl E cfg product_ids s) as [s1 raised] eqn:H.
  cbn [fst].
  assert (Hall : forall p, In p product_ids ->
            p ∈ DeduplicationUtils.get_already_crawled_ids E (files s1)).
  { intros p Hp.
    destruct (crawl_cases E cfg _ _ _ _ H)
      as [[-> [[Hpend _] | [[_ [Hb0 _]] | [_ [Hc0 _]]]]]
         | [_ [_ [s2 [d [Hrun [Hsave ->]]]]]]]; try lia.
    - change (files (Inv.loaded product_ids s)) with (files s).
      destruct (decide (p ∈ DeduplicationUtils.get_already_crawled_ids E
                              (files s))) as [Hin | Hout]; [exact Hin |].
      assert (Hpin : In p (TikiCrawler.pending E (files s) product_ids))
        by now apply pending_In.
      rewrite Hpend in Hpin. destruct Hpin.
    - cbn [set_files files].
      apply (crawled_kept (files s2) d);
        [intros n f; apply (save_failed_In _ _ _ _ _ _ Hsave) |].
      destruct (decide (p ∈ DeduplicationUtils.get_already_crawled_ids E
                              (files s))) as [Hin | Hout].
      + destruct (crawl_batch_loop E cfg _ _ _ _ Hrun) as [Hbw _].
        change (files (Inv.loaded product_ids s)) with (files s) in Hbw.
        apply (crawled_kept (files s) (files s2));
          [intros n f _; apply (batch_writes_In _ _ Hbw) | exact Hin].
      + assert (Hpin : In p (TikiCrawler.pending E (files s) product_ids))
          by now apply pending_In.
        apply (run_batches_echo (TikiCrawler.pending E (files s) product_ids)
                 (py_range
                    (length (TikiCrawler.pending E (files s) product_ids))
                    (batch_size cfg))) with (s := Inv.loaded product_ids s).
        * apply (echoes_incl product_ids); [exact He |].
          intros q Hq. now apply pending_In in Hq.
        * unfold py_range. rewrite map_map.
          erewrite map_ext; [| intros a; apply Nat.div_mul; lia].
          rewrite map_id. apply NoDup_seq.
        * exact Hrun.
        * intros start _. apply Hfree.
        * rewrite flat_map_concat_map, (batches_concat cfg _ Hb). exact Hpin. }
  destruct (TikiCrawler.pending E (files s1) product_ids) as [|p l] eqn:Hpend;
    [reflexivity |].
  assert (Hp : In p (TikiCrawler.pending E (files s1) product_ids))
    by (rewrite Hpend; now left).
  apply pending_In in Hp. destruct Hp as [Hin Hout].
  now destruct (Hout (Hall p Hin)).
Qed.

(** X15.  A first run is complete when the server knows the products: if
    no batch file exists at the start and every request for an input
    identifier is answered with a record that counts as crawled under that
    identifier, then after the run a crawler over the same folder and the
    same input, under any configuration, finds nothing to do: it sends no
    request, writes no file and raises nothing. *)
Theorem crawl_twice_fetches_once (product_ids : list string) (s : state) :
  Ext.echoes E product_ids ->
  (forall batch_index,
     Dir.lookup (FileHandler.batch_file batch_index) (files s) = None) ->
  forall (cfg' : config) (s' : state),
    files s' = files (fst (TikiCrawler.crawl E cfg product_ids s)) ->
    log (fst (TikiCrawler.crawl E cfg' product_ids s')) = log s'
    /\ files (fst (TikiCrawler.crawl E cfg' product_ids s')) = files s'
    /\ snd (TikiCrawler.crawl E cfg' product_ids s') = None.
Proof.
  intros He Hfree cfg' s' Hfiles.
  rewrite (crawl_nothing_pending cfg' product_ids s').
  - split; [reflexivity |]. split; reflexivity.
  - rewrite Hfiles. now apply crawl_covers_input.
Qed.

End CompleteRun.

Lemma echoes_sample : Ext.echoes Sample.env_ok ["1"; "7"; "3"].
Proof.
  intros t p [<- | [<- | [<- | []]]]; eexists _, _;
    (split; [reflexivity |]); split; reflexivity.
Qed.

Lemma crawl_twice_fetches_once_witness :
  let s1 := fst (TikiCrawler.crawl Sample.env_ok Sample.cfg3 ["1"; "7"; "3"]
                   Sample.start) in
  let s' := {| stats := CrawlStats.init; files := files s1; log := [] |} in
  log (fst (TikiCrawler.crawl Sample.env_ok Sample.cfg3 ["1"; "7"; "3"] s'))
  = []
  /\ files (fst (TikiCrawler.crawl Sample.env_ok Sample.cfg3 ["1"; "7"; "3"] s'))
     = files s1
  /\ snd (TikiCrawler.crawl Sample.env_ok Sample.cfg3 ["1"; "7"; "3"] s')
     = None.
Proof.
  intros s1 s'.
  apply (crawl_twice_fetches_once Sample.env_ok Sample.cfg3
           ltac:(simpl; lia) ltac:(simpl; lia) ltac:(simpl; lia)
           ["1"; "7"; "3"] Sample.start echoes_sample
           ltac:(reflexivity) Sample.cfg3 s').
  reflexivity.
Defined.

(** ** Payloads that are no product *)

Section Payloads.

Lemma get_raises (v : json) (k : string) (default : json) (e : exn) :
  Py.get_default v k default = Raise e -> Ext.payload_error e.
Proof.
  intros H. exists v. left.
  destruct v; cbn [Py.get_default] in H; try discriminate;
    injection H as <-; reflexivity.
Qed.

Lemma clean_description_raises (text : json) (e : exn) :
  TikiCrawler.clean_description text = Raise e -> Ext.payload_error e.
Proof.
  unfold TikiCrawler.clean_description.
  destruct (negb (Py.truthy text)); [discriminate |].
  intros H. exists text. right. left.
  destruct text; try discriminate; injection H as <-; reflexivity.
Qed.

Lemma iter_raises (v : json) (e : exn) :
  Py.iter v = Raise e -> Ext.payload_error e.
Proof.
  intros H. exists v. right. right.
  destruct v; cbn [Py.iter] in H; try discriminate;
    injection H as <-; reflexivity.
Qed.

Lemma base_urls_raise (imgs : list json) (e : exn) :
  mapM (fun img => Py.get img "base_url") imgs = Raise e ->
  Ext.payload_error e.
Proof.
  induction imgs as [|img imgs IH]; cbn [mapM]; [discriminate |].
  destruct (Py.get img "base_url") as [url | e'] eqn:Hg; cbn [bind].
  - destruct (mapM _ imgs) as [urls | e'']; cbn [bind]; [discriminate |].
    intros H. injection H as <-. now apply IH.
  - intros H. injection H as <-. apply (get_raises _ _ _ _ Hg).
Qed.

Lemma product_data_of_raises (data : json) (e : exn) :
  TikiCrawler.product_data_of data = Raise e -> Ext.payload_error e.
Proof.
  unfold TikiCrawler.product_data_of. intros H.
  repeat match type of H with
         | bind ?c _ = _ =>
             let Hc := fresh "Hc" in
             destruct c eqn:Hc; cbn [bind] in H;
             [| injection H as <-;
                first [ apply (get_raises _ _ _ _ Hc)
                      | apply (clean_description_raises _ _ Hc)
                      | apply (iter_raises _ _ Hc)
                      | apply (base_urls_raise _ _ Hc) ] ]
         end.
  discriminate.
Qed.

(** Such an exception is no timeout, and its message is classified as a
    plain error. *)
Lemma payload_error_kind (e : exn) :
  Ext.payload_error e ->
  TikiCrawler.handler e = TikiCrawler.Failed (PyStr.take 100 (exn_str e))
  /\ TikiCrawler.error_code_of (Some (PyStr.take 100 (exn_str e)))
     = Ok "ERROR".
Proof.
  intros [v [-> | [-> | ->]]]; destruct v; split; reflexivity.
Qed.

End Payloads.

(** X16.  An OK response whose payload cannot be normalised into a record
    (it is no object, its description is no string, its images cannot be
    iterated or hold something that is no object) is treated like a failed
    request: when every attempt ends so, the worker makes its
    [max_retries >= 1] attempts with the usual sleeps and reports the
    failure under the kind ERROR. *)
Theorem fetch_product_malformed_payload
    (E : env) (cfg : config) (product_id : string) (s : state) :
  1 <= max_retries cfg ->
  (forall t, Ext.malformed (server E t product_id)) ->
  exists s' message,
    TikiCrawler.fetch_product E cfg product_id s = Ok (None, s')
    /\ log s' = log s ++ Spec.backoff_trace product_id (max_retries cfg)
    /\ stats s'
       = CrawlStats.add_failure (Some "ERROR") (Some product_id)
           (Some message) (now E (length (log s'))) (stats s).
Proof.
  intros Hn Hbad.
  destruct (fetch_product_failing E cfg product_id
              (fun err => TikiCrawler.error_code_of (Some err) = Ok "ERROR") s)
    as [last [Hlast Heq]].
  { intros t. destruct (Hbad t) as [data [e [-> Hpd]]].
    cbn [TikiCrawler.attempt_once Nat.eqb bind]. rewrite Hpd. cbn [bind].
    destruct (payload_error_kind e (product_data_of_raises _ _ Hpd))
      as [-> Hcode].
    eexists. split; [reflexivity | exact Hcode]. }
  destruct (max_retries cfg) as [|n] eqn:Hr; [lia |].
  destruct Hlast as [err [-> Hcode]].
  rewrite Hcode in Heq. cbn [bind] in Heq.
  eexists _, err. split; [exact Heq |]. split; reflexivity.
Qed.

Lemma fetch_product_malformed_payload_witness :
  exists s',
    TikiCrawler.fetch_product Sample.env_null Sample.cfg3 "42" Sample.start
    = Ok (None, s')
    /\ error_codes (stats s') = [(JStr "ERROR", 1)]
    /\ Spec.requested (log s') = ["42"; "42"; "42"].
Proof.
  destruct (fetch_product_malformed_payload Sample.env_null Sample.cfg3 "42"
              Sample.start) as [s' [msg [H1 [H2 H3]]]].
  - simpl. lia.
  - intros t. exists JNull. eexists. split; reflexivity.
  - exists s'. split; [exact H1 |]. rewrite H2, H3. split; reflexivity.
Defined.

(** ** The audit of the output *)

Section Audit.

Variable E : env.

Lemma files_of_app (key : string) (read1 read2 : list (string * string)) :
  Ext.files_of key (read1 ++ read2)
  = Ext.files_of key read1 ++ Ext.files_of key read2.
Proof. unfold Ext.files_of. now rewrite List.filter_app, map_app. Qed.

Lemma seen_in_note (key product_id filename : string)
    (seen : list (string * list string)) :
  Ext.seen_in key (DeduplicationUtils.note product_id filename seen)
  = Ext.seen_in key seen
    ++ (if String.eqb product_id key then [filename] else []).
Proof.
  unfold Ext.seen_in.
  induction seen as [|[k fs] seen IH]; cbn [DeduplicationUtils.note find fst snd].
  - destruct (String.eqb product_id key); reflexivity.
  - destruct (String.eqb_spec k product_id) as [-> | Hne];
      cbn [find fst snd].
    + destruct (String.eqb product_id key); [reflexivity |].
      now rewrite app_nil_r.
    + destruct (String.eqb_spec k key) as [-> | _]; [| exact IH].
      destruct (String.eqb_spec product_id key) as [-> | _];
        [contradiction | now rewrite app_nil_r].
Qed.

Lemma note_keys (product_id filename : string)
    (seen : list (string * list string)) :
  NoDup (map fst seen) ->
  (forall e, In e seen -> snd e <> []) ->
  NoDup (map fst (DeduplicationUtils.note product_id filename seen))
  /\ (forall e, In e (DeduplicationUtils.note product_id filename seen) ->
        snd e <> [])
  /\ (forall k, In k (map fst (DeduplicationUtils.note product_id filename seen))
        -> k = product_id \/ In k (map fst seen)).
Proof.
  induction seen as [|[k fs] seen IH]; intros Hnd Hne;
    cbn [DeduplicationUtils.note].
  - split; [repeat constructor; intros H; inversion H |].
    split; [intros e [<- | []]; discriminate |].
    intros k' [<- | []]. now left.
  - cbn [map fst] in Hnd. apply NoDup_cons in Hnd. destruct Hnd as [Hk Hnd].
    destruct (String.eqb_spec k product_id) as [-> | Hneq].
    + split; [cbn [map fst]; now apply NoDup_cons |].
      split.
      * intros e [<- | Hin]; [cbn; now destruct fs | apply Hne; now right].
      * intros k'. cbn [map fst]. tauto.
    + destruct (IH Hnd (fun e He => Hne e (or_intror He))) as [H1 [H2 H3]].
      split.
      * cbn [map fst]. apply NoDup_cons. split; [| exact H1].
        intros Hin. apply list_elem_of_In in Hin.
        destruct (H3 k Hin) as [-> | Hin']; [contradiction |].
        apply Hk. now apply list_elem_of_In.
      * split.
        -- intros e [<- | Hin]; [apply (Hne (k, fs)); now left | now apply H2].
        -- intros k'. cbn [map fst]. intros [<- | Hin]; [right; now left |].
           destruct (H3 k' Hin); [now left | right; now right].
Qed.

Lemma check_products_filed (filename : string) (items : list json) :
  forall read seen,
    Ext.filed read seen ->
    Ext.filed (read ++ map (fun key => (key, filename)) (Ext.audit_keys E items))
      (DeduplicationUtils.check_products E filename items seen).
Proof.
  induction items as [|product items IH]; intros read seen Hf;
    cbn [DeduplicationUtils.check_products Ext.audit_keys].
  - cbn [map]. now rewrite app_nil_r.
  - unfold Ext.audit_key.
    destruct (Py.get_default product "id" (JStr "unknown")) as [id | e].
    + cbn [map].
      replace (read ++ (Py.str E id, filename) :: map _ (Ext.audit_keys E items))
        with ((read ++ [(Py.str E id, filename)])
              ++ map (fun key => (key, filename)) (Ext.audit_keys E items))
        by now rewrite <- app_assoc.
      apply IH. destruct Hf as [Hnd [Hne Hfiles]].
      destruct (note_keys (Py.str E id) filename seen Hnd Hne) as [H1 [H2 _]].
      split; [exact H1 |]. split; [exact H2 |].
      intros key. rewrite seen_in_note, files_of_app, Hfiles. f_equal.
      unfold Ext.files_of. cbn [List.filter fst].
      destruct (String.eqb (Py.str E id) key); reflexivity.
    + cbn [map]. now rewrite app_nil_r.
Qed.

Lemma check_folder_filed (d : dir) :
  forall read seen,
    Ext.filed read seen ->
    Ext.filed (read ++ Ext.audited E d)
      (fold_left (DeduplicationUtils.check_file E) d seen).
Proof.
  unfold Ext.audited.
  induction d as [|[name f] d IH]; intros read seen Hf;
    cbn [fold_left flat_map].
  - now rewrite app_nil_r.
  - rewrite app_assoc. apply IH.
    unfold DeduplicationUtils.check_file. cbn [fst snd].
    destruct (Dir.is_products_file name); [| now rewrite app_nil_r].
    destruct f as [data |]; [| now rewrite app_nil_r].
    destruct (Py.iter data) as [items | e]; [| now rewrite app_nil_r].
    now apply check_products_filed.
Qed.

Lemma filed_In (read : list (string * string))
    (seen : list (string * list string)) (key : string) (fs : list string) :
  Ext.filed read seen ->
  In (key, fs) seen <-> fs = Ext.files_of key read /\ fs <> [].
Proof.
  intros [Hnd [Hne Hfiles]]. rewrite <- Hfiles. clear Hfiles.
  unfold Ext.seen_in. split.
  - intros Hin. split; [| apply (Hne _ Hin)].
    induction seen as [|[k fs'] seen IH]; [destruct Hin |].
    cbn [map fst] in Hnd. apply NoDup_cons in Hnd. destruct Hnd as [Hk Hnd].
    cbn [find fst]. destruct Hin as [Heq | Hin].
    + injection Heq as -> ->. now rewrite String.eqb_refl.
    + destruct (String.eqb_spec k key) as [-> | _].
      * exfalso. apply Hk. apply list_elem_of_In, in_map_iff.
        now exists (key, fs).
      * apply (IH Hnd (fun e He => Hne e (or_intror He)) Hin).
  - intros [-> Hnonempty].
    destruct (find _ seen) as [[k fs] |] eqn:Hfind; [| now destruct Hnonempty].
    apply find_some in Hfind. destruct Hfind as [Hin Hk].
    cbn [fst] in Hk. apply String.eqb_eq in Hk. now subst k.
Qed.

(** X17.  The audit reports a key exactly when it read at least two
    records under it, and it reports it once, with the file of each of
    these records in the order of the reading: a record counts under the
    [str] of its [id], or under ['unknown'] when it has none, and the
    reading of a file stops at the first item that is not a dict. *)
Theorem check_duplicate_reports (d : dir) :
  NoDup (map fst (DeduplicationUtils.check_duplicate_products_in_output E d))
  /\ forall key seen_in,
       In (key, seen_in)
          (DeduplicationUtils.check_duplicate_products_in_output E d)
       <-> seen_in = Ext.files_of key (Ext.audited E d)
           /\ 2 <= length seen_in.
Proof.
  unfold DeduplicationUtils.check_duplicate_products_in_output.
  assert (Hf : Ext.filed (Ext.audited E d)
                 (fold_left (DeduplicationUtils.check_file E) d [])).
  { apply (check_folder_filed d [] []).
    split; [constructor |]. split; [intros e [] | reflexivity]. }
  split.
  - destruct Hf as [Hnd _].
    eapply sublist_NoDup; [exact Hnd |].
    apply sublist_map. clear.
    induction (fold_left _ d []) as [|e l IH]; cbn [List.filter];
      [constructor |].
    destruct (1 <? length (snd e)); [now constructor | now constructor].
  - intros key fs. rewrite filter_In, (filed_In _ _ key fs Hf). cbn [snd].
    rewrite Nat.ltb_lt. split.
    + intros [[H1 _] H2]. split; [exact H1 | lia].
    + intros [H1 H2]. split; [| lia]. split; [exact H1 |].
      intros ->. cbn in H2. lia.
Qed.

End Audit.

(** ** The audit after a complete first run *)

Section AuditedRun.

Variable E : env.

Lemma audited_write (name : string) (c : json) (d : dir) :
  Dir.is_products_file name = false ->
  Ext.audited E (Dir.write name c d) = Ext.audited E d.
Proof.
  intros Hn. unfold Ext.audited.
  induction d as [|[n f] d IH]; cbn [Dir.write flat_map fst].
  - now rewrite Hn.
  - destruct (String.eqb_spec n name) as [-> | _]; cbn [flat_map fst snd].
    + now rewrite Hn.
    + now rewrite IH.
Qed.

Lemma audited_save_batch (products : list json) (batch_index : nat) (d : dir) :
  Dir.lookup (FileHandler.batch_file batch_index) d = None ->
  Ext.audited E (FileHandler.save_batch products batch_index d)
  = Ext.audited E d
    ++ map (fun key => (key, FileHandler.batch_file batch_index))
         (Ext.audit_keys E products).
Proof.
  intros Hfree. unfold FileHandler.save_batch, Ext.audited.
  rewrite (write_absent _ _ _ Hfree), flat_map_app. cbn [flat_map fst snd Py.iter].
  now rewrite batch_file_is_products, app_nil_r.
Qed.

Lemma audit_key_crawled (product : json) (x : string) :
  Ext.crawled_id E product = Some x -> Ext.audit_key E product = Some x.
Proof.
  unfold Ext.crawled_id, Ext.audit_key, Py.get.
  destruct product as [| | | | |fields]; cbn [Py.get_default]; try discriminate.
  destruct (Py.lookup_key "id" fields) as [v |]; [| discriminate].
  destruct (Py.truthy v); [auto | discriminate].
Qed.

Lemma audit_keys_crawled (products : list json) (ids : list string) :
  map (Ext.crawled_id E) products = map Some ids ->
  Ext.audit_keys E products = ids.
Proof.
  revert ids. induction products as [|p products IH]; intros [|x ids] H;
    try discriminate; [reflexivity |].
  cbn [map] in H. injection H as Hp H.
  cbn [Ext.audit_keys]. rewrite (audit_key_crawled _ _ Hp).
  now rewrite (IH ids H).
Qed.

Lemma save_groups_audited (groups : list (json * list json)) :
  forall d d' raised,
    FileHandler.save_groups groups d = (d', raised) ->
    Ext.audited E d' = Ext.audited E d.
Proof.
  induction groups as [|[code products] groups IH]; intros d d' raised H.
  - now injection H as <- _.
  - cbn [FileHandler.save_groups] in H.
    destruct (FileHandler.save_group code products d) as [d1 | e] eqn:Hg.
    + rewrite (IH _ _ _ H).
      destruct (save_group_files _ _ _ _ Hg) as [kind [content ->]].
      apply audited_write, failed_file_not_products.
    + now injection H as <- _.
Qed.

Lemma save_failed_audited (failed_products : list json) (d d' : dir)
    (raised : option exn) :
  FileHandler.save_failed_products_by_error failed_products d = (d', raised) ->
  Ext.audited E d' = Ext.audited E d.
Proof.
  unfold FileHandler.save_failed_products_by_error. intros H.
  destruct failed_products as [|r rs]; [now injection H as <- _ |].
  destruct (FileHandler.group_by_error (r :: rs) []) as [groups | e];
    [| now injection H as <- _].
  destruct (FileHandler.save_groups groups d) as [d1 [e |]] eqn:Hg;
    injection H as <- _.
  - apply (save_groups_audited _ _ _ _ Hg).
  - rewrite (audited_write _ _ _ all_failed_not_products).
    apply (save_groups_audited _ _ _ _ Hg).
Qed.

(** Records read under keys that are all different are no duplicates. *)
Lemma no_duplicates (read : list (string * string))
    (seen : list (string * list string)) :
  Ext.filed read seen -> NoDup (map fst read) ->
  List.filter (fun entry => 1 <? length (snd entry)) seen = [].
Proof.
  intros Hf Hnd.
  assert (Hone : forall key, length (Ext.files_of key read) <= 1).
  { intros key. unfold Ext.files_of. rewrite length_map. clear Hf.
    induction read as [|[k f] read IH]; cbn [List.filter fst]; [cbn; lia |].
    cbn [map fst] in Hnd. apply NoDup_cons in Hnd. destruct Hnd as [Hk Hnd].
    destruct (String.eqb_spec k key) as [-> | _]; [| now apply IH].
    cbn [length]. replace (List.filter _ read) with (@nil (string * string));
      [cbn; lia |].
    symmetry. clear IH Hnd.
    induction read as [|[k f'] read IH]; cbn [List.filter fst]; [reflexivity |].
    destruct (String.eqb_spec k key) as [-> | _].
    - exfalso. apply Hk. cbn [map fst]. apply list_elem_of_In. now left.
    - apply IH. intros Hin. apply Hk. cbn [map fst].
      apply list_elem_of_In. right. now apply list_elem_of_In. }
  assert (Hall : forall e, In e seen -> length (snd e) <= 1).
  { intros [k fs] Hin. apply (filed_In _ _ k fs Hf) in Hin.
    destruct Hin as [-> _]. apply Hone. }
  clear Hf. induction seen as [|e seen IH]; cbn [List.filter]; [reflexivity |].
  destruct (Nat.ltb_spec 1 (length (snd e))) as [Hlt | _].
  - specialize (Hall e (or_introl eq_refl)). lia.
  - apply IH. intros e' He'. apply Hall. now right.
Qed.

Variable cfg : config.
Hypothesis Hr : 1 <= max_retries cfg.
Hypothesis Hc : 1 <= concurrent_requests cfg.

(** When the server knows the products, the audit reads, after the batch
    loop, the records of the batches under their identifiers. *)
Lemma run_batches_audited (product_ids : list string) (starts : list nat) :
  Ext.echoes E product_ids ->
  NoDup (map (fun start => start / batch_size cfg) starts) ->
  forall s s',
    TikiCrawler.run_batches E cfg product_ids starts s = Ok s' ->
    (forall start, In start starts ->
       Dir.lookup (FileHandler.batch_file (start / batch_size cfg)) (files s)
       = None) ->
    map fst (Ext.audited E (files s'))
    = map fst (Ext.audited E (files s))
      ++ flat_map (TikiCrawler.batch_ids cfg product_ids) starts.
Proof.
  intros He. induction starts as [|start rest IH]; intros Hnd s s' H Hfree.
  - injection H as <-. cbn [flat_map]. now rewrite app_nil_r.
  - cbn [map] in Hnd. apply NoDup_cons in Hnd. destruct Hnd as [Hnotin Hnd].
    cbn [TikiCrawler.run_batches] in H. unfold Dir.exists_ in H.
    rewrite (Hfree start (or_introl eq_refl)) in H.
    rewrite (fetch_batch_gather E cfg _ _ Hc) in H.
    destruct (gather_echo E cfg Hr product_ids
                (TikiCrawler.batch_ids cfg product_ids start) He
                (In_batch_ids cfg product_ids start) s)
      as [rs [s1 [Hrs [Hf1 [Hd Hids]]]]].
    rewrite Hrs in H.
    rewrite (IH Hnd _ _ H).
    + cbn [emit set_files files flat_map]. rewrite Hf1.
      rewrite (audited_save_batch _ _ _ (Hfree start (or_introl eq_refl))).
      rewrite map_app, map_map. cbn [fst]. rewrite map_id.
      rewrite (audit_keys_crawled _ _ Hids). now rewrite app_assoc.
    + intros st Hst. cbn [emit set_files files]. rewrite Hf1.
      unfold FileHandler.save_batch. rewrite lookup_write.
      destruct (String.eqb_spec
                  (FileHandler.batch_file (start / batch_size cfg))
                  (FileHandler.batch_file (st / batch_size cfg))) as [Heq | _];
        [| apply Hfree; now right].
      apply batch_file_inj in Heq. exfalso. apply Hnotin.
      apply list_elem_of_In, in_map_iff. exists st. split; [| exact Hst].
      now rewrite Heq.
Qed.

Hypothesis Hb : 1 <= batch_size cfg.

(** X18.  A complete first run passes its own audit: over a folder without
    product files, when every request for an input identifier is answered
    with a record that counts as crawled under that identifier, the audit
    of the folder left by the run reports no duplicate. *)
Theorem crawl_leaves_no_duplicates (product_ids : list string) (s : state) :
  Ext.echoes E product_ids ->
  (forall name f, In (name, f) (files s) -> Dir.is_products_file name = false) ->
  DeduplicationUtils.check_duplicate_products_in_output E
    (files (fst (TikiCrawler.crawl E cfg product_ids s))) = [].
Proof.
  intros He Hnone.
  assert (Hempty : Ext.audited E (files s) = []).
  { unfold Ext.audited. induction (files s) as [|[n f] d IH];
      [reflexivity |].
    cbn [flat_map fst]. rewrite (Hnone n f (or_introl eq_refl)).
    apply IH. intros n' f' Hin. apply (Hnone n' f'). now right. }
  assert (Hfree : forall batch_index,
            Dir.lookup (FileHandler.batch_file batch_index) (files s) = None).
  { intros k.
    destruct (Dir.lookup (FileHandler.batch_file k) (files s)) as [f |] eqn:Hl;
      [| reflexivity].
    apply lookup_In in Hl. apply Hnone in Hl.
    now rewrite batch_file_is_products in Hl. }
  unfold DeduplicationUtils.check_duplicate_products_in_output.
  apply (no_duplicates
           (Ext.audited E (files (fst (TikiCrawler.crawl E cfg product_ids s))))).
  { apply (check_folder_filed E _ [] []).
    split; [constructor |]. split; [intros e [] | reflexivity]. }
  destruct (TikiCrawler.crawl E cfg product_ids s) as [s1 raised] eqn:H.
  cbn [fst].
  destruct (crawl_cases E cfg _ _ _ _ H)
    as [[-> _] | [_ [_ [s2 [d [Hrun [Hsave ->]]]]]]].
  - change (files (Inv.loaded product_ids s)) with (files s).
    rewrite Hempty. constructor.
  - cbn [set_files files]. rewrite (save_failed_audited _ _ _ _ Hsave).
    rewrite (run_batches_audited
               (TikiCrawler.pending E (files s) product_ids)
               (py_range (length (TikiCrawler.pending E (files s) product_ids))
                  (batch_size cfg))) with (s := Inv.loaded product_ids s).
    + change (files (Inv.loaded product_ids s)) with (files s).
      rewrite Hempty. cbn [map app].
      rewrite flat_map_concat_map, (batches_concat cfg _ Hb).
      apply pending_NoDup.
    + apply (echoes_incl E product_ids); [exact He |].
      intros q Hq. now apply pending_In in Hq.
    + unfold py_range. rewrite map_map.
      erewrite map_ext; [| intros a; apply Nat.div_mul; lia].
      rewrite map_id. apply NoDup_seq.
    + exact Hrun.
    + intros start _. apply Hfree.
Qed.

End AuditedRun.

Lemma crawl_leaves_no_duplicates_witness :
  DeduplicationUtils.check_duplicate_products_in_output Sample.env_ok
    (files (fst (TikiCrawler.crawl Sample.env_ok Sample.cfg3
                   ["1"; "7"; "3"; "7"] Sample.after_failure))) = [].
Proof.
  apply (crawl_leaves_no_duplicates Sample.env_ok Sample.cfg3
           ltac:(simpl; lia) ltac:(simpl; lia) ltac:(simpl; lia)
           ["1"; "7"; "3"; "7"] Sample.after_failure).
  - intros t p [<- | [<- | [<- | [<- | []]]]]; eexists _, _;
      (split; [reflexivity |]); split; reflexivity.
  - intros name f [H | [H | []]]; injection H as <- _; reflexivity.
Defined.

(** ** Runs under a configuration without batches or windows *)

Section BadConfiguration.

Variable E : env.
Variable cfg : config.

(** Without a window width the batch loop raises at the first batch whose
    file is absent. *)
Lemma run_batches_zero_window (product_ids : list string) (starts : list nat)
    (s : state) :
  concurrent_requests cfg = 0 ->
  (exists start,
     In start starts
     /\ Dir.lookup (FileHandler.batch_file (start / batch_size cfg)) (files s)
        = None) ->
  TikiCrawler.run_batches E cfg product_ids starts s
  = Raise (Exn ValueError "range() arg 3 must not be zero").
Proof.
  intros Hc. induction starts as [|start rest IH]; intros [st [Hin Hnone]];
    [destruct Hin |].
  cbn [TikiCrawler.run_batches]. unfold Dir.exists_.
  destruct (Dir.lookup (FileHandler.batch_file (start / batch_size cfg))
              (files s)) as [f |] eqn:Hl.
  - apply IH. exists st. split; [| exact Hnone].
    destruct Hin as [<- | Hin]; [congruence | exact Hin].
  - unfold TikiCrawler.fetch_batch. now rewrite Hc.
Qed.

(** X19.  A run that has something to fetch under a configuration without
    batches or windows ends with an exception before it sends a request or
    writes a file, the failure files included: with [batch_size = 0] the
    count of the batches divides by zero; with [concurrent_requests = 0]
    and a batch whose file is absent, [range] refuses the step 0.  The
    tracker is left as the loading of the folder made it. *)
Theorem crawl_without_batches_or_windows (product_ids : list string)
    (s : state) :
  TikiCrawler.pending E (files s) product_ids <> [] ->
  (batch_size cfg = 0 ->
   TikiCrawler.crawl E cfg product_ids s
   = (Inv.loaded product_ids s,
      Some (Exn ZeroDivisionError "integer division or modulo by zero")))
  /\ (1 <= batch_size cfg -> concurrent_requests cfg = 0 ->
      (exists batch_index,
         batch_index * batch_size cfg
         < length (TikiCrawler.pending E (files s) product_ids)
         /\ Dir.lookup (FileHandler.batch_file batch_index) (files s) = None) ->
      TikiCrawler.crawl E cfg product_ids s
      = (Inv.loaded product_ids s,
         Some (Exn ValueError "range() arg 3 must not be zero"))).
Proof.
  intros Hp.
  assert (Hcrawl :
    TikiCrawler.crawl E cfg product_ids s
    = if batch_size cfg =? 0
      then (Inv.loaded product_ids s,
            Some (Exn ZeroDivisionError "integer division or modulo by zero"))
      else match TikiCrawler.run_batches E cfg
                   (TikiCrawler.pending E (files s) product_ids)
                   (py_range
                      (length (TikiCrawler.pending E (files s) product_ids))
                      (batch_size cfg))
                   (Inv.loaded product_ids s) with
           | Raise e => (Inv.loaded product_ids s, Some e)
           | Ok s1 =>
               match FileHandler.save_failed_products_by_error
                       (failed_products (stats s1)) (files s1) with
               | (d, raised) => (set_files (fun _ => d) s1, raised)
               end
           end).
  { unfold TikiCrawler.crawl. cbn zeta.
    change (files (set_stats _ (set_stats _ s))) with (files s).
    change (files (set_stats _ s)) with (files s).
    fold (TikiCrawler.pending E (files s) product_ids).
    fold (Inv.loaded product_ids s).
    destruct (TikiCrawler.pending E (files s) product_ids);
      [now destruct Hp | reflexivity]. }
  rewrite Hcrawl. split.
  - intros ->. reflexivity.
  - intros Hb Hc [k [Hk Hnone]].
    destruct (Nat.eqb_spec (batch_size cfg) 0) as [| _]; [lia |].
    rewrite run_batches_zero_window; [reflexivity | exact Hc |].
    exists (k * batch_size cfg). split.
    + unfold py_range. apply in_map_iff. exists k. split; [reflexivity |].
      apply in_seq. split; [lia |]. cbn [Nat.add].
      apply (Nat.div_le_lower_bound _ _ (S k)); [lia | nia].
    + rewrite Nat.div_mul by lia. exact Hnone.
Qed.

End BadConfiguration.

Lemma crawl_without_batches_or_windows_witness :
  TikiCrawler.crawl Sample.env_ok
    {| batch_size := 0; concurrent_requests := 1; max_retries := 3 |}
    ["1"; "2"] Sample.start
  = (Inv.loaded ["1"; "2"] Sample.start,
     Some (Exn ZeroDivisionError "integer division or modulo by zero"))
  /\ TikiCrawler.crawl Sample.env_ok
       {| batch_size := 2; concurrent_requests := 0; max_retries := 3 |}
       ["1"; "2"] Sample.start
     = (Inv.loaded ["1"; "2"] Sample.start,
        Some (Exn ValueError "range() arg 3 must not be zero")).
Proof.
  split.
  - apply (crawl_without_batches_or_windows Sample.env_ok
             {| batch_size := 0; concurrent_requests := 1; max_retries := 3 |}
             ["1"; "2"] Sample.start); [discriminate | reflexivity].
  - apply (crawl_without_batches_or_windows Sample.env_ok
             {| batch_size := 2; concurrent_requests := 0; max_retries := 3 |}
             ["1"; "2"] Sample.start);
      [discriminate | simpl; lia | reflexivity |].
    exists 0. split; [vm_compute; lia | reflexivity].
Defined.

(** ** What the workers of a run leave, whatever their order *)

Section Outcome.

Variable E : env.
Variable cfg : config.

Lemma attempts_answered (product_id : string) (retries : nat) :
  forall todo attempt last_error s product_data s',
    TikiCrawler.attempts E retries product_id todo attempt last_error s
    = Ok (Some product_data, s') ->
    Ext.answered E product_id product_data.
Proof.
  induction todo as [|todo IH]; intros attempt last_error s pd s' H;
    cbn [TikiCrawler.attempts] in H.
  - destruct (TikiCrawler.error_code_of last_error); cbn [bind] in H;
      discriminate.
  - destruct (attempt_once_cases (server E (length (log s)) product_id))
      as [[pd' [Ha He]] | [err [He _]]]; rewrite He in H.
    + injection H as <- _. now exists (length (log s)).
    + apply (IH _ _ _ _ _ H).
Qed.

(** A worker, as the rest of the run sees it: a record that answers its
    identifier and no new failure, or no record and one fresh failure
    record, unless the identifier is empty. *)
Lemma fetch_product_outcome (product_id : string) (s : state) :
  exists r s' new,
    TikiCrawler.fetch_product E cfg product_id s = Ok (r, s')
    /\ files s' = files s
    /\ failed_products (stats s') = failed_products (stats s) ++ new
    /\ Forall Inv.fresh new
    /\ match r with
       | Some product_data =>
           Ext.answered E product_id product_data /\ new = []
       | None => map Inv.pid_of new = List.filter Ext.recorded [product_id]
       end.
Proof.
  destruct (attempts_outcome E product_id (max_retries cfg) (max_retries cfg)
              0 None s) as [r [s' [Hr [Hf Hs]]]].
  exists r, s'. unfold TikiCrawler.fetch_product. rewrite Hr.
  destruct r as [pd |].
  - destruct Hs as [data [missing [_ [_ ->]]]].
    exists []. split; [reflexivity |]. split; [exact Hf |].
    split; [rewrite app_nil_r; now destruct missing |].
    split; [constructor |].
    split; [apply (attempts_answered _ _ _ _ _ _ _ _ Hr) | reflexivity].
  - destruct Hs as [code [last [Hne [_ ->]]]].
    destruct code as [|c code]; [contradiction |].
    destruct product_id as [|p pid].
    + exists []. split; [reflexivity |]. split; [exact Hf |].
      split; [now rewrite app_nil_r |]. split; [constructor | reflexivity].
    + eexists [_]. split; [reflexivity |]. split; [exact Hf |].
      split; [reflexivity |]. split; [| reflexivity].
      constructor; [| constructor].
      eexists _, _, _, _. split; [| split; [| reflexivity]]; discriminate.
Qed.

Lemma gather_outcome (ids : list string) :
  forall s,
  exists rs s' new,
    TikiCrawler.gather E cfg ids s = Ok (rs, s')
    /\ files s' = files s
    /\ length rs = length ids
    /\ failed_products (stats s') = failed_products (stats s) ++ new
    /\ Forall Inv.fresh new
    /\ Forall2 (Ext.answered E) (Ext.got_ids ids rs) (TikiCrawler.not_none rs)
    /\ map Inv.pid_of new = List.filter Ext.recorded (Ext.lost_ids ids rs).
Proof.
  induction ids as [|pid ids IH]; intros s.
  - exists [], s, []. split; [reflexivity |]. split; [reflexivity |].
    split; [reflexivity |]. split; [now rewrite app_nil_r |].
    split; [constructor |]. split; [constructor | reflexivity].
  - cbn [TikiCrawler.gather].
    destruct (fetch_product_outcome pid s)
      as [r [s1 [new1 [Hr [Hf1 [Hfp1 [Hfr1 Hout]]]]]]].
    rewrite Hr.
    destruct (IH s1) as [rs [s2 [new2 [Hrs [Hf2 [Hlen [Hfp2 [Hfr2 [Hgot Hlost]]]]]]]]].
    rewrite Hrs. exists (r :: rs), s2, (new1 ++ new2).
    split; [reflexivity |]. split; [congruence |].
    split; [cbn; lia |].
    split; [rewrite Hfp2, Hfp1; now rewrite app_assoc |].
    split; [now apply Forall_app |].
    destruct r as [pd |];
      cbn [Ext.got_ids Ext.lost_ids TikiCrawler.not_none].
    + destruct Hout as [Ha ->]. split; [now constructor | exact Hlost].
    + split; [exact Hgot |].
      rewrite map_app, Hout, Hlost.
      cbn [List.filter]. now destruct (Ext.recorded pid).
Qed.

Lemma got_lost_all (ids : list string) :
  forall rs : list (option json),
    length rs = length ids ->
    Ext.got_ids ids rs ++ Ext.lost_ids ids rs ≡ₚ ids.
Proof.
  induction ids as [|p ids IH]; intros [|[r |] rs] Hlen;
    try discriminate; cbn [Ext.got_ids Ext.lost_ids app].
  - reflexivity.
  - constructor. apply IH. now injection Hlen.
  - rewrite <- Permutation_middle. constructor. apply IH. now injection Hlen.
Qed.

(** A batch, whatever the order in which its workers run: the identifiers
    split into those that got a record and those that did not; the records
    returned answer the former, one each, and the failure list grows by one
    fresh record for each of the latter that is not empty. *)
Lemma fetch_batch_outcome (product_ids : list string) (s : state) :
  1 <= concurrent_requests cfg ->
  exists products s' got lost new,
    TikiCrawler.fetch_batch E cfg product_ids s = Ok (products, s')
    /\ files s' = files s
    /\ got ++ lost ≡ₚ product_ids
    /\ Forall2 (Ext.answered E) got products
    /\ failed_products (stats s') = failed_products (stats s) ++ new
    /\ Forall Inv.fresh new
    /\ map Inv.pid_of new = List.filter Ext.recorded lost.
Proof.
  intros Hc. rewrite (fetch_batch_gather E cfg _ _ Hc).
  destruct (gather_outcome product_ids s)
    as [rs [s' [new [Hrs [Hf [Hlen [Hfp [Hfr [Hgot Hlost]]]]]]]]].
  rewrite Hrs.
  exists (TikiCrawler.not_none rs), s', (Ext.got_ids product_ids rs),
    (Ext.lost_ids product_ids rs), new.
  split; [reflexivity |]. split; [exact Hf |].
  split; [now apply got_lost_all |]. auto.
Qed.

(** When no identifier is repeated, an identifier of the batch has a
    failure record exactly when it is not empty and got no record. *)
Lemma split_NoDup (ids got lost : list string) (new : list json) :
  NoDup ids ->
  got ++ lost ≡ₚ ids ->
  map Inv.pid_of new = List.filter Ext.recorded lost ->
  NoDup got
  /\ NoDup (map Inv.pid_of new)
  /\ (forall p, In p got -> In p ids)
  /\ (forall p, In p (map Inv.pid_of new) -> p <> "" /\ In p ids)
  /\ (forall p, In p ids -> p <> "" ->
        In p (map Inv.pid_of new) <-> ~ In p got).
Proof.
  intros Hnd Hperm Hnew.
  assert (Hnd' : NoDup (got ++ lost)) by now rewrite Hperm.
  apply NoDup_app in Hnd'. destruct Hnd' as [Hg [Hdis Hl]].
  assert (Hin : forall p, In p ids <-> In p got \/ In p lost).
  { intros p. rewrite <- in_app_iff. rewrite <- !list_elem_of_In.
    now rewrite Hperm. }
  assert (Hrec : forall p, In p (map Inv.pid_of new) <-> In p lost /\ p <> "").
  { intros p. rewrite Hnew, filter_In. unfold Ext.recorded.
    destruct (String.eqb_spec p ""); cbn; intuition congruence. }
  split; [exact Hg |].
  split.
  { rewrite Hnew. eapply sublist_NoDup; [exact Hl |].
    clear. induction lost as [|p lost IH]; cbn [List.filter];
      [constructor |].
    destruct (Ext.recorded p); now constructor. }
  split; [intros p Hp; apply Hin; now left |].
  split.
  { intros p Hp. apply Hrec in Hp. destruct Hp as [Hp Hne].
    split; [exact Hne | apply Hin; now right]. }
  intros p Hp Hne. rewrite Hrec. split.
  - intros [Hlost _] Hgot. apply (Hdis p); now apply list_elem_of_In.
  - intros Hgot. split; [| exact Hne].
    apply Hin in Hp. destruct Hp as [Hp | Hp]; [contradiction | exact Hp].
Qed.

Hypothesis Hc : 1 <= concurrent_requests cfg.

(** The batch loop, whatever the order of the workers inside a batch. *)
Lemma run_batches_outcome (product_ids : list string) (starts : list nat) :
  NoDup (map (fun start => start / batch_size cfg) starts) ->
  NoDup (flat_map (TikiCrawler.batch_ids cfg product_ids) starts) ->
  forall s s',
    TikiCrawler.run_batches E cfg product_ids starts s = Ok s' ->
    exists new,
      failed_products (stats s') = failed_products (stats s) ++ new
      /\ Forall Inv.fresh new
      /\ NoDup (map Inv.pid_of new)
      /\ (forall p, In p (map Inv.pid_of new) ->
            p <> ""
            /\ exists start,
                 In start starts
                 /\ Dir.lookup (FileHandler.batch_file (start / batch_size cfg))
                      (files s) = None
                 /\ In p (TikiCrawler.batch_ids cfg product_ids start))
      /\ (forall start,
            In start starts ->
            Dir.lookup (FileHandler.batch_file (start / batch_size cfg))
              (files s) = None ->
            exists products got,
              Dir.lookup (FileHandler.batch_file (start / batch_size cfg))
                (files s') = Some (Parsed (JArr products))
              /\ NoDup got
              /\ (forall p, In p got ->
                    In p (TikiCrawler.batch_ids cfg product_ids start))
              /\ Forall2 (Ext.answered E) got products
              /\ (forall p,
                    In p (TikiCrawler.batch_ids cfg product_ids start) ->
                    p <> "" ->
                    In p (map Inv.pid_of new) <-> ~ In p got)).
Proof.
  induction starts as [|start rest IH]; intros Hidx Hnd s s' H.
  { injection H as <-. exists []. split; [now rewrite app_nil_r |].
    split; [constructor |]. split; [constructor |].
    split; [intros p [] | intros start []]. }
  cbn [map] in Hidx. apply NoDup_cons in Hidx. destruct Hidx as [Hnotin Hidx].
  cbn [flat_map] in Hnd. apply NoDup_app in Hnd.
  destruct Hnd as [Hnd1 [Hdis Hnd2]].
  assert (Hother : forall st, In st rest ->
            FileHandler.batch_file (start / batch_size cfg)
            <> FileHandler.batch_file (st / batch_size cfg)).
  { intros st Hst Heq. apply batch_file_inj in Heq. apply Hnotin.
    apply list_elem_of_In, in_map_iff. exists st. split; [| exact Hst].
    now rewrite Heq. }
  assert (Hrest : forall p st, In st rest ->
            In p (TikiCrawler.batch_ids cfg product_ids st) ->
            ~ In p (TikiCrawler.batch_ids cfg product_ids start)).
  { intros p st Hst Hp Hp'. apply (Hdis p); [now apply list_elem_of_In |].
    apply list_elem_of_In, in_flat_map. now exists st. }
  cbn [TikiCrawler.run_batches] in H. unfold Dir.exists_ in H.
  destruct (Dir.lookup (FileHandler.batch_file (start / batch_size cfg))
              (files s)) as [f |] eqn:Hl.
  - destruct (IH Hidx Hnd2 _ _ H) as [new [Hfp [Hfr [Hndn [Hfrom Hper]]]]].
    exists new. split; [exact Hfp |]. split; [exact Hfr |].
    split; [exact Hndn |]. split.
    + intros p Hp. destruct (Hfrom p Hp) as [Hne [st [Hst Hrest']]].
      split; [exact Hne |]. exists st. split; [now right | exact Hrest'].
    + intros st [<- | Hst] Hnone; [congruence |]. now apply Hper.
  - destruct (fetch_batch_outcome
                (TikiCrawler.batch_ids cfg product_ids start) s Hc)
      as [products [s1 [got [lost [new1 [Hfb [Hf1 [Hperm [Hans [Hfp1 [Hfr1 Hnew1]]]]]]]]]]].
    rewrite Hfb in H.
    destruct (split_NoDup _ _ _ _ Hnd1 Hperm Hnew1)
      as [Hg [Hn1 [Hgin [Hnin Hiff]]]].
    destruct (IH Hidx Hnd2 _ _ H) as [new2 [Hfp [Hfr [Hndn [Hfrom Hper]]]]].
    cbn [emit set_files stats files] in Hfp, Hfrom, Hper.
    rewrite Hf1 in Hfrom, Hper.
    assert (Hkeep : forall st, In st rest ->
              Dir.lookup (FileHandler.batch_file (st / batch_size cfg))
                (FileHandler.save_batch products (start / batch_size cfg)
                   (files s))
              = Dir.lookup (FileHandler.batch_file (st / batch_size cfg))
                  (files s)).
    { intros st Hst. unfold FileHandler.save_batch. rewrite lookup_write.
      destruct (String.eqb_spec
                  (FileHandler.batch_file (start / batch_size cfg))
                  (FileHandler.batch_file (st / batch_size cfg))) as [Heq | _];
        [now destruct (Hother st Hst) | reflexivity]. }
    assert (Hfrom2 : forall p, In p (map Inv.pid_of new2) ->
              ~ In p (TikiCrawler.batch_ids cfg product_ids start)).
    { intros p Hp. destruct (Hfrom p Hp) as [_ [st [Hst [_ Hin]]]].
      now apply (Hrest p st). }
    exists (new1 ++ new2).
    split; [rewrite Hfp, Hfp1; now rewrite app_assoc |].
    split; [now apply Forall_app |].
    split.
    { rewrite map_app. apply NoDup_app. split; [exact Hn1 |].
      split; [| exact Hndn].
      intros p Hp1 Hp2. apply list_elem_of_In in Hp1, Hp2.
      apply (Hfrom2 p Hp2). now apply Hnin. }
    split.
    { intros p Hp. rewrite map_app in Hp. apply in_app_iff in Hp.
      destruct Hp as [Hp | Hp].
      - destruct (Hnin p Hp) as [Hne Hin]. split; [exact Hne |].
        exists start. split; [now left |]. split; [exact Hl | exact Hin].
      - destruct (Hfrom p Hp) as [Hne [st [Hst [Hnone Hin]]]].
        split; [exact Hne |]. exists st. split; [now right |].
        split; [| exact Hin]. now rewrite <- (Hkeep st Hst). }
    intros st [<- | Hst] Hnone.
    + destruct (crawl_batch_loop E cfg _ _ _ _ H) as [Hbw _].
      cbn [emit set_files files] in Hbw. rewrite Hf1 in Hbw.
      exists products, got. split.
      { apply (batch_writes_lookup _ _ _ _ Hbw).
        unfold FileHandler.save_batch. rewrite lookup_write.
        now rewrite String.eqb_refl. }
      split; [exact Hg |]. split; [exact Hgin |]. split; [exact Hans |].
      intros p Hp Hne. rewrite <- (Hiff p Hp Hne), map_app, in_app_iff.
      split; [intros [Hp1 | Hp2]; [exact Hp1 | now destruct (Hfrom2 p Hp2)]
             | now left].
    + rewrite <- (Hkeep st Hst) in Hnone.
      destruct (Hper st Hst Hnone) as [products' [got' [Hl' [Hg' [Hgin' [Hans' Hiff']]]]]].
      exists products', got'. split; [exact Hl' |]. split; [exact Hg' |].
      split; [exact Hgin' |]. split; [exact Hans' |].
      intros p Hp Hne. rewrite <- (Hiff' p Hp Hne), map_app, in_app_iff.
      split; [intros [Hp1 | Hp2]; [| exact Hp2] | now right].
      destruct (Hnin p Hp1) as [_ Hin]. now destruct (Hrest p st Hst Hp).
Qed.

End Outcome.

(** ** The batches and the failures of a run *)

Section FetchedBatches.

Variable E : env.
Variable cfg : config.

Lemma range_index (n b k : nat) :
  1 <= b -> k < (n + b - 1) / b -> In (k * b) (py_range n b).
Proof.
  intros Hb Hk. unfold py_range. apply in_map_iff. exists k.
  split; [reflexivity |]. apply in_seq. lia.
Qed.

(** The batch loop of a run over a pending list without repetition: the
    failure list grows by one fresh record for each identifier, not empty,
    of a batch without a file that got no record, and the file of such a
    batch holds the records that answer its other identifiers. *)
Lemma crawl_fetched (pending : list string) (s0 s1 : state) :
  NoDup pending ->
  1 <= batch_size cfg ->
  TikiCrawler.run_batches E cfg pending
    (py_range (length pending) (batch_size cfg)) s0 = Ok s1 ->
  exists new,
    failed_products (stats s1) = failed_products (stats s0) ++ new
    /\ Forall Inv.fresh new
    /\ NoDup (map Inv.pid_of new)
    /\ (forall p, In p (map Inv.pid_of new) ->
          p <> ""
          /\ exists k,
               k < (length pending + batch_size cfg - 1) / batch_size cfg
               /\ Dir.lookup (FileHandler.batch_file k) (files s0) = None
               /\ In p (TikiCrawler.batch_ids cfg pending (k * batch_size cfg)))
    /\ (forall k,
          k < (length pending + batch_size cfg - 1) / batch_size cfg ->
          Dir.lookup (FileHandler.batch_file k) (files s0) = None ->
          exists products got,
            Dir.lookup (FileHandler.batch_file k) (files s1)
            = Some (Parsed (JArr products))
            /\ NoDup got
            /\ (forall p, In p got ->
                  In p (TikiCrawler.batch_ids cfg pending (k * batch_size cfg)))
            /\ Forall2 (Ext.answered E) got products
            /\ (forall p,
                  In p (TikiCrawler.batch_ids cfg pending (k * batch_size cfg)) ->
                  p <> "" ->
                  In p (map Inv.pid_of new) <-> ~ In p got)).
Proof.
  intros Hnd Hb Hrun.
  destruct (Nat.eq_dec (concurrent_requests cfg) 0) as [Hc | Hc].
  - rewrite (run_batches_no_window E cfg pending _ Hc _ _ Hrun).
    exists []. split; [now rewrite app_nil_r |]. split; [constructor |].
    split; [constructor |]. split; [intros p [] |].
    intros k Hk Hnone. exfalso.
    rewrite (run_batches_zero_window E cfg pending _ s0 Hc) in Hrun;
      [discriminate |].
    exists (k * batch_size cfg). split; [now apply range_index |].
    now rewrite Nat.div_mul by lia.
  - destruct (run_batches_outcome E cfg ltac:(lia) pending
                (py_range (length pending) (batch_size cfg)))
      with (s := s0) (s' := s1) as [new [Hfp [Hfr [Hndn [Hfrom Hper]]]]].
    + unfold py_range. rewrite map_map.
      erewrite map_ext; [| intros a; apply Nat.div_mul; lia].
      rewrite map_id. apply NoDup_seq.
    + rewrite flat_map_concat_map, (batches_concat cfg _ Hb). exact Hnd.
    + exact Hrun.
    + exists new. split; [exact Hfp |]. split; [exact Hfr |].
      split; [exact Hndn |]. split.
      * intros p Hp. destruct (Hfrom p Hp) as [Hne [start [Hst [Hnone Hin]]]].
        split; [exact Hne |].
        unfold py_range in Hst. apply in_map_iff in Hst.
        destruct Hst as [k [<- Hk]]. apply in_seq in Hk.
        rewrite Nat.div_mul in Hnone by lia.
        exists k. split; [lia |]. split; [exact Hnone | exact Hin].
      * intros k Hk Hnone.
        destruct (Hper (k * batch_size cfg)) as [products [got Hrest]].
        { now apply range_index. }
        { now rewrite Nat.div_mul by lia. }
        rewrite Nat.div_mul in Hrest by lia.
        exists products, got. exact Hrest.
Qed.


(** C6, as the code has it.  A run that schedules at least one identifier
    and ends without an exception leaves a failure list made of the list it
    started with, the history replayed from the [failed_*.json] partitions
    present at the start, and the records of this run: fresh records, for
    different identifiers, one for each identifier, not empty, of a batch
    fetched by this run that got no record in the file of its batch.  When
    that list is not empty, [all_failed_products.json] is overwritten with
    exactly that list, whatever it held before; when it is empty the file
    is not touched. *)
Theorem crawl_all_failed
    (product_ids : list string) (s s' : state) :
  TikiCrawler.crawl E cfg product_ids s = (s', None) ->
  TikiCrawler.pending E (files s) product_ids <> [] ->
  exists new,
    failed_products (stats s')
    = failed_products (stats s) ++ Inv.history (files s) ++ new
    /\ Forall Inv.fresh new
    /\ NoDup (map Inv.pid_of new)
    /\ (forall p, In p (map Inv.pid_of new) ->
          p <> ""
          /\ In p (TikiCrawler.pending E (files s) product_ids)
          /\ exists k,
               Dir.lookup (FileHandler.batch_file k) (files s) = None
               /\ In p (TikiCrawler.batch_ids cfg
                          (TikiCrawler.pending E (files s) product_ids)
                          (k * batch_size cfg)))
    /\ (forall k,
          k < (length (TikiCrawler.pending E (files s) product_ids)
               + batch_size cfg - 1) / batch_size cfg ->
          Dir.lookup (FileHandler.batch_file k) (files s) = None ->
          exists products got,
            Dir.lookup (FileHandler.batch_file k) (files s')
            = Some (Parsed (JArr products))
            /\ NoDup got
            /\ (forall p, In p got ->
                  In p (TikiCrawler.batch_ids cfg
                          (TikiCrawler.pending E (files s) product_ids)
                          (k * batch_size cfg)))
            /\ Forall2 (Ext.answered E) got products
            /\ (forall p,
                  In p (TikiCrawler.batch_ids cfg
                          (TikiCrawler.pending E (files s) product_ids)
                          (k * batch_size cfg)) ->
                  p <> "" ->
                  In p (map Inv.pid_of new) <-> ~ In p got))
    /\ Dir.lookup FileHandler.all_failed_path (files s')
       = match failed_products (stats s') with
         | [] => Dir.lookup FileHandler.all_failed_path (files s)
         | _ => Some (Parsed (JArr (failed_products (stats s'))))
         end.
Proof.
  intros H Hp.
  destruct (crawl_cases E cfg _ _ _ _ H)
    as [[_ [[Hp' _] | [[_ [_ Hr]] | [_ [_ Hr]]]]]
       | [_ [Hb [s1 [d [Hrun [Hsave ->]]]]]]]; try congruence.
  destruct (crawl_fetched _ _ _ (pending_NoDup E (files s) product_ids) Hb Hrun)
    as [new [Hfp [Hfr [Hnd [Hfrom Hfetched]]]]].
  destruct (crawl_batch_loop E cfg _ _ _ _ Hrun) as [Hbw _].
  rewrite loaded_failures in Hfp.
  change (files (Inv.loaded product_ids s)) with (files s) in *.
  exists new. cbn [set_files stats files].
  split; [now rewrite Hfp, app_assoc |]. split; [exact Hfr |].
  split; [exact Hnd |]. split.
  { intros p Hin. destruct (Hfrom p Hin) as [Hne [k [_ [Hnone Hbatch]]]].
    split; [exact Hne |].
    split; [apply (In_batch_ids cfg _ _ _ Hbatch) |].
    exists k. split; [exact Hnone | exact Hbatch]. }
  split.
  { intros k Hk Hnone.
    destruct (Hfetched k Hk Hnone) as [products [got [Hfile Hrest]]].
    exists products, got.
    rewrite (save_failed_products _ _ _ _ _ Hsave (batch_file_is_products k)).
    split; [exact Hfile | exact Hrest]. }
  unfold FileHandler.save_failed_products_by_error in Hsave.
  destruct (failed_products (stats s1)) as [|r rs] eqn:Hlist.
  - injection Hsave as <-.
    apply (batch_writes_other _ _ _ Hbw), all_failed_not_batch.
  - destruct (FileHandler.group_by_error (r :: rs) []) as [groups | e];
      [| discriminate].
    destruct (FileHandler.save_groups groups (files s1)) as [d1 [e |]];
      [discriminate |].
    injection Hsave as <-. rewrite lookup_write.
    now rewrite String.eqb_refl.
Qed.

(** X11.  Whatever the window width and the order in which the workers
    run, a batch gives each of its identifiers exactly one worker: the
    identifiers split into those that got a record and those that did not;
    the records returned are one for each of the former, each the
    normalisation of a payload given for its identifier; and the failure
    list grows by one fresh record for each of the latter that is not
    empty. *)
Theorem fetch_batch_one_worker_each (product_ids : list string) (s : state) :
  1 <= concurrent_requests cfg ->
  exists products s' got lost new,
    TikiCrawler.fetch_batch E cfg product_ids s = Ok (products, s')
    /\ got ++ lost ≡ₚ product_ids
    /\ Forall2 (Ext.answered E) got products
    /\ failed_products (stats s') = failed_products (stats s) ++ new
    /\ Forall Inv.fresh new
    /\ map Inv.pid_of new ≡ₚ List.filter Ext.recorded lost.
Proof.
  intros Hc.
  destruct (fetch_batch_outcome E cfg product_ids s Hc)
    as [products [s' [got [lost [new [Hfb [_ [Hperm [Hans [Hfp [Hfr Hnew]]]]]]]]]]].
  exists products, s', got, lost, new.
  split; [exact Hfb |]. split; [exact Hperm |]. split; [exact Hans |].
  split; [exact Hfp |]. split; [exact Hfr |]. now rewrite Hnew.
Qed.

End FetchedBatches.



Lemma crawl_all_failed_witness :
  exists s' new,
    TikiCrawler.crawl Sample.env_500 Sample.cfg3 ["42"] Sample.after_failure
    = (s', None)
    /\ failed_products (stats s') = Sample.old_failure :: new
    /\ (In "42" (map Inv.pid_of new) <-> ~ In "42" [])
    /\ Dir.lookup "all_failed_products.json" (files s')
       = Some (Parsed (JArr (Sample.old_failure :: new))).
Proof.
  destruct (TikiCrawler.crawl Sample.env_500 Sample.cfg3 ["42"]
              Sample.after_failure) as [s' raised] eqn:Hr.
  assert (raised = None) as ->
    by (apply (f_equal snd) in Hr; vm_compute in Hr; congruence).
  destruct (crawl_all_failed _ _ _ _ _ Hr)
    as [new [Hfp [_ [_ [_ [Hfetched Hfile]]]]]].
  - vm_compute. discriminate.
  - exists s', new. split; [reflexivity |].
    change (failed_products (stats Sample.after_failure)) with (@nil json) in Hfp.
    change (Inv.history (files Sample.after_failure))
      with [Sample.old_failure] in Hfp.
    cbn [app] in Hfp. split; [exact Hfp |].
    rewrite Hfp in Hfile. split; [| exact Hfile].
    destruct (Hfetched 0 ltac:(vm_compute; lia) ltac:(reflexivity))
      as [products [got [Hl [_ [_ [Hans Hiff]]]]]].
    apply (f_equal fst) in Hr. cbn [fst] in Hr. subst s'.
    vm_compute in Hl. injection Hl as <-. inversion Hans. subst got.
    apply Hiff; [vm_compute; now left | discriminate].
Defined.

Lemma fetch_batch_one_worker_each_witness :
  exists products s' got lost new,
    TikiCrawler.fetch_batch Sample.env_flaky
      {| batch_size := 2; concurrent_requests := 2; max_retries := 1 |}
      ["1"; "7"; "8"] Sample.start = Ok (products, s')
    /\ got ++ lost ≡ₚ ["1"; "7"; "8"]
    /\ Forall2 (Ext.answered Sample.env_flaky) got products
    /\ failed_products (stats s')
       = failed_products (stats Sample.start) ++ new
    /\ Forall Inv.fresh new
    /\ map Inv.pid_of new ≡ₚ List.filter Ext.recorded lost.
Proof.
  apply (fetch_batch_one_worker_each Sample.env_flaky
           {| batch_size := 2; concurrent_requests := 2; max_retries := 1 |}
           ["1"; "7"; "8"] Sample.start).
  simpl. lia.
Defined.
